(** * Binance Futures SDK: request building, validation and composition

    A shallow embedding of the JavaScript sources of the SDK: the endpoint
    mixins [Account], [Trade] (two files export a mixin of that name) and
    [Market], and the [Futures] client class of [src/futures.js].

    JavaScript objects live in a heap of cells and are passed by reference,
    so that [Object.assign(options, ...)] is an in-place update of the
    caller's object.  A method body is a computation in a state-and-exception
    monad over the heap, the global scope and the log of dispatched requests. *)

From Stdlib Require Import ZArith String Ascii List Lia.
From Stdlib Require Import DecimalString.
From stdpp Require Import base option list strings.

Local Open Scope string_scope.
Local Open Scope Z_scope.

(** ** Values, objects, the heap *)

Definition loc := nat.

(** Numbers are the integers (timestamps, quantities, limits); decimal
    prices are passed to the exchange as strings. *)
Inductive value :=
  | VUndef
  | VNull
  | VBool (b : bool)
  | VNum (n : Z)
  | VStr (s : string)
  | VRef (l : loc).

#[global] Instance value_eq_dec : EqDecision value.
Proof. solve_decision. Defined.

(** A heap cell is a plain object ([c_elems = None]) or an array, which
    carries its elements next to its named properties.  Named properties are
    kept in insertion order. *)
Record cell := Cell {
  c_elems : option (list value);
  c_props : list (string * value)
}.

Abbreviation props := (list (string * value)) (only parsing).

Fixpoint assoc (k : string) (l : props) : option value :=
  match l with
  | [] => None
  | (k', v) :: l' => if String.eqb k k' then Some v else assoc k l'
  end.

(** Writing a property keeps the position of an existing key and appends a
    new one. *)
Fixpoint set_assoc (k : string) (v : value) (l : props) : props :=
  match l with
  | [] => [(k, v)]
  | (k', v') :: l' =>
      if String.eqb k k' then (k', v) :: l' else (k', v') :: set_assoc k v l'
  end.

Definition keys (l : props) : list string := map fst l.

(** Own property [k] of a cell.  The names this program reads and writes are
    fixed identifiers ([symbol], [timestamp], [baseURL], ...), never an array
    index; [length] is the only one an array answers from its elements. *)
Definition get_named (c : cell) (k : string) : option value :=
  match c_elems c with
  | Some es => if String.eqb k "length" then Some (VNum (Z.of_nat (length es)))
               else assoc k (c_props c)
  | None => assoc k (c_props c)
  end.

Definition set_named (k : string) (v : value) (c : cell) : cell :=
  Cell (c_elems c) (set_assoc k v (c_props c)).

Definition set_all (fields : props) (c : cell) : cell :=
  fold_left (fun c kv => set_named kv.1 kv.2 c) fields c.

(** The one-character strings of a string, as [s[i]] reads them. *)
Fixpoint chars (s : string) : list value :=
  match s with
  | EmptyString => []
  | String a s' => VStr (String a EmptyString) :: chars s'
  end.

(** Own enumerable properties in enumeration order: indices first. *)
Definition index_key (i : nat) : string :=
  NilEmpty.string_of_uint (Nat.to_uint i).

Definition index_props (es : list value) : props :=
  imap (fun i v => (index_key i, v)) es.

Definition own_props (c : cell) : props :=
  match c_elems c with
  | Some es => (index_props es ++ c_props c)%list
  | None => c_props c
  end.

(** ** Requests, errors, the world *)

(** The Request Descriptor handed to the dispatcher. *)
Record request := Request {
  r_signed : bool;
  r_method : string;
  r_path : string;
  r_params : value
}.

Record world := World {
  heap : list cell;
  globals : props;
  net : list request
}.

Inductive error :=
  | ReferenceError (x : string)
  | TypeError
  | MissingParameterError (names : list string)
  | SigningError
  | Unsupported.

Inductive result (A : Type) :=
  | Ok (a : A)
  | Throw (e : error).
Arguments Ok {A} a.
Arguments Throw {A} e.

(** A thrown exception keeps the heap writes made before it. *)
Definition M (A : Type) : Type := world -> result A * world.

#[global] Instance M_ret : MRet M := fun A a w => (Ok a, w).
#[global] Instance M_bind : MBind M := fun A B f m w =>
  match m w with
  | (Ok a, w') => f a w'
  | (Throw e, w') => (Throw e, w')
  end.

Definition throw {A} (e : error) : M A := fun w => (Throw e, w).

Definition with_heap (h : list cell) (w : world) : world :=
  World h (globals w) (net w).

Definition alloc (c : cell) : M loc := fun w =>
  (Ok (length (heap w)), with_heap (heap w ++ [c])%list w).

(** A reference that the heap does not hold cannot be built by a caller. *)
Definition read_cell (r : loc) : M cell := fun w =>
  match heap w !! r with
  | Some c => (Ok c, w)
  | None => (Throw Unsupported, w)
  end.

Definition write_cell (r : loc) (c : cell) : M unit := fun w =>
  (Ok tt, with_heap (<[r := c]> (heap w)) w).

(** ** JavaScript primitives used by the method bodies *)

(** An identifier that is no parameter of the method is looked up in the
    global scope; an unbound one throws. *)
Definition global (x : string) : M value := fun w =>
  match assoc x (globals w) with
  | Some v => (Ok v, w)
  | None => (Throw (ReferenceError x), w)
  end.

(** [v.k] for the property names of this program. *)
Definition get_prop (v : value) (k : string) : M value :=
  match v with
  | VUndef | VNull => throw TypeError
  | VRef r => c ← read_cell r; mret (default VUndef (get_named c k))
  | VStr s => mret (if String.eqb k "length"
                    then VNum (Z.of_nat (String.length s)) else VUndef)
  | VBool _ | VNum _ => mret VUndef
  end.

(** [v[i]] *)
Definition get_index (v : value) (i : nat) : M value :=
  match v with
  | VUndef | VNull => throw TypeError
  | VRef r =>
      c ← read_cell r;
      mret (default VUndef
              (match c_elems c with
               | Some es => es !! i
               | None => assoc (index_key i) (c_props c)
               end))
  | VStr s => mret (default VUndef (chars s !! i))
  | VBool _ | VNum _ => mret VUndef
  end.

(** [v.k = x] in strict mode. *)
Definition set_prop (v : value) (k : string) (x : value) : M unit :=
  match v with
  | VRef r => c ← read_cell r; write_cell r (set_named k x c)
  | _ => throw TypeError
  end.

(** [Object.prototype.hasOwnProperty.call(v, k)] for a name [k] that is no
    index and not [length]. *)
Definition hasOwnProperty (v : value) (k : string) : M bool :=
  match v with
  | VUndef | VNull => throw TypeError
  | VRef r => c ← read_cell r; mret (bool_decide (is_Some (get_named c k)))
  | _ => mret false
  end.

(** The upper-casing of the ASCII characters: the letters a-z become A-Z and
    every other byte stays.  On a string of ASCII characters [upper] is what
    [String.prototype.toUpperCase] returns.  What the method returns for the
    other characters depends on the Unicode tables of the engine and is not
    modelled: the statements read the result of [toUpperCase] through
    [upper_cased] below, which leaves those characters open. *)
Definition upper_ascii (a : ascii) : ascii :=
  let n := nat_of_ascii a in
  if (Nat.leb 97 n && Nat.leb n 122)%bool then ascii_of_nat (n - 32) else a.

Fixpoint upper (s : string) : string :=
  match s with
  | EmptyString => EmptyString
  | String a s' => String (upper_ascii a) (upper s')
  end.

Definition is_ascii (a : ascii) : bool := Nat.ltb (nat_of_ascii a) 128.

Fixpoint ascii_only (s : string) : bool :=
  match s with
  | EmptyString => true
  | String a s' => is_ascii a && ascii_only s'
  end.

(** What [String.prototype.toUpperCase] does to a string (held here as its
    UTF-8 bytes), as far as it does not depend on the Unicode tables of the
    engine: an ASCII character becomes [upper_ascii] of it (the letters a-z
    become A-Z, any other ASCII character stays), in place and in order; the
    bytes of a non-ASCII character are replaced by whatever the engine maps
    the character to. *)
Inductive upper_cased : string -> string -> Prop :=
  | upper_cased_nil : upper_cased "" ""
  | upper_cased_ascii a s s' :
      is_ascii a = true -> upper_cased s s' ->
      upper_cased (String a s) (String (upper_ascii a) s')
  | upper_cased_other b out s s' :
      is_ascii b = false -> upper_cased s s' ->
      upper_cased (String b s) (out ++ s').

(** [v.toUpperCase()]: only a string has the method.  The string returned
    is exact on the ASCII characters (see [upper_cased]). *)
Definition toUpperCase (v : value) : M value :=
  match v with
  | VStr s => mret (VStr (upper s))
  | _ => throw TypeError
  end.

(** A parameter with default [= {}]: the default is evaluated when the
    argument is [undefined]. *)
Definition default_param (v : value) (dflt : M value) : M value :=
  match v with
  | VUndef => dflt
  | _ => mret v
  end.

(** An object literal. *)
Definition new_object (fields : props) : M value :=
  r ← alloc (set_all fields (Cell None []));
  mret (VRef r).

Definition new_array (es : list value) : M value :=
  r ← alloc (Cell (Some es) []);
  mret (VRef r).

(** [Object.assign(target, {fields})]: writes into the target object itself
    and returns it; a primitive target is wrapped into a fresh object. *)
Definition Object_assign (target : value) (fields : props) : M value :=
  match target with
  | VUndef | VNull => throw TypeError
  | VRef r => c ← read_cell r; write_cell r (set_all fields c);; mret (VRef r)
  | VStr s => r ← alloc (set_all fields (Cell (Some (chars s)) [])); mret (VRef r)
  | VBool _ | VNum _ => r ← alloc (set_all fields (Cell None [])); mret (VRef r)
  end.

(** The bound of [for (let i = 0; i < len; i++)]: the number of naturals
    below [len].  A [length] that is a string or an object (an array-like
    object built by hand) is outside the model. *)
Definition loop_bound (len : value) : M nat :=
  match len with
  | VNum n => mret (Z.to_nat n)
  | VUndef | VNull => mret 0%nat
  | VBool b => mret (if b then 1%nat else 0%nat)
  | VStr _ | VRef _ => throw Unsupported
  end.

Fixpoint for_loop (count i : nat) (body : nat -> M unit) : M unit :=
  match count with
  | O => mret tt
  | S count' => body i;; for_loop count' (S i) body
  end.

(** [arr.map(f)] on a value: only an array has the method. *)
Fixpoint mapM {A B} (f : A -> M B) (l : list A) : M (list B) :=
  match l with
  | [] => mret []
  | x :: l' => y ← f x; ys ← mapM f l'; mret (y :: ys)
  end.

Definition array_map (f : value -> M value) (v : value) : M value :=
  match v with
  | VRef r =>
      c ← read_cell r;
      match c_elems c with
      | Some es => es' ← mapM f es; new_array es'
      | None => throw TypeError
      end
  | _ => throw TypeError
  end.

(** [if (b) { m }] *)
Definition when (b : bool) (m : M unit) : M unit :=
  if b then m else mret tt.

(** Truthiness, for [a || b]. *)
Definition truthy (v : value) : bool :=
  match v with
  | VUndef | VNull => false
  | VBool b => b
  | VNum n => negb (Z.eqb n 0)
  | VStr s => negb (String.eqb s "")
  | VRef _ => true
  end.

Definition or_else (a b : value) : value := if truthy a then a else b.

(** ** Helpers of the repository that the method bodies call *)

(** The values the validator takes as missing. *)
Definition is_missing (v : value) : bool :=
  match v with
  | VUndef | VNull => true
  | VStr s => String.eqb s ""
  | _ => false
  end.

(** Modelled from the spec: [helpers/validation] is not under src/.  Given a
    mapping of parameter name to value, [validateRequiredParameters] fails
    with a [MissingParameterError] naming every parameter whose value is
    undefined, null or the empty string; it has no side effect. *)
Definition validateRequiredParameters (params : props) : M unit :=
  match keys (filter (fun kv => is_missing kv.2 = true) params) with
  | [] => mret tt
  | emptyParams => throw (MissingParameterError emptyParams)
  end.

(** The handle of a dispatched request: its position in the log. *)
Definition promise := nat.

(** The dispatcher logs the request descriptor and hands back its promise. *)
Definition dispatch (signed : bool) (method path : string) (params : value)
  : M promise := fun w =>
  (Ok (length (net w)),
   World (heap w) (globals w) (net w ++ [Request signed method path params])%list).

(** Modelled from the spec: [APIBase] is not under src/.  The unsigned path
    hands the request descriptor to the dispatcher. *)
Definition publicRequest (this : loc) (method path : string) (params : value)
  : M promise :=
  dispatch false method path params.

(** Modelled from the spec: [APIBase] is not under src/.  The signed path
    fails with [SigningError] when the client holds no secret, and otherwise
    hands the descriptor, flagged as signed, to the dispatcher. *)
Definition signRequest (this : loc) (method path : string) (params : value)
  : M promise :=
  apiSecret ← get_prop (VRef this) "apiSecret";
  if is_missing apiSecret then throw SigningError
  else dispatch true method path params.

(** ** Endpoint modules *)

(** An operation of a mixin class: its name, the parameters of its signature
    before [options], whether the signature ends in [options = {}], and its
    body applied to the receiver and the argument list of the call. *)
Record method := Method {
  m_name : string;
  m_params : list string;
  m_options : bool;
  m_run : loc -> list value -> M promise
}.

(** A parameter the call does not supply is [undefined]. *)
Definition arg (i : nat) (args : list value) : value := nth i args VUndef.

(** A method of zero to six parameters applied to the argument list. *)
Definition call0 (f : loc -> M promise) (this : loc) (args : list value) :=
  f this.
Definition call1 (f : loc -> value -> M promise) (this : loc) (args : list value) :=
  f this (arg 0 args).
Definition call2 (f : loc -> value -> value -> M promise) (this : loc)
    (args : list value) :=
  f this (arg 0 args) (arg 1 args).
Definition call3 (f : loc -> value -> value -> value -> M promise) (this : loc)
    (args : list value) :=
  f this (arg 0 args) (arg 1 args) (arg 2 args).
Definition call4 (f : loc -> value -> value -> value -> value -> M promise)
    (this : loc) (args : list value) :=
  f this (arg 0 args) (arg 1 args) (arg 2 args) (arg 3 args).
Definition call5
    (f : loc -> value -> value -> value -> value -> value -> M promise)
    (this : loc) (args : list value) :=
  f this (arg 0 args) (arg 1 args) (arg 2 args) (arg 3 args) (arg 4 args).
Definition call6
    (f : loc -> value -> value -> value -> value -> value -> value -> M promise)
    (this : loc) (args : list value) :=
  f this (arg 0 args) (arg 1 args) (arg 2 args) (arg 3 args) (arg 4 args)
    (arg 5 args).

(** A class is its chain of class bodies, the most derived first; a body
    lists its method definitions in source order. *)
Definition jsclass := list (list method).

(** The [Account] mixin.  Its methods declare no parameter: the identifiers
    [timestamp], [options], [symbol], [startTime] and [endTime] of their bodies
    are free. *)
Module Account.

(** [futuresAccountBalanceV3()] *)
Definition futuresAccountBalanceV3 (this : loc) : M promise :=
  timestamp ← global "timestamp";
  validateRequiredParameters [("timestamp", timestamp)];;
  options ← global "options";
  timestamp ← global "timestamp";
  params ← Object_assign options [("timestamp", timestamp)];
  publicRequest this "GET" "/fapi/v3/balance" params.

(** [futuresAccountBalanceV2()] *)
Definition futuresAccountBalanceV2 (this : loc) : M promise :=
  timestamp ← global "timestamp";
  validateRequiredParameters [("timestamp", timestamp)];;
  options ← global "options";
  timestamp ← global "timestamp";
  params ← Object_assign options [("timestamp", timestamp)];
  publicRequest this "GET" "/fapi/v2/balance" params.

(** [accountInformationV3()] *)
Definition accountInformationV3 (this : loc) : M promise :=
  timestamp ← global "timestamp";
  validateRequiredParameters [("timestamp", timestamp)];;
  options ← global "options";
  timestamp ← global "timestamp";
  params ← Object_assign options [("timestamp", timestamp)];
  publicRequest this "GET" "/fapi/v3/account" params.

(** [accountInformationV2()] *)
Definition accountInformationV2 (this : loc) : M promise :=
  timestamp ← global "timestamp";
  validateRequiredParameters [("timestamp", timestamp)];;
  options ← global "options";
  timestamp ← global "timestamp";
  params ← Object_assign options [("timestamp", timestamp)];
  publicRequest this "GET" "/fapi/v2/account" params.

(** [userComissionRate()] *)
Definition userComissionRate (this : loc) : M promise :=
  symbol ← global "symbol";
  timestamp ← global "timestamp";
  validateRequiredParameters [("symbol", symbol); ("timestamp", timestamp)];;
  options ← global "options";
  symbol ← global "symbol";
  symbol_uc ← toUpperCase symbol;
  timestamp ← global "timestamp";
  params ← Object_assign options [("symbol", symbol_uc); ("timestamp", timestamp)];
  publicRequest this "GET" "/fapi/v1/commissionRate" params.

(** [futuresAccountConfiguration()] *)
Definition futuresAccountConfiguration (this : loc) : M promise :=
  timestamp ← global "timestamp";
  validateRequiredParameters [("timestamp", timestamp)];;
  options ← global "options";
  timestamp ← global "timestamp";
  params ← Object_assign options [("timestamp", timestamp)];
  publicRequest this "GET" "/fapi/v1/accountConfig" params.

(** [futuresSymbolConfiguration()] *)
Definition futuresSymbolConfiguration (this : loc) : M promise :=
  timestamp ← global "timestamp";
  validateRequiredParameters [("timestamp", timestamp)];;
  options ← global "options";
  symbol ← global "symbol";
  symbol_uc ← toUpperCase symbol;
  timestamp ← global "timestamp";
  params ← Object_assign options [("symbol", symbol_uc); ("timestamp", timestamp)];
  publicRequest this "GET" "/fapi/v1/symbolConfig" params.

(** [queryOrderRateLimit()] *)
Definition queryOrderRateLimit (this : loc) : M promise :=
  timestamp ← global "timestamp";
  validateRequiredParameters [("timestamp", timestamp)];;
  options ← global "options";
  symbol ← global "symbol";
  symbol_uc ← toUpperCase symbol;
  timestamp ← global "timestamp";
  params ← Object_assign options [("symbol", symbol_uc); ("timestamp", timestamp)];
  publicRequest this "GET" "/fapi/v1/rateLimit/order" params.

(** [leverageBracket()] *)
Definition leverageBracket (this : loc) : M promise :=
  timestamp ← global "timestamp";
  validateRequiredParameters [("timestamp", timestamp)];;
  options ← global "options";
  timestamp ← global "timestamp";
  params ← Object_assign options [("timestamp", timestamp)];
  publicRequest this "GET" "/fapi/v1/leverageBracket" params.

(** [multiAssetMargin()] *)
Definition multiAssetMargin (this : loc) : M promise :=
  timestamp ← global "timestamp";
  validateRequiredParameters [("timestamp", timestamp)];;
  options ← global "options";
  timestamp ← global "timestamp";
  params ← Object_assign options [("timestamp", timestamp)];
  publicRequest this "GET" "/fapi/v1/multiAssetsMargin" params.

(** [currentPositionMode()] *)
Definition currentPositionMode (this : loc) : M promise :=
  timestamp ← global "timestamp";
  validateRequiredParameters [("timestamp", timestamp)];;
  options ← global "options";
  timestamp ← global "timestamp";
  params ← Object_assign options [("timestamp", timestamp)];
  publicRequest this "GET" "/fapi/v1/positionSide/dual" params.

(** [getIncomeHistory()] *)
Definition getIncomeHistory (this : loc) : M promise :=
  timestamp ← global "timestamp";
  validateRequiredParameters [("timestamp", timestamp)];;
  options ← global "options";
  timestamp ← global "timestamp";
  params ← Object_assign options [("timestamp", timestamp)];
  publicRequest this "GET" "/fapi/v1/income" params.

(** [apiTradingStatus()] *)
Definition apiTradingStatus (this : loc) : M promise :=
  timestamp ← global "timestamp";
  validateRequiredParameters [("timestamp", timestamp)];;
  options ← global "options";
  timestamp ← global "timestamp";
  params ← Object_assign options [("timestamp", timestamp)];
  publicRequest this "GET" "/fapi/v1/apiTradingStatus" params.

(** [getDownloadIdTransactionHistory()] *)
Definition getDownloadIdTransactionHistory (this : loc) : M promise :=
  startTime ← global "startTime";
  endTime ← global "endTime";
  timestamp ← global "timestamp";
  validateRequiredParameters [("startTime", startTime); ("endTime", endTime);
      ("timestamp", timestamp)];;
  options ← global "options";
  startTime ← global "startTime";
  endTime ← global "endTime";
  timestamp ← global "timestamp";
  params ← Object_assign options [("startTime", startTime); ("endTime", endTime);
      ("timestamp", timestamp)];
  publicRequest this "GET" "/fapi/v1/income/asyn" params.

Definition methods : list method :=
  [ Method "futuresAccountBalanceV3" [] false (call0 futuresAccountBalanceV3);
    Method "futuresAccountBalanceV2" [] false (call0 futuresAccountBalanceV2);
    Method "accountInformationV3" [] false (call0 accountInformationV3);
    Method "accountInformationV2" [] false (call0 accountInformationV2);
    Method "userComissionRate" [] false (call0 userComissionRate);
    Method "futuresAccountConfiguration" [] false (call0 futuresAccountConfiguration);
    Method "futuresSymbolConfiguration" [] false (call0 futuresSymbolConfiguration);
    Method "queryOrderRateLimit" [] false (call0 queryOrderRateLimit);
    Method "leverageBracket" [] false (call0 leverageBracket);
    Method "multiAssetMargin" [] false (call0 multiAssetMargin);
    Method "currentPositionMode" [] false (call0 currentPositionMode);
    Method "getIncomeHistory" [] false (call0 getIncomeHistory);
    Method "apiTradingStatus" [] false (call0 apiTradingStatus);
    Method "getDownloadIdTransactionHistory" [] false (call0 getDownloadIdTransactionHistory) ].

(** [const Account = (superclass) => class extends superclass { ... }] *)
Definition mixin (superclass : jsclass) : jsclass := methods :: superclass.

End Account.

(** The [Trade] mixin of the first trade file. *)
Module Trade.

(** [newOrder(symbol, side, type, timestamp, options = {})] *)
Definition newOrder (this : loc)
    (symbol side type timestamp options : value) : M promise :=
  options ← default_param options (new_object []);
  validateRequiredParameters [("symbol", symbol); ("side", side); ("type", type);
      ("timestamp", timestamp)];;
  symbol_uc ← toUpperCase symbol;
  side_uc ← toUpperCase side;
  type_uc ← toUpperCase type;
  params ← Object_assign options [("symbol", symbol_uc); ("side", side_uc);
      ("type", type_uc); ("timestamp", timestamp)];
  signRequest this "POST" "/fapi/v1/order" params.

(** [placeMultipleOrder(batchOrders, timestamp, options = {})] *)
Definition placeMultipleOrder (this : loc)
    (batchOrders timestamp options : value) : M promise :=
  options ← default_param options (new_object []);
  len ← get_prop batchOrders "length";
  n ← loop_bound len;
  for_loop n 0 (fun i =>
    order ← get_index batchOrders i;
    symbol ← get_prop order "symbol";
    side ← get_prop order "side";
    type ← get_prop order "type";
    quantity ← get_prop order "quantity";
    validateRequiredParameters [("symbol", symbol); ("side", side); ("type", type);
        ("quantity", quantity)]);;
  validateRequiredParameters [("timestamp", timestamp)];;
  params ← Object_assign options [("batchOrders", batchOrders); ("timestamp", timestamp)];
  signRequest this "POST" "/fapi/v1/batchOrders" params.

(** [modifyOrder(symbol, side, number, price, timestamp, options = {})] *)
Definition modifyOrder (this : loc)
    (symbol side number price timestamp options : value) : M promise :=
  options ← default_param options (new_object []);
  validateRequiredParameters [("symbol", symbol); ("side", side); ("number", number);
      ("price", price); ("timestamp", timestamp)];;
  symbol_uc ← toUpperCase symbol;
  side_uc ← toUpperCase side;
  params ← Object_assign options [("symbol", symbol_uc); ("side", side_uc);
      ("number", number); ("price", price); ("timestamp", timestamp)];
  signRequest this "PUT" "/fapi/v1/order" params.

(** [modifyMultipleOrder(batchOrders, timestamp, options = {})] *)
Definition modifyMultipleOrder (this : loc)
    (batchOrders timestamp options : value) : M promise :=
  options ← default_param options (new_object []);
  len ← get_prop batchOrders "length";
  n ← loop_bound len;
  for_loop n 0 (fun i =>
    order ← get_index batchOrders i;
    symbol ← get_prop order "symbol";
    side ← get_prop order "side";
    quantity ← get_prop order "quantity";
    price ← get_prop order "price";
    timestamp ← get_prop order "timestamp";
    validateRequiredParameters [("symbol", symbol); ("side", side);
        ("quantity", quantity); ("price", price); ("timestamp", timestamp)]);;
  validateRequiredParameters [("timestamp", timestamp)];;
  params ← Object_assign options [("batchOrders", batchOrders); ("timestamp", timestamp)];
  signRequest this "PUT" "/fapi/v1/batchOrders" params.

(** [orderModifyHistory(symbol, timestamp, options = {})] *)
Definition orderModifyHistory (this : loc)
    (symbol timestamp options : value) : M promise :=
  options ← default_param options (new_object []);
  validateRequiredParameters [("symbol", symbol); ("timestamp", timestamp)];;
  symbol_uc ← toUpperCase symbol;
  params ← Object_assign options [("symbol", symbol_uc); ("timestamp", timestamp)];
  publicRequest this "GET" "/fapi/v1/orderAmendment" params.

(** [cancelOrder(symbol, timestamp, options = {})] *)
Definition cancelOrder (this : loc) (symbol timestamp options : value) : M promise :=
  options ← default_param options (new_object []);
  validateRequiredParameters [("symbol", symbol); ("timestamp", timestamp)];;
  symbol_uc ← toUpperCase symbol;
  params ← Object_assign options [("symbol", symbol_uc); ("timestamp", timestamp)];
  signRequest this "DELETE" "/fapi/v1/order" params.

(** [cancelMultipleOrders(symbol, timestamp, options = {})] *)
Definition cancelMultipleOrders (this : loc)
    (symbol timestamp options : value) : M promise :=
  options ← default_param options (new_object []);
  validateRequiredParameters [("symbol", symbol); ("timestamp", timestamp)];;
  symbol_uc ← toUpperCase symbol;
  params ← Object_assign options [("symbol", symbol_uc); ("timestamp", timestamp)];
  signRequest this "DELETE" "/fapi/v1/batchOrders" params.

(** [cancelAllOpenOrders(symbol, timestamp, options = {})] *)
Definition cancelAllOpenOrders (this : loc)
    (symbol timestamp options : value) : M promise :=
  options ← default_param options (new_object []);
  validateRequiredParameters [("symbol", symbol); ("timestamp", timestamp)];;
  symbol_uc ← toUpperCase symbol;
  params ← Object_assign options [("symbol", symbol_uc); ("timestamp", timestamp)];
  signRequest this "DELETE" "/fapi/v1/allOpenOrders" params.

(** [countDownCancelAll(symbol, timestamp, countdownTime, options = {})] *)
Definition countDownCancelAll (this : loc)
    (symbol timestamp countdownTime options : value) : M promise :=
  options ← default_param options (new_object []);
  validateRequiredParameters [("symbol", symbol); ("timestamp", timestamp);
      ("countdownTime", countdownTime)];;
  symbol_uc ← toUpperCase symbol;
  params ← Object_assign options [("symbol", symbol_uc);
      ("countdownTime", countdownTime); ("timestamp", timestamp)];
  signRequest this "POST" "/fapi/v1/countdownCancelAll" params.

(** [queryOrder(symbol, timestamp, options = {})] *)
Definition queryOrder (this : loc) (symbol timestamp options : value) : M promise :=
  options ← default_param options (new_object []);
  validateRequiredParameters [("symbol", symbol); ("timestamp", timestamp)];;
  symbol_uc ← toUpperCase symbol;
  params ← Object_assign options [("symbol", symbol_uc); ("timestamp", timestamp)];
  publicRequest this "GET" "/fapi/v1/order" params.

(** [queryAllOrders(symbol, timestamp, options = {})] *)
Definition queryAllOrders (this : loc) (symbol timestamp options : value) : M promise :=
  options ← default_param options (new_object []);
  validateRequiredParameters [("symbol", symbol); ("timestamp", timestamp)];;
  symbol_uc ← toUpperCase symbol;
  params ← Object_assign options [("symbol", symbol_uc); ("timestamp", timestamp)];
  publicRequest this "GET" "/fapi/v1/allOrders" params.

(** [queryCurrentAllOpenOrders(timestamp, options = {})] *)
Definition queryCurrentAllOpenOrders (this : loc)
    (timestamp options : value) : M promise :=
  options ← default_param options (new_object []);
  validateRequiredParameters [("timestamp", timestamp)];;
  params ← Object_assign options [("timestamp", timestamp)];
  publicRequest this "GET" "/fapi/v1/openOrders" params.

(** [queryCurrentOpenOrder(symbol, timestamp, options = {})] *)
Definition queryCurrentOpenOrder (this : loc)
    (symbol timestamp options : value) : M promise :=
  options ← default_param options (new_object []);
  validateRequiredParameters [("symbol", symbol); ("timestamp", timestamp)];;
  symbol_uc ← toUpperCase symbol;
  params ← Object_assign options [("symbol", symbol_uc); ("timestamp", timestamp)];
  publicRequest this "GET" "/fapi/v1/openOrder" params.

(** [forceOrders(timestamp, options = {})] *)
Definition forceOrders (this : loc) (timestamp options : value) : M promise :=
  options ← default_param options (new_object []);
  symbol ← global "symbol";
  validateRequiredParameters [("symbol", symbol); ("timestamp", timestamp)];;
  params ← Object_assign options [("timestamp", timestamp)];
  publicRequest this "GET" "/fapi/v1/forceOrders" params.

(** [queryUserTrades(symbol, timestamp, options = {})] *)
Definition queryUserTrades (this : loc) (symbol timestamp options : value) : M promise :=
  options ← default_param options (new_object []);
  validateRequiredParameters [("symbol", symbol); ("timestamp", timestamp)];;
  symbol_uc ← toUpperCase symbol;
  params ← Object_assign options [("symbol", symbol_uc); ("timestamp", timestamp)];
  publicRequest this "GET" "/fapi/v1/userTrades" params.

(** [changeMarginType(symbol, marginType, timestamp, options = {})] *)
Definition changeMarginType (this : loc)
    (symbol marginType timestamp options : value) : M promise :=
  options ← default_param options (new_object []);
  validateRequiredParameters [("symbol", symbol); ("marginType", marginType);
      ("timestamp", timestamp)];;
  symbol_uc ← toUpperCase symbol;
  marginType_uc ← toUpperCase marginType;
  params ← Object_assign options [("symbol", symbol_uc); ("marginType", marginType_uc);
      ("timestamp", timestamp)];
  signRequest this "POST" "/fapi/v1/marginType" params.

(** [changePositionMode(dualSidePosition, timestamp, options = {})] *)
Definition changePositionMode (this : loc)
    (dualSidePosition timestamp options : value) : M promise :=
  options ← default_param options (new_object []);
  validateRequiredParameters [("dualSidePosition", dualSidePosition);
      ("timestamp", timestamp)];;
  params ← Object_assign options [("dualSidePosition", dualSidePosition);
      ("timestamp", timestamp)];
  signRequest this "POST" "/fapi/v1/positionSide/dual" params.

(** [changeLeverage(symbol, leverage, timestamp, options = {})] *)
Definition changeLeverage (this : loc)
    (symbol leverage timestamp options : value) : M promise :=
  options ← default_param options (new_object []);
  validateRequiredParameters [("symbol", symbol); ("leverage", leverage);
      ("timestamp", timestamp)];;
  symbol_uc ← toUpperCase symbol;
  params ← Object_assign options [("symbol", symbol_uc); ("leverage", leverage);
      ("timestamp", timestamp)];
  signRequest this "POST" "/fapi/v1/leverage" params.

(** [changeMultiAssetType(multiAssetsMargin, timestamp, options = {})] *)
Definition changeMultiAssetType (this : loc)
    (multiAssetsMargin timestamp options : value) : M promise :=
  options ← default_param options (new_object []);
  validateRequiredParameters [("multiAssetsMargin", multiAssetsMargin);
      ("timestamp", timestamp)];;
  params ← Object_assign options [("multiAssetsMargin", multiAssetsMargin);
      ("timestamp", timestamp)];
  signRequest this "POST" "/fapi/v1/multiAssetsMargin" params.

(** [modifyIsolatedMargin(symbol, amount, type, timestamp, options = {})] *)
Definition modifyIsolatedMargin (this : loc)
    (symbol amount type timestamp options : value) : M promise :=
  options ← default_param options (new_object []);
  validateRequiredParameters [("symbol", symbol); ("amount", amount); ("type", type);
      ("timestamp", timestamp)];;
  symbol_uc ← toUpperCase symbol;
  params ← Object_assign options [("symbol", symbol_uc); ("amount", amount);
      ("type", type); ("timestamp", timestamp)];
  signRequest this "POST" "/fapi/v1/positionMargin" params.

(** [positionInformationV2(timestamp, options = {})] *)
Definition positionInformationV2 (this : loc) (timestamp options : value) : M promise :=
  options ← default_param options (new_object []);
  validateRequiredParameters [("timestamp", timestamp)];;
  params ← Object_assign options [("timestamp", timestamp)];
  publicRequest this "GET" "/fapi/v2/positionRisk" params.

(** [positionInformationV3(timestamp, options = {})] *)
Definition positionInformationV3 (this : loc) (timestamp options : value) : M promise :=
  options ← default_param options (new_object []);
  validateRequiredParameters [("timestamp", timestamp)];;
  params ← Object_assign options [("timestamp", timestamp)];
  publicRequest this "GET" "/fapi/v3/positionRisk" params.

(** [adlQuantile(timestamp, options = {})] *)
Definition adlQuantile (this : loc) (timestamp options : value) : M promise :=
  options ← default_param options (new_object []);
  validateRequiredParameters [("timestamp", timestamp)];;
  params ← Object_assign options [("timestamp", timestamp)];
  publicRequest this "GET" "/fapi/v3/positionRisk" params.

(** [positionMarginHistory(symbol, timestamp, options = {})] *)
Definition positionMarginHistory (this : loc)
    (symbol timestamp options : value) : M promise :=
  options ← default_param options (new_object []);
  validateRequiredParameters [("symbol", symbol); ("timestamp", timestamp)];;
  symbol_uc ← toUpperCase symbol;
  params ← Object_assign options [("symbol", symbol_uc); ("timestamp", timestamp)];
  publicRequest this "GET" "/fapi/v1/positionMargin/history" params.

(** [newOrder(symbol, side, type, timestamp, options = {})] *)
Definition newOrder' (this : loc)
    (symbol side type timestamp options : value) : M promise :=
  options ← default_param options (new_object []);
  validateRequiredParameters [("symbol", symbol); ("side", side); ("type", type);
      ("timestamp", timestamp)];;
  symbol_uc ← toUpperCase symbol;
  side_uc ← toUpperCase side;
  type_uc ← toUpperCase type;
  params ← Object_assign options [("symbol", symbol_uc); ("side", side_uc);
      ("type", type_uc); ("timestamp", timestamp)];
  signRequest this "POST" "/fapi/v1/order/test" params.

Definition methods : list method :=
  [ Method "newOrder" ["symbol"; "side"; "type"; "timestamp"] true (call5 newOrder);
    Method "placeMultipleOrder" ["batchOrders"; "timestamp"] true (call3 placeMultipleOrder);
    Method "modifyOrder" ["symbol"; "side"; "number"; "price"; "timestamp"] true (call6 modifyOrder);
    Method "modifyMultipleOrder" ["batchOrders"; "timestamp"] true (call3 modifyMultipleOrder);
    Method "orderModifyHistory" ["symbol"; "timestamp"] true (call3 orderModifyHistory);
    Method "cancelOrder" ["symbol"; "timestamp"] true (call3 cancelOrder);
    Method "cancelMultipleOrders" ["symbol"; "timestamp"] true (call3 cancelMultipleOrders);
    Method "cancelAllOpenOrders" ["symbol"; "timestamp"] true (call3 cancelAllOpenOrders);
    Method "countDownCancelAll" ["symbol"; "timestamp"; "countdownTime"] true (call4 countDownCancelAll);
    Method "queryOrder" ["symbol"; "timestamp"] true (call3 queryOrder);
    Method "queryAllOrders" ["symbol"; "timestamp"] true (call3 queryAllOrders);
    Method "queryCurrentAllOpenOrders" ["timestamp"] true (call2 queryCurrentAllOpenOrders);
    Method "queryCurrentOpenOrder" ["symbol"; "timestamp"] true (call3 queryCurrentOpenOrder);
    Method "forceOrders" ["timestamp"] true (call2 forceOrders);
    Method "queryUserTrades" ["symbol"; "timestamp"] true (call3 queryUserTrades);
    Method "changeMarginType" ["symbol"; "marginType"; "timestamp"] true (call4 changeMarginType);
    Method "changePositionMode" ["dualSidePosition"; "timestamp"] true (call3 changePositionMode);
    Method "changeLeverage" ["symbol"; "leverage"; "timestamp"] true (call4 changeLeverage);
    Method "changeMultiAssetType" ["multiAssetsMargin"; "timestamp"] true (call3 changeMultiAssetType);
    Method "modifyIsolatedMargin" ["symbol"; "amount"; "type"; "timestamp"] true (call5 modifyIsolatedMargin);
    Method "positionInformationV2" ["timestamp"] true (call2 positionInformationV2);
    Method "positionInformationV3" ["timestamp"] true (call2 positionInformationV3);
    Method "adlQuantile" ["timestamp"] true (call2 adlQuantile);
    Method "positionMarginHistory" ["symbol"; "timestamp"] true (call3 positionMarginHistory);
    Method "newOrder" ["symbol"; "side"; "type"; "timestamp"] true (call5 newOrder') ].

(** [const Trade = (superclass) => class extends superclass { ... }] *)
Definition mixin (superclass : jsclass) : jsclass := methods :: superclass.

End Trade.

(** The [Trade] mixin of the second trade file (the one that ends in the
    work-in-progress note). *)
Module Trade2.

(** [newOrder(symbol, side, type, timestamp, options = {})] *)
Definition newOrder (this : loc)
    (symbol side type timestamp options : value) : M promise :=
  options ← default_param options (new_object []);
  validateRequiredParameters [("symbol", symbol); ("side", side); ("type", type);
      ("timestamp", timestamp)];;
  symbol_uc ← toUpperCase symbol;
  side_uc ← toUpperCase side;
  type_uc ← toUpperCase type;
  params ← Object_assign options [("symbol", symbol_uc); ("side", side_uc);
      ("type", type_uc); ("timestamp", timestamp)];
  signRequest this "POST" "/fapi/v1/order" params.

(** [placeMultipleOrder(batchOrders, timestamp, options = {})] *)
Definition placeMultipleOrder (this : loc)
    (batchOrders timestamp options : value) : M promise :=
  options ← default_param options (new_object []);
  len ← get_prop batchOrders "length";
  n ← loop_bound len;
  for_loop n 0 (fun i =>
    order ← get_index batchOrders i;
    symbol ← get_prop order "symbol";
    side ← get_prop order "side";
    type ← get_prop order "type";
    quantity ← get_prop order "quantity";
    validateRequiredParameters [("symbol", symbol); ("side", side); ("type", type);
        ("quantity", quantity)]);;
  validateRequiredParameters [("timestamp", timestamp)];;
  params ← Object_assign options [("batchOrders", batchOrders); ("timestamp", timestamp)];
  signRequest this "POST" "/fapi/v1/batchOrders" params.

(** [modifyOrder(symbol, side, number, price, timestamp, options = {})] *)
Definition modifyOrder (this : loc)
    (symbol side number price timestamp options : value) : M promise :=
  options ← default_param options (new_object []);
  validateRequiredParameters [("symbol", symbol); ("side", side); ("number", number);
      ("price", price); ("timestamp", timestamp)];;
  symbol_uc ← toUpperCase symbol;
  side_uc ← toUpperCase side;
  params ← Object_assign options [("symbol", symbol_uc); ("side", side_uc);
      ("number", number); ("price", price); ("timestamp", timestamp)];
  signRequest this "PUT" "/fapi/v1/order" params.

(** [modifyMultipleOrder(batchOrders, timestamp, options = {})] *)
Definition modifyMultipleOrder (this : loc)
    (batchOrders timestamp options : value) : M promise :=
  options ← default_param options (new_object []);
  len ← get_prop batchOrders "length";
  n ← loop_bound len;
  for_loop n 0 (fun i =>
    order ← get_index batchOrders i;
    symbol ← get_prop order "symbol";
    side ← get_prop order "side";
    quantity ← get_prop order "quantity";
    price ← get_prop order "price";
    timestamp ← get_prop order "timestamp";
    validateRequiredParameters [("symbol", symbol); ("side", side);
        ("quantity", quantity); ("price", price); ("timestamp", timestamp)]);;
  validateRequiredParameters [("timestamp", timestamp)];;
  params ← Object_assign options [("batchOrders", batchOrders); ("timestamp", timestamp)];
  signRequest this "PUT" "/fapi/v1/batchOrders" params.

(** [orderModifyHistory(symbol, timestamp, options = {})] *)
Definition orderModifyHistory (this : loc)
    (symbol timestamp options : value) : M promise :=
  options ← default_param options (new_object []);
  validateRequiredParameters [("symbol", symbol); ("timestamp", timestamp)];;
  symbol_uc ← toUpperCase symbol;
  params ← Object_assign options [("symbol", symbol_uc); ("timestamp", timestamp)];
  signRequest this "GET" "/fapi/v1/orderAmendment" params.

(** [cancelOrder(symbol, timestamp, options = {})] *)
Definition cancelOrder (this : loc) (symbol timestamp options : value) : M promise :=
  options ← default_param options (new_object []);
  validateRequiredParameters [("symbol", symbol); ("timestamp", timestamp)];;
  symbol_uc ← toUpperCase symbol;
  params ← Object_assign options [("symbol", symbol_uc); ("timestamp", timestamp)];
  signRequest this "DELETE" "/fapi/v1/order" params.

(** [cancelMultipleOrders(symbol, timestamp, options = {})] *)
Definition cancelMultipleOrders (this : loc)
    (symbol timestamp options : value) : M promise :=
  options ← default_param options (new_object []);
  validateRequiredParameters [("symbol", symbol); ("timestamp", timestamp)];;
  symbol_uc ← toUpperCase symbol;
  params ← Object_assign options [("symbol", symbol_uc); ("timestamp", timestamp)];
  signRequest this "DELETE" "/fapi/v1/batchOrders" params.

(** [cancelAllOpenOrders(symbol, timestamp, options = {})] *)
Definition cancelAllOpenOrders (this : loc)
    (symbol timestamp options : value) : M promise :=
  options ← default_param options (new_object []);
  validateRequiredParameters [("symbol", symbol); ("timestamp", timestamp)];;
  symbol_uc ← toUpperCase symbol;
  params ← Object_assign options [("symbol", symbol_uc); ("timestamp", timestamp)];
  signRequest this "DELETE" "/fapi/v1/allOpenOrders" params.

(** [countDownCancelAll(symbol, timestamp, countdownTime, options = {})] *)
Definition countDownCancelAll (this : loc)
    (symbol timestamp countdownTime options : value) : M promise :=
  options ← default_param options (new_object []);
  validateRequiredParameters [("symbol", symbol); ("timestamp", timestamp);
      ("countdownTime", countdownTime)];;
  symbol_uc ← toUpperCase symbol;
  params ← Object_assign options [("symbol", symbol_uc);
      ("countdownTime", countdownTime); ("timestamp", timestamp)];
  signRequest this "POST" "/fapi/v1/countdownCancelAll" params.

(** [queryOrder(symbol, timestamp, options = {})] *)
Definition queryOrder (this : loc) (symbol timestamp options : value) : M promise :=
  options ← default_param options (new_object []);
  validateRequiredParameters [("symbol", symbol); ("timestamp", timestamp)];;
  symbol_uc ← toUpperCase symbol;
  params ← Object_assign options [("symbol", symbol_uc); ("timestamp", timestamp)];
  signRequest this "GET" "/fapi/v1/order" params.

(** [queryAllOrders(symbol, timestamp, options = {})] *)
Definition queryAllOrders (this : loc) (symbol timestamp options : value) : M promise :=
  options ← default_param options (new_object []);
  validateRequiredParameters [("symbol", symbol); ("timestamp", timestamp)];;
  symbol_uc ← toUpperCase symbol;
  params ← Object_assign options [("symbol", symbol_uc); ("timestamp", timestamp)];
  signRequest this "GET" "/fapi/v1/allOrders" params.

(** [queryCurrentAllOpenOrders(timestamp, options = {})] *)
Definition queryCurrentAllOpenOrders (this : loc)
    (timestamp options : value) : M promise :=
  options ← default_param options (new_object []);
  validateRequiredParameters [("timestamp", timestamp)];;
  params ← Object_assign options [("timestamp", timestamp)];
  signRequest this "GET" "/fapi/v1/openOrders" params.

(** [queryCurrentOpenOrder(symbol, timestamp, options = {})] *)
Definition queryCurrentOpenOrder (this : loc)
    (symbol timestamp options : value) : M promise :=
  options ← default_param options (new_object []);
  validateRequiredParameters [("symbol", symbol); ("timestamp", timestamp)];;
  symbol_uc ← toUpperCase symbol;
  params ← Object_assign options [("symbol", symbol_uc); ("timestamp", timestamp)];
  signRequest this "GET" "/fapi/v1/openOrder" params.

(** [forceOrders(timestamp, options = {})] *)
Definition forceOrders (this : loc) (timestamp options : value) : M promise :=
  options ← default_param options (new_object []);
  symbol ← global "symbol";
  validateRequiredParameters [("symbol", symbol); ("timestamp", timestamp)];;
  params ← Object_assign options [("timestamp", timestamp)];
  signRequest this "GET" "/fapi/v1/forceOrders" params.

(** [queryUserTrades(symbol, timestamp, options = {})] *)
Definition queryUserTrades (this : loc) (symbol timestamp options : value) : M promise :=
  options ← default_param options (new_object []);
  validateRequiredParameters [("symbol", symbol); ("timestamp", timestamp)];;
  symbol_uc ← toUpperCase symbol;
  params ← Object_assign options [("symbol", symbol_uc); ("timestamp", timestamp)];
  signRequest this "GET" "/fapi/v1/userTrades" params.

(** [changeMarginType(symbol, marginType, timestamp, options = {})] *)
Definition changeMarginType (this : loc)
    (symbol marginType timestamp options : value) : M promise :=
  options ← default_param options (new_object []);
  validateRequiredParameters [("symbol", symbol); ("marginType", marginType);
      ("timestamp", timestamp)];;
  symbol_uc ← toUpperCase symbol;
  marginType_uc ← toUpperCase marginType;
  params ← Object_assign options [("symbol", symbol_uc); ("marginType", marginType_uc);
      ("timestamp", timestamp)];
  signRequest this "POST" "/fapi/v1/marginType" params.

(** [changePositionMode(dualSidePosition, timestamp, options = {})] *)
Definition changePositionMode (this : loc)
    (dualSidePosition timestamp options : value) : M promise :=
  options ← default_param options (new_object []);
  validateRequiredParameters [("dualSidePosition", dualSidePosition);
      ("timestamp", timestamp)];;
  params ← Object_assign options [("dualSidePosition", dualSidePosition);
      ("timestamp", timestamp)];
  signRequest this "POST" "/fapi/v1/positionSide/dual" params.

Definition methods : list method :=
  [ Method "newOrder" ["symbol"; "side"; "type"; "timestamp"] true (call5 newOrder);
    Method "placeMultipleOrder" ["batchOrders"; "timestamp"] true (call3 placeMultipleOrder);
    Method "modifyOrder" ["symbol"; "side"; "number"; "price"; "timestamp"] true (call6 modifyOrder);
    Method "modifyMultipleOrder" ["batchOrders"; "timestamp"] true (call3 modifyMultipleOrder);
    Method "orderModifyHistory" ["symbol"; "timestamp"] true (call3 orderModifyHistory);
    Method "cancelOrder" ["symbol"; "timestamp"] true (call3 cancelOrder);
    Method "cancelMultipleOrders" ["symbol"; "timestamp"] true (call3 cancelMultipleOrders);
    Method "cancelAllOpenOrders" ["symbol"; "timestamp"] true (call3 cancelAllOpenOrders);
    Method "countDownCancelAll" ["symbol"; "timestamp"; "countdownTime"] true (call4 countDownCancelAll);
    Method "queryOrder" ["symbol"; "timestamp"] true (call3 queryOrder);
    Method "queryAllOrders" ["symbol"; "timestamp"] true (call3 queryAllOrders);
    Method "queryCurrentAllOpenOrders" ["timestamp"] true (call2 queryCurrentAllOpenOrders);
    Method "queryCurrentOpenOrder" ["symbol"; "timestamp"] true (call3 queryCurrentOpenOrder);
    Method "forceOrders" ["timestamp"] true (call2 forceOrders);
    Method "queryUserTrades" ["symbol"; "timestamp"] true (call3 queryUserTrades);
    Method "changeMarginType" ["symbol"; "marginType"; "timestamp"] true (call4 changeMarginType);
    Method "changePositionMode" ["dualSidePosition"; "timestamp"] true (call3 changePositionMode) ].

(** [const Trade = (superclass) => class extends superclass { ... }] *)
Definition mixin (superclass : jsclass) : jsclass := methods :: superclass.

End Trade2.

(** The [Market] mixin. *)
Module Market.

(** [ping()] *)
Definition ping (this : loc) : M promise :=
  publicRequest this "GET" "/fapi/v1/ping" VUndef.

(** [time()] *)
Definition time (this : loc) : M promise :=
  publicRequest this "GET" "/fapi/v1/time" VUndef.

(** [exchangeInfo(options = {})] *)
Definition exchangeInfo (this : loc) (options : value) : M promise :=
  options ← default_param options (new_object []);
  has_symbol ← hasOwnProperty options "symbol";
  when has_symbol (
    symbol ← get_prop options "symbol";
    symbol ← toUpperCase symbol;
    set_prop options "symbol" symbol);;
  has_symbols ← hasOwnProperty options "symbols";
  when has_symbols (
    symbols ← get_prop options "symbols";
    symbols ← array_map (fun symbol => toUpperCase symbol) symbols;
    set_prop options "symbols" symbols);;
  publicRequest this "GET" "/fapi/v1/exchangeInfo" options.

(** [depth(symbol, options = {})] *)
Definition depth (this : loc) (symbol options : value) : M promise :=
  options ← default_param options (new_object []);
  validateRequiredParameters [("symbol", symbol)];;
  symbol_uc ← toUpperCase symbol;
  params ← Object_assign options [("symbol", symbol_uc)];
  publicRequest this "GET" "/fapi/v1/depth" params.

(** [trades(symbol, options = {})] *)
Definition trades (this : loc) (symbol options : value) : M promise :=
  options ← default_param options (new_object []);
  validateRequiredParameters [("symbol", symbol)];;
  symbol_uc ← toUpperCase symbol;
  params ← Object_assign options [("symbol", symbol_uc)];
  publicRequest this "GET" "/fapi/v1/trades" params.

(** [historicalTrades(symbol, options = {})] *)
Definition historicalTrades (this : loc) (symbol options : value) : M promise :=
  options ← default_param options (new_object []);
  validateRequiredParameters [("symbol", symbol)];;
  symbol_uc ← toUpperCase symbol;
  params ← Object_assign options [("symbol", symbol_uc)];
  publicRequest this "GET" "/fapi/v1/historicalTrades" params.

(** [aggTrades(symbol, options = {})] *)
Definition aggTrades (this : loc) (symbol options : value) : M promise :=
  options ← default_param options (new_object []);
  validateRequiredParameters [("symbol", symbol)];;
  symbol_uc ← toUpperCase symbol;
  params ← Object_assign options [("symbol", symbol_uc)];
  publicRequest this "GET" "/fapi/v1/aggTrades" params.

(** [klines(symbol, interval, options = {})] *)
Definition klines (this : loc) (symbol interval options : value) : M promise :=
  options ← default_param options (new_object []);
  validateRequiredParameters [("symbol", symbol); ("interval", interval)];;
  symbol_uc ← toUpperCase symbol;
  params ← Object_assign options [("symbol", symbol_uc); ("interval", interval)];
  publicRequest this "GET" "/fapi/v1/klines" params.

(** [continousklines(pair, contractType, interval, options = {})] *)
Definition continousklines (this : loc)
    (pair contractType interval options : value) : M promise :=
  options ← default_param options (new_object []);
  validateRequiredParameters [("pair", pair); ("contractType", contractType);
      ("interval", interval)];;
  pair_uc ← toUpperCase pair;
  params ← Object_assign options [("pair", pair_uc); ("contractType", contractType);
      ("interval", interval)];
  publicRequest this "GET" "/fapi/v1/continuousKlines" params.

(** [indexklines(pair, interval, options = {})] *)
Definition indexklines (this : loc) (pair interval options : value) : M promise :=
  options ← default_param options (new_object []);
  validateRequiredParameters [("pair", pair); ("interval", interval)];;
  pair_uc ← toUpperCase pair;
  params ← Object_assign options [("pair", pair_uc); ("interval", interval)];
  publicRequest this "GET" "/fapi/v1/indexPriceKlines" params.

(** [markklines(symbol, interval, options = {})] *)
Definition markklines (this : loc) (symbol interval options : value) : M promise :=
  options ← default_param options (new_object []);
  validateRequiredParameters [("symbol", symbol); ("interval", interval)];;
  symbol_uc ← toUpperCase symbol;
  params ← Object_assign options [("symbol", symbol_uc); ("interval", interval)];
  publicRequest this "GET" "/fapi/v1/markPriceKlines" params.

(** [markklines(symbol, interval, options = {})] *)
Definition markklines' (this : loc) (symbol interval options : value) : M promise :=
  options ← default_param options (new_object []);
  validateRequiredParameters [("symbol", symbol); ("interval", interval)];;
  symbol_uc ← toUpperCase symbol;
  params ← Object_assign options [("symbol", symbol_uc); ("interval", interval)];
  publicRequest this "GET" "/fapi/v1/markPriceKlines" params.

(** [premiumindexklines(symbol, interval, options = {})] *)
Definition premiumindexklines (this : loc)
    (symbol interval options : value) : M promise :=
  options ← default_param options (new_object []);
  validateRequiredParameters [("symbol", symbol); ("interval", interval)];;
  symbol_uc ← toUpperCase symbol;
  params ← Object_assign options [("symbol", symbol_uc); ("interval", interval)];
  publicRequest this "GET" "/fapi/v1/premiumIndexKlines" params.

(** [premiumindex(symbol)] *)
Definition premiumindex (this : loc) (symbol : value) : M promise :=
  symbol_uc ← toUpperCase symbol;
  params ← new_object [("symbol", symbol_uc)];
  publicRequest this "GET" "/fapi/v1/premiumIndex" params.

(** [fundingRateHistory(symbol, options = {})] *)
Definition fundingRateHistory (this : loc) (symbol options : value) : M promise :=
  options ← default_param options (new_object []);
  symbol_uc ← toUpperCase symbol;
  params ← Object_assign options [("symbol", symbol_uc)];
  publicRequest this "GET" "/fapi/v1/fundingRate" params.

(** [fundingInfo()] *)
Definition fundingInfo (this : loc) : M promise :=
  params ← new_object [];
  publicRequest this "GET" "/fapi/v1/fundingInfo" params.

(** [priceChange24H(symbol)] *)
Definition priceChange24H (this : loc) (symbol : value) : M promise :=
  symbol_uc ← toUpperCase symbol;
  params ← new_object [("symbol", symbol_uc)];
  publicRequest this "GET" "/fapi/v1/ticker/24hr" params.

(** [symbolPriceTicker(symbol)] *)
Definition symbolPriceTicker (this : loc) (symbol : value) : M promise :=
  symbol_uc ← toUpperCase symbol;
  params ← new_object [("symbol", symbol_uc)];
  publicRequest this "GET" "/fapi/v1/ticker/price" params.

(** [symbolPriceTickerV2(symbol)] *)
Definition symbolPriceTickerV2 (this : loc) (symbol : value) : M promise :=
  symbol_uc ← toUpperCase symbol;
  params ← new_object [("symbol", symbol_uc)];
  publicRequest this "GET" "/fapi/v2/ticker/price" params.

(** [bookTicker(symbol)] *)
Definition bookTicker (this : loc) (symbol : value) : M promise :=
  symbol_uc ← toUpperCase symbol;
  params ← new_object [("symbol", symbol_uc)];
  publicRequest this "GET" "/fapi/v1/ticker/bookTicker" params.

(** [openInterest(symbol)] *)
Definition openInterest (this : loc) (symbol : value) : M promise :=
  validateRequiredParameters [("symbol", symbol)];;
  symbol_uc ← toUpperCase symbol;
  params ← new_object [("symbol", symbol_uc)];
  publicRequest this "GET" "/fapi/v1/openInterest" params.

(** [deliveryPrice(pair)] *)
Definition deliveryPrice (this : loc) (pair : value) : M promise :=
  validateRequiredParameters [("pair", pair)];;
  pair_uc ← toUpperCase pair;
  params ← new_object [("pair", pair_uc)];
  publicRequest this "GET" "/futures/data/delivery-price" params.

(** [openInterestHist(symbol, period, options = {})] *)
Definition openInterestHist (this : loc) (symbol period options : value) : M promise :=
  options ← default_param options (new_object []);
  validateRequiredParameters [("symbol", symbol); ("period", period)];;
  symbol_uc ← toUpperCase symbol;
  params ← Object_assign options [("symbol", symbol_uc); ("period", period)];
  publicRequest this "GET" "/futures/data/openInterestHist" params.

(** [topLongShortAccountRatio(symbol, period, options = {})] *)
Definition topLongShortAccountRatio (this : loc)
    (symbol period options : value) : M promise :=
  options ← default_param options (new_object []);
  validateRequiredParameters [("symbol", symbol); ("period", period)];;
  symbol_uc ← toUpperCase symbol;
  params ← Object_assign options [("symbol", symbol_uc); ("period", period)];
  publicRequest this "GET" "/futures/data/topLongShortAccountRatio" params.

(** [topLongShortPositionRatio(symbol, period, options = {})] *)
Definition topLongShortPositionRatio (this : loc)
    (symbol period options : value) : M promise :=
  options ← default_param options (new_object []);
  validateRequiredParameters [("symbol", symbol); ("period", period)];;
  symbol_uc ← toUpperCase symbol;
  params ← Object_assign options [("symbol", symbol_uc); ("period", period)];
  publicRequest this "GET" "/futures/data/topLongShortPositionRatio" params.

(** [globalLongShortAccountRatio(symbol, period, options = {})] *)
Definition globalLongShortAccountRatio (this : loc)
    (symbol period options : value) : M promise :=
  options ← default_param options (new_object []);
  validateRequiredParameters [("symbol", symbol); ("period", period)];;
  symbol_uc ← toUpperCase symbol;
  params ← Object_assign options [("symbol", symbol_uc); ("period", period)];
  publicRequest this "GET" "/futures/data/globalLongShortAccountRatio" params.

(** [takerlongshortRatio(symbol, period, options = {})] *)
Definition takerlongshortRatio (this : loc) (symbol period options : value) : M promise :=
  options ← default_param options (new_object []);
  validateRequiredParameters [("symbol", symbol); ("period", period)];;
  symbol_uc ← toUpperCase symbol;
  params ← Object_assign options [("symbol", symbol_uc); ("period", period)];
  publicRequest this "GET" "/futures/data/takerlongshortRatio" params.

(** [basis(pair, contractType, period, limit, options = {})] *)
Definition basis (this : loc)
    (pair contractType period limit options : value) : M promise :=
  options ← default_param options (new_object []);
  validateRequiredParameters [("pair", pair); ("contractType", contractType);
      ("period", period); ("limit", limit)];;
  pair_uc ← toUpperCase pair;
  params ← Object_assign options [("pair", pair_uc); ("contractType", contractType);
      ("period", period); ("limit", limit)];
  publicRequest this "GET" "/futures/data/basis" params.

(** [lvtKlines(symbol, interval, options = {})] *)
Definition lvtKlines (this : loc) (symbol interval options : value) : M promise :=
  options ← default_param options (new_object []);
  validateRequiredParameters [("symbol", symbol); ("interval", interval)];;
  symbol_uc ← toUpperCase symbol;
  params ← Object_assign options [("symbol", symbol_uc); ("interval", interval)];
  publicRequest this "GET" "/fapi/v1/lvtKlines" params.

(** [indexInfo(symbol)] *)
Definition indexInfo (this : loc) (symbol : value) : M promise :=
  symbol_uc ← toUpperCase symbol;
  params ← new_object [("symbol", symbol_uc)];
  publicRequest this "GET" "/fapi/v1/indexInfo" params.

(** [assetIndex(symbol)] *)
Definition assetIndex (this : loc) (symbol : value) : M promise :=
  symbol_uc ← toUpperCase symbol;
  params ← new_object [("symbol", symbol_uc)];
  publicRequest this "GET" "/fapi/v1/assetIndex" params.

(** [constituents(symbol)] *)
Definition constituents (this : loc) (symbol : value) : M promise :=
  validateRequiredParameters [("symbol", symbol)];;
  symbol_uc ← toUpperCase symbol;
  params ← new_object [("symbol", symbol_uc)];
  publicRequest this "GET" "/fapi/v1/constituents" params.

Definition methods : list method :=
  [ Method "ping" [] false (call0 ping);
    Method "time" [] false (call0 time);
    Method "exchangeInfo" [] true (call1 exchangeInfo);
    Method "depth" ["symbol"] true (call2 depth);
    Method "trades" ["symbol"] true (call2 trades);
    Method "historicalTrades" ["symbol"] true (call2 historicalTrades);
    Method "aggTrades" ["symbol"] true (call2 aggTrades);
    Method "klines" ["symbol"; "interval"] true (call3 klines);
    Method "continousklines" ["pair"; "contractType"; "interval"] true (call4 continousklines);
    Method "indexklines" ["pair"; "interval"] true (call3 indexklines);
    Method "markklines" ["symbol"; "interval"] true (call3 markklines);
    Method "markklines" ["symbol"; "interval"] true (call3 markklines');
    Method "premiumindexklines" ["symbol"; "interval"] true (call3 premiumindexklines);
    Method "premiumindex" ["symbol"] false (call1 premiumindex);
    Method "fundingRateHistory" ["symbol"] true (call2 fundingRateHistory);
    Method "fundingInfo" [] false (call0 fundingInfo);
    Method "priceChange24H" ["symbol"] false (call1 priceChange24H);
    Method "symbolPriceTicker" ["symbol"] false (call1 symbolPriceTicker);
    Method "symbolPriceTickerV2" ["symbol"] false (call1 symbolPriceTickerV2);
    Method "bookTicker" ["symbol"] false (call1 bookTicker);
    Method "openInterest" ["symbol"] false (call1 openInterest);
    Method "deliveryPrice" ["pair"] false (call1 deliveryPrice);
    Method "openInterestHist" ["symbol"; "period"] true (call3 openInterestHist);
    Method "topLongShortAccountRatio" ["symbol"; "period"] true (call3 topLongShortAccountRatio);
    Method "topLongShortPositionRatio" ["symbol"; "period"] true (call3 topLongShortPositionRatio);
    Method "globalLongShortAccountRatio" ["symbol"; "period"] true (call3 globalLongShortAccountRatio);
    Method "takerlongshortRatio" ["symbol"; "period"] true (call3 takerlongshortRatio);
    Method "basis" ["pair"; "contractType"; "period"; "limit"] true (call5 basis);
    Method "lvtKlines" ["symbol"; "interval"] true (call3 lvtKlines);
    Method "indexInfo" ["symbol"] false (call1 indexInfo);
    Method "assetIndex" ["symbol"] false (call1 assetIndex);
    Method "constituents" ["symbol"] false (call1 constituents) ].

(** [const Market = (superclass) => class extends superclass { ... }] *)
Definition mixin (superclass : jsclass) : jsclass := methods :: superclass.

End Market.

(** ** The client class: src/futures.js *)

(** Modelled from the spec: [APIBase] is not under src/.  The base class
    defines no endpoint operation. *)
Definition APIBase : jsclass := [].

(** Modelled from the spec: [helpers/utils] is not under src/.  The call
    site in src/futures.js gives the shape, [flowRight(...mixins)(APIBase)];
    the spec calls this mixin-style class composition and says no more of
    it.  The model applies every mixin of the list once to the class built
    so far.  Two things are the model's choice and come from neither text:
    the last mixin of the list is applied first, and nothing compares the
    names the mixins define.  No statement rests on either: what is proved
    of [Futures] is proved for every list of the repository's mixins, in
    every order, and the statements about the definitions of a name are
    made of class bodies and chains, without [flowRight]. *)
Definition flowRight (functions : list (jsclass -> jsclass)) (input : jsclass)
  : jsclass :=
  fold_right (fun fn input => fn input) input functions.

(** [class Futures extends flowRight(...Object.values(restfulModules))(APIBase)];
    the registry [modules/restful] is not under src/ and is a parameter. *)
Definition Futures (restfulModules : list (jsclass -> jsclass)) : jsclass :=
  flowRight restfulModules APIBase.

(** Within one class body a later definition of a name replaces an earlier
    one. *)
Definition own_method (body : list method) (name : string) : option method :=
  find (fun m => String.eqb (m_name m) name) (rev body).

(** Method lookup walks the chain from the most derived class. *)
Fixpoint resolve (c : jsclass) (name : string) : option method :=
  match c with
  | [] => None
  | body :: superclass =>
      match own_method body name with
      | Some m => Some m
      | None => resolve superclass name
      end
  end.

(** [client.name(...args)] *)
Definition invoke (c : jsclass) (name : string) (this : loc) (args : list value)
  : M promise :=
  match resolve c name with
  | Some m => m_run m this args
  | None => throw TypeError
  end.

(** The definitions of a name along the whole chain. *)
Definition definitions (c : jsclass) (name : string) : list method :=
  filter (fun m => m_name m = name) (concat c).

(** The names a class body defines. *)
Definition names (body : list method) : list string := map m_name body.

(** Own enumerable properties of a value, as [{...v}] copies them. *)
Definition spread (v : value) : M props :=
  match v with
  | VRef r => c ← read_cell r; mret (own_props c)
  | VStr s => mret (index_props (chars s))
  | _ => mret []
  end.

(** The configuration names the client keeps. *)
Definition config_names : list string :=
  ["apiKey"; "apiSecret"; "baseURL"; "timeout"].

(** Modelled from the spec: [APIBase] is not under src/.  Its constructor
    stores the credentials, the base URL and the timeout of the configuration
    object on the new instance. *)
Definition APIBase_constructor (options : value) : M loc :=
  apiKey ← get_prop options "apiKey";
  apiSecret ← get_prop options "apiSecret";
  baseURL ← get_prop options "baseURL";
  timeout ← get_prop options "timeout";
  alloc (Cell None [("apiKey", apiKey); ("apiSecret", apiSecret);
                    ("baseURL", baseURL); ("timeout", timeout)]).

(** [constructor(apiKey = "", apiSecret = "", options = {})] *)
Definition Futures_constructor (apiKey apiSecret options : value) : M loc :=
  apiKey ← default_param apiKey (mret (VStr ""));
  apiSecret ← default_param apiSecret (mret (VStr ""));
  options ← default_param options (new_object []);
  baseURL ← get_prop options "baseURL";
  set_prop options "baseURL" (or_else baseURL (VStr "https://fapi.binance.com"));;
  own ← spread options;
  config ← new_object ([("apiKey", apiKey); ("apiSecret", apiSecret)] ++ own)%list;
  APIBase_constructor config.

(** ** The request signer *)

(** Modelled from the spec: the signer ([APIBase] and [helpers/utils]) is not
    under src/.  The canonical query string serialises the parameters as
    [name=value] joined by [&], in insertion order. *)
Fixpoint canonical (params : list (string * string)) : string :=
  match params with
  | [] => ""
  | (k, v) :: rest =>
      match rest with
      | [] => k ++ "=" ++ v
      | _ => k ++ "=" ++ v ++ "&" ++ canonical rest
      end
  end.



Fixpoint no_char (x : ascii) (s : string) : bool :=
  match s with
  | EmptyString => true
  | String a s' => negb (Ascii.eqb a x) && no_char x s'
  end.

(** A parameter as it goes on the wire: its name holds neither separator and
    its value no [&]. *)
Definition wire_safe (kv : string * string) : bool :=
  no_char "&" kv.1 && no_char "=" kv.1 && no_char "&" kv.2.

(** ** Notions used by the statements *)

(** *** The operations and the mixins *)

(** Every operation of the four mixins. *)
Definition all_methods : list method :=
  (Account.methods ++ Trade.methods ++ Trade2.methods ++ Market.methods)%list.

(** The bodies of the mixins of the repository. *)
Definition bodies : list (list method) :=
  [Account.methods; Trade.methods; Trade2.methods; Market.methods].

(** The mixins of the repository. *)
Definition mixins : list (jsclass -> jsclass) :=
  [Account.mixin; Trade.mixin; Trade2.mixin; Market.mixin].

(** The registry as the README presents the client: account, trade and
    market operations. *)
Definition registry : list (jsclass -> jsclass) :=
  [Account.mixin; Trade.mixin; Market.mixin].


(** The fields validated on every batch element. *)
Definition batch_fields : list string := ["symbol"; "side"; "type"; "quantity"].

(** The property names the method bodies write into an object. *)
Definition written : list string :=
  ["symbol"; "side"; "type"; "timestamp"; "batchOrders"; "number"; "price";
   "countdownTime"; "marginType"; "dualSidePosition"; "leverage";
   "multiAssetsMargin"; "amount"; "startTime"; "endTime"; "symbols";
   "interval"; "pair"; "contractType"; "period"; "limit"].

(** The operations that take parameters in their signature and do not
    validate them: the Market operations without a validation call,
    [forceOrders], which validates a free identifier first, and the batch
    operations, which read [batchOrders] before any validation. *)
Definition unvalidated : list string :=
  ["premiumindex"; "fundingRateHistory"; "priceChange24H"; "symbolPriceTicker";
   "symbolPriceTickerV2"; "bookTicker"; "indexInfo"; "assetIndex"; "forceOrders";
   "placeMultipleOrder"; "modifyMultipleOrder"].

(** Membership of a name in a list of names. *)
Definition mem (k : string) (K : list string) : bool :=
  existsb (String.eqb k) K.

(** *** Predicates on computations *)

(** A computation that reads the world and leaves it as it is. *)
Definition stateless {A} (m : M A) : Prop :=
  forall w r w', m w = (r, w') -> w' = w.

(** A computation that dispatches nothing. *)
Definition quiet {A} (m : M A) : Prop :=
  forall w r w', m w = (r, w') -> net w' = net w.

(** [frame K w w']: from [w] to [w'] every object of the heap is still there,
    with the same elements and the same properties outside [K], and the
    global scope is the same. *)
Definition frame (K : list string) (w w' : world) : Prop :=
  globals w' = globals w /\
  forall r c, heap w !! r = Some c ->
    exists c', heap w' !! r = Some c' /\ c_elems c' = c_elems c /\
      forall k, mem k K = false -> assoc k (c_props c') = assoc k (c_props c).

(** A computation that stays in the frame [K]. *)
Definition framed {A} (K : list string) (m : M A) : Prop :=
  forall w r w', m w = (r, w') -> frame K w w'.

(** A call that returns has dispatched exactly one request, on the path
    [signed]. *)
Definition dispatches (signed : bool) (m : method) : Prop :=
  forall this args w p w',
    m_run m this args w = (Ok p, w') ->
    exists q, net w' = (net w ++ [q])%list /\ r_signed q = signed.

(** A call that returns has dispatched exactly one request, unsigned when
    its verb is [GET] and signed otherwise. *)
Definition dispatches_by_verb (m : method) : Prop :=
  forall this args w p w',
    m_run m this args w = (Ok p, w') ->
    exists q, net w' = (net w ++ [q])%list /\
              r_signed q = negb (String.eqb (r_method q) "GET").

(** *** The client and its configuration *)

(** The configuration of the client object [this]. *)
Definition config (this : loc) (w : world) : list (option value) :=
  match heap w !! this with
  | Some c => map (get_named c) config_names
  | None => []
  end.

(** A lifetime of the client: operations called by name one after the other,
    each on the world the previous one left, whether it returned or threw. *)
Fixpoint run_calls (c : jsclass) (this : loc)
    (calls : list (string * list value)) (w : world) : world :=
  match calls with
  | [] => w
  | (name, args) :: calls' => run_calls c this calls' (invoke c name this args w).2
  end.

(** The value of a parameter with a constant default. *)
Definition or_default (v d : value) : value :=
  match v with
  | VUndef => d
  | _ => v
  end.

(** An object holds a property name once. *)
Definition wf_cell (c : cell) : Prop := NoDup (keys (c_props c)).

(** The base URL the constructor keeps for an options object: its own
    [baseURL] when truthy, the exchange's endpoint otherwise. *)
Definition base_url_of (c : cell) : value :=
  or_else (default VUndef (get_named c "baseURL")) (VStr "https://fapi.binance.com").

(** *** Batch elements *)

(** The property [k] of a batch element, as destructuring reads it. *)
Definition peek (w : world) (e : value) (k : string) : value :=
  match e with
  | VRef r =>
      match heap w !! r with
      | Some c => default VUndef (get_named c k)
      | None => VUndef
      end
  | _ => VUndef
  end.

(** The batch element lacks one of the four validated fields. *)
Definition lacks (w : world) (e : value) : bool :=
  existsb (fun k => is_missing (peek w e k)) ["symbol"; "side"; "type"; "quantity"].

(** A batch element is an object of the heap. *)
Definition is_object (w : world) (e : value) : Prop :=
  match e with
  | VRef r => is_Some (heap w !! r)
  | _ => False
  end.

(** A value that a destructuring pattern accepts: anything but [undefined]
    and [null]; an object is one the heap holds. *)
Definition destructurable (w : world) (e : value) : Prop :=
  match e with
  | VUndef | VNull => False
  | VRef r => is_Some (heap w !! r)
  | VBool _ | VNum _ | VStr _ => True
  end.

(** A batch element that passes the validation of [placeMultipleOrder]. *)
Definition complete (w : world) (e : value) : Prop :=
  destructurable w e /\ lacks w e = false.

(** *** The canonical string *)

(** The canonical string of a list is that of its first parameter, followed
    by what the rest contributes. *)
Definition rest_of (rest : list (string * string)) : string :=
  match rest with
  | [] => ""
  | _ => "&" ++ canonical rest
  end.

(** *** The worlds of the examples *)

(** The world of a fresh process, and the client it builds with a key and a
    secret: the client object is at location 2. *)
Definition empty_world : world := World [] [] [].

Definition client_world : world :=
  (Futures_constructor (VStr "key") (VStr "secret") VUndef empty_world).2.

Definition client : loc := 2%nat.

(** The client world with the options object of the README's order,
    [{price: "350", quantity: 1, timeInForce: "GTC"}], at location 3. *)
Definition order_world : world :=
  with_heap
    (heap client_world ++
     [Cell None [("price", VStr "350"); ("quantity", VNum 1);
                 ("timeInForce", VStr "GTC")]])%list
    client_world.

(** The client world with one batch order [{symbol: "btcusdt", side: "BUY",
    type: "MARKET", quantity: 1}] at location 3 and the array holding it at
    location 4. *)
Definition batch_world : world :=
  with_heap
    (heap client_world ++
     [Cell None [("symbol", VStr "btcusdt"); ("side", VStr "BUY");
                 ("type", VStr "MARKET"); ("quantity", VNum 1)];
      Cell (Some [VRef 3%nat]) []])%list
    client_world.

(** The client world with a closing stop order, which the exchange accepts
    without a quantity, at location 3 and the array holding it at
    location 4. *)
Definition stop_world : world :=
  with_heap
    (heap client_world ++
     [Cell None [("symbol", VStr "BTCUSDT"); ("side", VStr "SELL");
                 ("type", VStr "STOP_MARKET"); ("stopPrice", VStr "30000");
                 ("closePosition", VStr "true")];
      Cell (Some [VRef 3%nat]) []])%list
    client_world.

(** *** Notions of the further properties *)

(** A call that returns has dispatched exactly one request and returns its
    promise; a call that throws has dispatched none. *)
Definition one_request (m : M promise) : Prop :=
  forall w r w', m w = (r, w') ->
    match r with
    | Ok p => p = length (net w) /\ exists q, net w' = (net w ++ [q])%list
    | Throw _ => net w' = net w
    end.

(** A value that has no [map] method: anything but an array of the heap.  A
    reference the heap does not hold cannot be built by a caller. *)
Definition not_array (w : world) (v : value) : Prop :=
  match v with
  | VRef a => exists c, heap w !! a = Some c /\ c_elems c = None
  | _ => True
  end.

(** The fields [modifyMultipleOrder] validates on every batch element. *)
Definition modify_fields : list string :=
  ["symbol"; "side"; "quantity"; "price"; "timestamp"].

(** The batch element lacks one of the fields of the list. *)
Definition lacks_any (fields : list string) (w : world) (e : value) : bool :=
  existsb (fun k => is_missing (peek w e k)) fields.

(** A step that writes no object among the first [n] cells of the heap, does
    not shrink the heap and dispatches nothing. *)
Definition local_step {A} (n : nat) (m : M A) : Prop :=
  forall w r w', (n <= length (heap w))%nat -> m w = (r, w') ->
    take n (heap w') = take n (heap w) /\
    (length (heap w) <= length (heap w'))%nat /\
    net w' = net w.

(** The parameters of a request are none or an object allocated after the
    heap held [n] cells. *)
Definition fresh_params (n : nat) (q : request) : Prop :=
  r_params q = VUndef \/ exists l, r_params q = VRef l /\ (n <= l)%nat.

(** A call that writes no object among the first [n] cells of the heap and,
    when it returns, has dispatched one request with fresh parameters. *)
Definition isolated (n : nat) (m : M promise) : Prop :=
  forall w r w', (n <= length (heap w))%nat -> m w = (r, w') ->
    take n (heap w') = take n (heap w) /\
    forall p, r = Ok p ->
      exists q, net w' = (net w ++ [q])%list /\ fresh_params n q.

(** The parameter names that some operation upper-cases. *)
Definition cased : list string := ["symbol"; "pair"; "side"; "type"; "marginType"].

(** The verbs of the Request Descriptor. *)
Definition verbs : list string := ["GET"; "POST"; "PUT"; "DELETE"].

(** The operation has a route: every request it dispatches has the same verb
    and the same path, whatever the receiver, the arguments and the world. *)
Definition routed (m : method) : Prop :=
  exists verb path,
    verb ∈ verbs /\
    forall this args w p w',
      m_run m this args w = (Ok p, w') ->
      exists q, net w' = (net w ++ [q])%list /\
                r_method q = verb /\ r_path q = path.

(** The errors a call throws before it reaches the dispatcher: a missing
    parameter, a value of the wrong type, an unbound identifier. *)
Definition preflight_error (e : error) : bool :=
  match e with
  | MissingParameterError _ | TypeError | ReferenceError _ => true
  | SigningError | Unsupported => false
  end.

(** A step that writes no object of the heap: the heap only grows. *)
Definition grows {A} (m : M A) : Prop :=
  forall w r w', m w = (r, w') -> exists fresh, heap w' = (heap w ++ fresh)%list.

(** A call that, when it throws a preflight error, has written no object of
    the heap. *)
Definition clean_reject (m : M promise) : Prop :=
  forall w e w', m w = (Throw e, w') -> preflight_error e = true ->
    exists fresh, heap w' = (heap w ++ fresh)%list.

(** * Properties of the embedding *)

(** ** The monad *)

Lemma bind_run {A B} (m : M A) (f : A -> M B) w :
  (m ≫= f) w = match m w with
               | (Ok a, w1) => f a w1
               | (Throw e, w1) => (Throw e, w1)
               end.
Proof. reflexivity. Qed.

Lemma bind_Ok_inv {A B} (m : M A) (f : A -> M B) w b w' :
  (m ≫= f) w = (Ok b, w') ->
  exists a w1, m w = (Ok a, w1) /\ f a w1 = (Ok b, w').
Proof.
  rewrite bind_run. destruct (m w) as [[a|e] w1]; [eauto | discriminate].
Qed.

Lemma ret_run {A} (a : A) w : (mret a : M A) w = (Ok a, w).
Proof. reflexivity. Qed.

(** ** Property lists *)

Lemma eqb_mem_false k k' K :
  mem k K = false -> mem k' K = true -> String.eqb k k' = false.
Proof.
  intros Hk Hk'. destruct (String.eqb_spec k k') as [->|]; [|done].
  congruence.
Qed.

Lemma assoc_set_assoc_eq k v l : assoc k (set_assoc k v l) = Some v.
Proof.
  induction l as [|[k' v'] l IH]; simpl.
  - by rewrite String.eqb_refl.
  - destruct (String.eqb k k') eqn:E; simpl; rewrite E; [done | apply IH].
Qed.

Lemma assoc_set_assoc_ne k k' v l :
  String.eqb k k' = false -> assoc k (set_assoc k' v l) = assoc k l.
Proof.
  intros Hne. induction l as [|[k'' v''] l IH]; simpl.
  - by rewrite Hne.
  - destruct (String.eqb k' k'') eqn:E; simpl.
    + apply String.eqb_eq in E as ->. by rewrite Hne.
    + by rewrite IH.
Qed.

Lemma set_all_elems fields c : c_elems (set_all fields c) = c_elems c.
Proof.
  unfold set_all. revert c. induction fields as [|[k v] fs IH]; intros c; simpl; [done|].
  by rewrite IH.
Qed.

Lemma assoc_app k (l1 l2 : props) :
  assoc k (l1 ++ l2)%list = match assoc k l1 with
                            | Some v => Some v
                            | None => assoc k l2
                            end.
Proof.
  induction l1 as [|[k' v'] l1 IH]; simpl; [done|].
  by destruct (String.eqb k k').
Qed.

(** After [Object.assign], a property holds the value of its last occurrence
    among the assigned fields, and its old value when it is not assigned. *)
Lemma assoc_set_all k fields c :
  assoc k (c_props (set_all fields c)) =
  match assoc k (rev fields) with
  | Some v => Some v
  | None => assoc k (c_props c)
  end.
Proof.
  unfold set_all. revert c.
  induction fields as [|[k' v'] fs IH]; intros c; simpl; [done|].
  rewrite IH, assoc_app. destruct (assoc k (rev fs)); [done|]. simpl.
  destruct (String.eqb k k') eqn:E.
  - apply String.eqb_eq in E as ->. apply assoc_set_assoc_eq.
  - by apply assoc_set_assoc_ne.
Qed.

Lemma get_named_assoc c k :
  String.eqb k "length" = false -> get_named c k = assoc k (c_props c).
Proof. intros E. unfold get_named. rewrite E. by destruct (c_elems c). Qed.

Lemma get_named_set_all k v fields c :
  String.eqb k "length" = false ->
  assoc k (rev fields) = Some v ->
  get_named (set_all fields c) k = Some v.
Proof.
  intros E Hk. rewrite get_named_assoc, assoc_set_all by done. by rewrite Hk.
Qed.

Lemma assoc_rev_None k K (fields : props) :
  mem k K = false ->
  forallb (fun kv => mem kv.1 K) fields = true ->
  assoc k (rev fields) = None.
Proof.
  intros Hk. induction fields as [|[k' v'] fs IH]; simpl; [done|].
  intros [Hk' Hfs]%andb_prop. rewrite assoc_app, IH by done. simpl.
  by rewrite (eqb_mem_false k k' K).
Qed.

(** ** Computations that leave the world as it is *)

Lemma stateless_ret {A} (a : A) : stateless (mret a : M A).
Proof. intros w r w' H. by inversion H. Qed.

Lemma stateless_throw {A} e : stateless (throw e : M A).
Proof. intros w r w' H. by inversion H. Qed.

Lemma stateless_bind {A B} (m : M A) (f : A -> M B) :
  stateless m -> (forall a, stateless (f a)) -> stateless (m ≫= f).
Proof.
  intros Hm Hf w r w'. rewrite bind_run.
  destruct (m w) as [[a|e] w1] eqn:E; apply Hm in E as ->.
  - apply Hf.
  - intros H. by inversion H.
Qed.

Lemma stateless_global x : stateless (global x).
Proof. intros w r w'. unfold global. destruct (assoc x (globals w)); by inversion 1. Qed.

Lemma stateless_read_cell r : stateless (read_cell r).
Proof. intros w x w'. unfold read_cell. destruct (heap w !! r); by inversion 1. Qed.

(** Steps of the proofs that a computation is stateless. *)
Ltac stateless_step :=
  first [ apply stateless_ret | apply stateless_throw | apply stateless_global
        | apply stateless_read_cell
        | apply stateless_bind; [| intros ?] ].

Lemma stateless_get_prop v k : stateless (get_prop v k).
Proof. destruct v; simpl; repeat stateless_step. Qed.

Lemma stateless_get_index v i : stateless (get_index v i).
Proof. destruct v; simpl; repeat stateless_step. Qed.

Lemma stateless_hasOwnProperty v k : stateless (hasOwnProperty v k).
Proof. destruct v; simpl; repeat stateless_step. Qed.

Lemma stateless_toUpperCase v : stateless (toUpperCase v).
Proof. destruct v; simpl; repeat stateless_step. Qed.

Lemma stateless_loop_bound v : stateless (loop_bound v).
Proof. destruct v; simpl; repeat stateless_step. Qed.

Lemma stateless_validate ps : stateless (validateRequiredParameters ps).
Proof.
  unfold validateRequiredParameters.
  destruct (keys _); repeat stateless_step.
Qed.

Lemma stateless_for_loop n i body :
  (forall j, stateless (body j)) -> stateless (for_loop n i body).
Proof.
  intros Hb. revert i. induction n as [|n IH]; intros i; simpl.
  - apply stateless_ret.
  - apply stateless_bind; [apply Hb | intros _; apply IH].
Qed.

Lemma stateless_mapM {A B} (f : A -> M B) l :
  (forall a, stateless (f a)) -> stateless (mapM f l).
Proof.
  intros Hf. induction l as [|x l IH]; simpl.
  - apply stateless_ret.
  - apply stateless_bind; [apply Hf | intros y].
    apply stateless_bind; [apply IH | intros ys; apply stateless_ret].
Qed.

Ltac stateless_body :=
  repeat first
    [ apply stateless_validate | apply stateless_get_prop
    | apply stateless_get_index | apply stateless_toUpperCase
    | apply stateless_global | apply stateless_hasOwnProperty
    | apply stateless_loop_bound | apply stateless_ret
    | apply stateless_throw
    | apply stateless_for_loop; intros ?
    | apply stateless_bind; [| intros ?] ].

(** ** The frame of the heap writes *)

Lemma frame_refl K w : frame K w w.
Proof. split; [done|]. intros r c Hr. eauto. Qed.

Lemma frame_trans K w1 w2 w3 : frame K w1 w2 -> frame K w2 w3 -> frame K w1 w3.
Proof.
  intros [Hg1 H1] [Hg2 H2]. split; [congruence|].
  intros r c Hr. destruct (H1 r c Hr) as (c2 & Hr2 & He2 & Hp2).
  destruct (H2 r c2 Hr2) as (c3 & Hr3 & He3 & Hp3).
  exists c3. split_and!; [done | congruence |].
  intros k Hk. rewrite Hp3, Hp2; done.
Qed.

Lemma framed_stateless {A} K (m : M A) : stateless m -> framed K m.
Proof. intros Hm w r w' H. apply Hm in H as ->. apply frame_refl. Qed.

Lemma framed_bind {A B} K (m : M A) (f : A -> M B) :
  framed K m -> (forall a, framed K (f a)) -> framed K (m ≫= f).
Proof.
  intros Hm Hf w r w'. rewrite bind_run.
  destruct (m w) as [[a|e] w1] eqn:E; apply Hm in E.
  - intros H. apply Hf in H. by eapply frame_trans.
  - intros H. by inversion H; subst.
Qed.

Lemma framed_alloc K c : framed K (alloc c).
Proof.
  intros w r w' H. inversion H; subst; clear H. split; [done|].
  intros r' c' Hr'. exists c'. split_and!; [|done..].
  simpl. by apply lookup_app_l_Some.
Qed.

Lemma frame_write K w r c c' :
  heap w !! r = Some c ->
  c_elems c' = c_elems c ->
  (forall k, mem k K = false -> assoc k (c_props c') = assoc k (c_props c)) ->
  frame K w (with_heap (<[r := c']> (heap w)) w).
Proof.
  intros Hr He Hp. split; [done|]. intros r0 c0 Hr0. simpl.
  destruct (decide (r0 = r)) as [->|Hne].
  - exists c'. rewrite list_lookup_insert_eq by (by eapply lookup_lt_Some).
    by simplify_eq.
  - exists c0. by rewrite list_lookup_insert_ne.
Qed.

Lemma framed_set_prop K v k x : mem k K = true -> framed K (set_prop v k x).
Proof.
  intros Hk w r w'. destruct v; simpl; try (inversion 1; subst; apply frame_refl).
  rewrite bind_run. unfold read_cell.
  destruct (heap w !! l) as [c|] eqn:Hr; [|inversion 1; subst; apply frame_refl].
  inversion 1; subst. eapply frame_write; [done..|].
  intros k' Hk'. simpl. apply assoc_set_assoc_ne. by eapply eqb_mem_false.
Qed.

Lemma framed_Object_assign K target fields :
  forallb (fun kv => mem kv.1 K) fields = true ->
  framed K (Object_assign target fields).
Proof.
  intros HK w r w'. destruct target; simpl;
    try (inversion 1; subst; apply frame_refl);
    try (rewrite bind_run; intros H; eapply (framed_alloc K); simpl in H;
         inversion H; subst; reflexivity).
  rewrite bind_run. unfold read_cell.
  destruct (heap w !! l) as [c|] eqn:Hr; [|inversion 1; subst; apply frame_refl].
  inversion 1; subst. eapply frame_write; [done | apply set_all_elems |].
  intros k Hk. rewrite assoc_set_all. by rewrite (assoc_rev_None k K).
Qed.

Lemma framed_new_object K fields : framed K (new_object fields).
Proof.
  apply framed_bind; [apply framed_alloc|].
  intros r. apply framed_stateless, stateless_ret.
Qed.

Lemma framed_new_array K es : framed K (new_array es).
Proof.
  apply framed_bind; [apply framed_alloc|].
  intros r. apply framed_stateless, stateless_ret.
Qed.

Lemma framed_default_param K v dflt :
  framed K dflt -> framed K (default_param v dflt).
Proof. intros Hd. destruct v; simpl; try done; apply framed_stateless, stateless_ret. Qed.

Lemma framed_dispatch K signed method path params :
  framed K (dispatch signed method path params).
Proof. intros w r w' H. inversion H; subst. split; [done|]. intros; eauto. Qed.

Lemma framed_publicRequest K this method path params :
  framed K (publicRequest this method path params).
Proof. apply framed_dispatch. Qed.

Lemma framed_signRequest K this method path params :
  framed K (signRequest this method path params).
Proof.
  apply framed_bind; [apply framed_stateless, stateless_get_prop|].
  intros s. destruct (is_missing s); [apply framed_stateless, stateless_throw|].
  apply framed_dispatch.
Qed.

Lemma framed_when K b m : framed K m -> framed K (when b m).
Proof. intros Hm. destruct b; simpl; [done|]. apply framed_stateless, stateless_ret. Qed.

Lemma framed_array_map K f v :
  (forall x, stateless (f x)) -> framed K (array_map f v).
Proof.
  intros Hf. destruct v; simpl; try apply framed_stateless, stateless_throw.
  apply framed_bind; [apply framed_stateless, stateless_read_cell|].
  intros c. destruct (c_elems c); [|apply framed_stateless, stateless_throw].
  apply framed_bind; [by apply framed_stateless, stateless_mapM|].
  intros es. apply framed_new_array.
Qed.

(** The head constant of an application. *)
Ltac head_of t :=
  lazymatch t with
  | ?f _ => head_of f
  | _ => t
  end.

(** One step of the syntactic proof that a method body stays in the frame of
    the written names. *)
Ltac framed_step :=
  first
    [ apply framed_Object_assign; reflexivity
    | apply framed_set_prop; reflexivity
    | apply framed_publicRequest
    | apply framed_signRequest
    | apply framed_default_param
    | apply framed_new_object
    | apply framed_when
    | apply framed_array_map; intros ?; apply stateless_toUpperCase
    | apply framed_stateless;
      first [ apply stateless_validate | apply stateless_toUpperCase
            | apply stateless_global | apply stateless_get_prop
            | apply stateless_get_index | apply stateless_hasOwnProperty
            | apply stateless_loop_bound | apply stateless_ret
            | apply stateless_for_loop; intros ?; stateless_body ]
    | apply framed_bind; [| intros ?] ].

(** Every operation of every module writes only the names of [written]. *)
Lemma all_methods_framed :
  Forall (fun m => forall this args, framed written (m_run m this args)) all_methods.
Proof.
  unfold all_methods, Account.methods, Trade.methods, Trade2.methods, Market.methods.
  repeat (apply Forall_cons; split;
    [ intros this args; cbn [m_run];
      unfold call0, call1, call2, call3, call4, call5, call6;
      match goal with |- framed _ ?m => let h := head_of m in unfold h end;
      repeat framed_step | ]).
  apply Forall_nil_2.
Qed.

(** ** What a successful step tells *)

Lemma stateless_Ok {A} (m : M A) w a w' :
  stateless m -> m w = (Ok a, w') -> w' = w.
Proof. intros Hm. apply Hm. Qed.

Lemma toUpperCase_inv v w v' w' :
  toUpperCase v w = (Ok v', w') ->
  w' = w /\ exists s, v = VStr s /\ v' = VStr (upper s).
Proof. destruct v; inversion 1; subst. eauto. Qed.

Lemma default_param_inv v fields w v' w' :
  default_param v (new_object fields) w = (Ok v', w') ->
  net w' = net w /\ forall r, v = VRef r -> v' = VRef r /\ w' = w.
Proof.
  destruct v; inversion 1; subst; (split; [done|]); intros r' Hr'; by simplify_eq.
Qed.

Lemma lookup_alloc (h : list cell) c : (h ++ [c])%list !! length h = Some c.
Proof. by rewrite lookup_app_r, Nat.sub_diag by lia. Qed.

Lemma new_object_inv fields w v w' :
  new_object fields w = (Ok v, w') ->
  exists r c, v = VRef r /\ heap w' !! r = Some c /\ net w' = net w /\
    forall k x, String.eqb k "length" = false ->
      assoc k (rev fields) = Some x -> get_named c k = Some x.
Proof.
  inversion 1; subst. eexists _, _. split_and!; [done | apply lookup_alloc | done |].
  intros k x Hk Hx. by apply get_named_set_all.
Qed.

Lemma Object_assign_inv target fields w v w' :
  Object_assign target fields w = (Ok v, w') ->
  exists r c, v = VRef r /\ heap w' !! r = Some c /\ net w' = net w /\
    (forall r0, target = VRef r0 -> r = r0) /\
    forall k x, String.eqb k "length" = false ->
      assoc k (rev fields) = Some x -> get_named c k = Some x.
Proof.
  destruct target; simpl; try (inversion 1; fail).
  - inversion 1; subst. eexists _, _.
    split_and!; [done | apply lookup_alloc | done | done |].
    intros k x Hk Hx. by apply get_named_set_all.
  - inversion 1; subst. eexists _, _.
    split_and!; [done | apply lookup_alloc | done | done |].
    intros k x Hk Hx. by apply get_named_set_all.
  - inversion 1; subst. eexists _, _.
    split_and!; [done | apply lookup_alloc | done | done |].
    intros k x Hk Hx. by apply get_named_set_all.
  - rewrite bind_run. unfold read_cell.
    destruct (heap w !! l) as [c|] eqn:Hr; [|inversion 1].
    inversion 1; subst. eexists _, _. split_and!; [done | | done | |].
    + simpl. apply list_lookup_insert_eq. by eapply lookup_lt_Some.
    + intros r0 ?. by simplify_eq.
    + intros k x Hk Hx. by apply get_named_set_all.
Qed.

Lemma dispatch_inv signed method path params w p w' :
  dispatch signed method path params w = (Ok p, w') ->
  heap w' = heap w /\
  net w' = (net w ++ [Request signed method path params])%list.
Proof. by inversion 1. Qed.

Lemma publicRequest_inv this method path params w p w' :
  publicRequest this method path params w = (Ok p, w') ->
  heap w' = heap w /\
  net w' = (net w ++ [Request false method path params])%list.
Proof. apply dispatch_inv. Qed.

Lemma signRequest_inv this method path params w p w' :
  signRequest this method path params w = (Ok p, w') ->
  heap w' = heap w /\
  net w' = (net w ++ [Request true method path params])%list.
Proof.
  unfold signRequest. intros (s & w1 & Hs & H)%bind_Ok_inv.
  apply (stateless_Ok _ _ _ _ (stateless_get_prop _ _)) in Hs as ->.
  destruct (is_missing s); [inversion H|]. by apply dispatch_inv in H.
Qed.

(** ** Computations that dispatch nothing *)

Lemma quiet_stateless {A} (m : M A) : stateless m -> quiet m.
Proof. intros Hm w r w' H. by apply Hm in H as ->. Qed.

Lemma quiet_bind {A B} (m : M A) (f : A -> M B) :
  quiet m -> (forall a, quiet (f a)) -> quiet (m ≫= f).
Proof.
  intros Hm Hf w r w'. rewrite bind_run.
  destruct (m w) as [[a|e] w1] eqn:E; apply Hm in E.
  - intros H. apply Hf in H. congruence.
  - intros H. by inversion H; subst.
Qed.

Lemma quiet_set_prop v k x : quiet (set_prop v k x).
Proof.
  intros w r w'. destruct v; simpl; try (by inversion 1).
  rewrite bind_run. unfold read_cell. destruct (heap w !! l); by inversion 1.
Qed.

Lemma quiet_array_map f v : (forall x, stateless (f x)) -> quiet (array_map f v).
Proof.
  intros Hf. destruct v; simpl; try apply quiet_stateless, stateless_throw.
  apply quiet_bind; [apply quiet_stateless, stateless_read_cell|].
  intros c. destruct (c_elems c); [|apply quiet_stateless, stateless_throw].
  apply quiet_bind; [by apply quiet_stateless, stateless_mapM|].
  intros es w r w'. by inversion 1.
Qed.

Lemma quiet_when b m : quiet m -> quiet (when b m).
Proof. intros Hm. destruct b; simpl; [done|]. apply quiet_stateless, stateless_ret. Qed.

(** ** Symbolic execution of a method body that returned *)

(** What the step [H] that returned tells, by the step it is. *)
Ltac exec_head H :=
  lazymatch type of H with
  | validateRequiredParameters _ _ = _ =>
      apply (stateless_Ok _ _ _ _ (stateless_validate _)) in H; subst
  | global _ _ = _ =>
      apply (stateless_Ok _ _ _ _ (stateless_global _)) in H; subst
  | get_prop _ _ _ = _ =>
      apply (stateless_Ok _ _ _ _ (stateless_get_prop _ _)) in H; subst
  | loop_bound _ _ = _ =>
      apply (stateless_Ok _ _ _ _ (stateless_loop_bound _)) in H; subst
  | for_loop _ _ _ _ = _ =>
      apply stateless_Ok in H;
      [subst | apply stateless_for_loop; intros ?; stateless_body]
  | toUpperCase _ _ = _ =>
      let s := fresh "s" in let Hs := fresh "Hs" in
      apply toUpperCase_inv in H as [-> (s & Hs & ->)]
  | default_param _ _ _ = _ =>
      let Hn := fresh "Hnet" in let Ha := fresh "Hdflt" in
      apply default_param_inv in H as [Hn Ha]
  | Object_assign _ _ _ = _ =>
      let r := fresh "r" in let c := fresh "c" in
      let Hc := fresh "Hcell" in let Hn := fresh "Hnet" in
      let Ha := fresh "Halias" in let Hg := fresh "Hget" in
      apply Object_assign_inv in H as (r & c & -> & Hc & Hn & Ha & Hg)
  | new_object _ _ = _ =>
      let r := fresh "r" in let c := fresh "c" in
      let Hc := fresh "Hcell" in let Hn := fresh "Hnet" in
      let Hg := fresh "Hget" in
      apply new_object_inv in H as (r & c & -> & Hc & Hn & Hg)
  | signRequest _ _ _ _ _ = _ =>
      let Hh := fresh "Hheap" in let Hn := fresh "Hnet" in
      apply signRequest_inv in H as [Hh Hn]
  | publicRequest _ _ _ _ _ = _ =>
      let Hh := fresh "Hheap" in let Hn := fresh "Hnet" in
      apply publicRequest_inv in H as [Hh Hn]
  end.

Ltac quiet_body :=
  repeat first
    [ apply quiet_set_prop
    | apply quiet_array_map; intros ?; apply stateless_toUpperCase
    | apply quiet_stateless;
      first [ apply stateless_get_prop | apply stateless_toUpperCase
            | apply stateless_hasOwnProperty | apply stateless_ret ]
    | apply quiet_bind; [| intros ?] ].

Lemma when_quiet b m w r w' : quiet m -> when b m w = (r, w') -> net w' = net w.
Proof. intros Hm. by apply quiet_when. Qed.

(** Runs a method body that returned, step by step, and leaves what each
    step tells in the context. *)
Ltac exec :=
  repeat
    match goal with
    | H : (hasOwnProperty _ _ ≫= _) _ = (Ok _, _) |- _ =>
        let a := fresh "a" in let w1 := fresh "w" in let H1 := fresh "Hstep" in
        apply bind_Ok_inv in H as (a & w1 & H1 & H);
        apply (stateless_Ok _ _ _ _ (stateless_hasOwnProperty _ _)) in H1; subst
    | H : (when _ _ ≫= _) _ = (Ok _, _) |- _ =>
        let a := fresh "a" in let w1 := fresh "w" in let H1 := fresh "Hnet" in
        apply bind_Ok_inv in H as (a & w1 & H1 & H);
        apply when_quiet in H1; [| quiet_body]
    | H : (_ ≫= _) _ = (Ok _, _) |- _ =>
        let a := fresh "a" in let w1 := fresh "w" in let H1 := fresh "Hstep" in
        apply bind_Ok_inv in H as (a & w1 & H1 & H); exec_head H1
    end;
  match goal with
  | H : signRequest _ _ _ _ _ = _ |- _ => exec_head H
  | H : publicRequest _ _ _ _ _ = _ |- _ => exec_head H
  end.

(** Unfolds the method of the run in the context. *)
Ltac unfold_method :=
  cbn [m_run m_params m_options m_name] in *;
  unfold call0, call1, call2, call3, call4, call5, call6 in *;
  match goal with
  | H : ?lhs = (Ok _, _) |- _ => let h := head_of lhs in unfold h in H
  end.

(** The position of a name in a concrete parameter list. *)
Ltac enum_params Hi :=
  repeat match type of Hi with
         | (_ :: _) !! ?i = Some _ => destruct i as [|i]; simpl in Hi
         end;
  simplify_eq.


(** ** Which path an operation is dispatched on *)

(** Every method of the list dispatches as the goal says. *)
Ltac dispatch_path :=
  repeat (apply Forall_cons; split;
    [ intros this args w p w' Hrun; unfold_method; exec;
      eexists; split;
      [ etrans; [eassumption | apply (f_equal2 app); [congruence | reflexivity]]
      | reflexivity ] | ]);
  apply Forall_nil_2.

(** Every operation of the Market module goes out on the unsigned path. *)
Lemma market_unsigned : Forall (dispatches false) Market.methods.
Proof. unfold Market.methods. dispatch_path. Qed.

(** Every operation of the second trade file goes out on the signed path. *)
Lemma trade2_signed : Forall (dispatches true) Trade2.methods.
Proof. unfold Trade2.methods. dispatch_path. Qed.

(** Every operation of the Account module that returns went out on the
    unsigned path. *)
Lemma account_unsigned : Forall (dispatches false) Account.methods.
Proof. unfold Account.methods. dispatch_path. Qed.

(** In the Account, Trade and Market mixins the path follows the verb: a
    [GET] goes out unsigned, every other request signed. *)
Lemma registry_dispatch_by_verb :
  Forall dispatches_by_verb (Account.methods ++ Trade.methods ++ Market.methods)%list.
Proof.
  unfold Account.methods, Trade.methods, Market.methods. simpl app. dispatch_path.
Qed.

(** C1 (code defect).  On a client that holds a secret,
    [queryOrder("btcusdt", 1700000000000)] of the first trade file is
    dispatched on the unsigned path, whereas the same call on the second
    trade file is dispatched on the signed path. *)
Theorem trade_queryOrder_unsigned :
  Trade.queryOrder client (VStr "btcusdt") (VNum 1700000000000) VUndef client_world
  = (Ok 0%nat,
     World (heap client_world ++
            [Cell None [("symbol", VStr "BTCUSDT"); ("timestamp", VNum 1700000000000)]])%list
           [] [Request false "GET" "/fapi/v1/order" (VRef 3%nat)])
  /\ net (Trade2.queryOrder client (VStr "btcusdt") (VNum 1700000000000) VUndef
            client_world).2
     = [Request true "GET" "/fapi/v1/order" (VRef 3%nat)].
Proof. split; reflexivity. Qed.

(** ** Validation of the required parameters *)

Lemma validate_run params w :
  validateRequiredParameters params w =
  match keys (filter (fun kv => is_missing kv.2 = true) params) with
  | [] => (Ok tt, w)
  | names => (Throw (MissingParameterError names), w)
  end.
Proof. unfold validateRequiredParameters. by destruct (keys _). Qed.

Lemma keys_filter_missing k v (params : props) :
  (k, v) ∈ params -> is_missing v = true ->
  k ∈ keys (filter (fun kv => is_missing kv.2 = true) params).
Proof.
  intros Hin Hv. unfold keys. apply list_elem_of_In, in_map_iff.
  exists (k, v). split; [done|]. apply list_elem_of_In, list_elem_of_filter. by split.
Qed.

(** The validator rejects a mapping as soon as one of its values is missing,
    names that parameter, and leaves the world as it is. *)
Lemma validate_missing k v params w :
  (k, v) ∈ params -> is_missing v = true ->
  exists names,
    validateRequiredParameters params w = (Throw (MissingParameterError names), w)
    /\ k ∈ names.
Proof.
  intros Hin Hv. rewrite validate_run.
  pose proof (keys_filter_missing k v params Hin Hv) as Hk.
  destruct (keys _) as [|n names]; [by apply elem_of_nil in Hk|]. eauto.
Qed.

Lemma bind_Throw {A B} (m : M A) (f : A -> M B) w e w' :
  m w = (Throw e, w') -> (m ≫= f) w = (Throw e, w').
Proof. intros H. by rewrite bind_run, H. Qed.

Lemma default_param_quiet v fields : quiet (default_param v (new_object fields)).
Proof. intros w r w'. destruct v; by inversion 1. Qed.

(** [newOrder] fails fast: a missing [symbol], [side], [type] or [timestamp]
    is reported before anything is dispatched. *)
Lemma newOrder_fail_fast this symbol side type timestamp options w k v :
  (k, v) ∈ [("symbol", symbol); ("side", side); ("type", type); ("timestamp", timestamp)] ->
  is_missing v = true ->
  exists names w',
    Trade.newOrder this symbol side type timestamp options w
      = (Throw (MissingParameterError names), w')
    /\ k ∈ names /\ net w' = net w.
Proof.
  intros Hin Hv. unfold Trade.newOrder. rewrite bind_run.
  destruct (default_param options (new_object []) w) as [[o|e] w1] eqn:Ho.
  - apply default_param_quiet in Ho as Hnet.
    destruct (validate_missing k v _ w1 Hin Hv) as (names & Hrun & Hk).
    exists names, w1. split_and!; [|done..]. by apply bind_Throw.
  - destruct options; inversion Ho.
Qed.

(** [cancelOrder] fails fast in the same way. *)
Lemma cancelOrder_fail_fast this symbol timestamp options w k v :
  (k, v) ∈ [("symbol", symbol); ("timestamp", timestamp)] ->
  is_missing v = true ->
  exists names w',
    Trade.cancelOrder this symbol timestamp options w
      = (Throw (MissingParameterError names), w')
    /\ k ∈ names /\ net w' = net w.
Proof.
  intros Hin Hv. unfold Trade.cancelOrder. rewrite bind_run.
  destruct (default_param options (new_object []) w) as [[o|e] w1] eqn:Ho.
  - apply default_param_quiet in Ho as Hnet.
    destruct (validate_missing k v _ w1 Hin Hv) as (names & Hrun & Hk).
    exists names, w1. split_and!; [|done..]. by apply bind_Throw.
  - destruct options; inversion Ho.
Qed.

(** A body that starts with the validation of a mapping fails fast when one
    of the values is missing. *)
Lemma validate_first {A} k v params (rest : unit -> M A) w :
  (k, v) ∈ params -> is_missing v = true ->
  exists names w',
    (validateRequiredParameters params ≫= rest) w
      = (Throw (MissingParameterError names), w')
    /\ k ∈ names /\ net w' = net w.
Proof.
  intros Hin Hv. destruct (validate_missing k v params w Hin Hv) as (names & Hrun & Hk).
  exists names, w. split_and!; [by apply bind_Throw | done..].
Qed.

(** The default of [options] always evaluates, and dispatches nothing. *)
Lemma default_param_Ok v fields w :
  exists o w1, default_param v (new_object fields) w = (Ok o, w1) /\ net w1 = net w.
Proof. destruct v; eexists _, _; split; reflexivity. Qed.

Ltac fail_fast Hmiss :=
  lazymatch goal with
  | |- exists _ _, (default_param ?v (new_object ?fs) ≫= _) ?w = _ /\ _ =>
      let o := fresh "o" in let w1 := fresh "w" in
      let Ho := fresh "Ho" in let Hn := fresh "Hn" in
      destruct (default_param_Ok v fs w) as (o & w1 & Ho & Hn);
      rewrite bind_run, Ho, <- Hn
  | _ => idtac
  end;
  eapply validate_first; [| exact Hmiss];
  apply list_elem_of_In; simpl; tauto.

(** Every operation outside [unvalidated] fails fast on each parameter of its
    signature: a missing one is reported by a [MissingParameterError] that
    names it, and nothing is dispatched. *)
Lemma validated_parameters_fail_fast :
  Forall (fun m =>
    mem (m_name m) unvalidated = false ->
    forall i k this args w,
      m_params m !! i = Some k ->
      is_missing (arg i args) = true ->
      exists names w',
        m_run m this args w = (Throw (MissingParameterError names), w')
        /\ k ∈ names /\ net w' = net w)
    all_methods.
Proof.
  unfold all_methods, Account.methods, Trade.methods, Trade2.methods, Market.methods.
  repeat (apply Forall_cons; split;
    [ intros Hname i k this args w Hi Hmiss;
      cbn [m_name] in Hname; try discriminate Hname;
      cbn [m_params] in Hi;
      try (rewrite lookup_nil in Hi; discriminate Hi);
      enum_params Hi;
      cbn [m_run]; unfold call0, call1, call2, call3, call4, call5, call6;
      match goal with
      | |- exists _ _, ?lhs = _ /\ _ => let h := head_of lhs in unfold h
      end;
      fail_fast Hmiss
    | ]).
  apply Forall_nil_2.
Qed.

(** C2 (code defect).  [priceChange24H("")], whose documented parameter
    [symbol] is required, is not rejected: the request goes out with an empty
    symbol.  [forceOrders()] and [futuresAccountBalanceV3()], called without
    their required [timestamp], fail with a [ReferenceError] instead of a
    [MissingParameterError]. *)
Theorem required_parameter_not_validated :
  Market.priceChange24H client (VStr "") client_world
  = (Ok 0%nat,
     World (heap client_world ++ [Cell None [("symbol", VStr "")]])%list
           [] [Request false "GET" "/fapi/v1/ticker/24hr" (VRef 3%nat)])
  /\ Trade.forceOrders client VUndef VUndef client_world
     = (Throw (ReferenceError "symbol"),
        World (heap client_world ++ [Cell None []])%list [] [])
  /\ Account.futuresAccountBalanceV3 client client_world
     = (Throw (ReferenceError "timestamp"), client_world).
Proof. split_and!; reflexivity. Qed.

(** ** Free identifiers *)

(** C5.  The methods of the Account module declare no parameter, so the
    identifiers of their bodies are free: whatever the caller passes, the call
    is the same, and with no such global it throws a [ReferenceError].
    [forceOrders] of the Trade module reads a free [symbol] in the same way,
    and once [timestamp] is bound globally the free [options] is the next to
    fail. *)
Theorem free_identifiers :
  Forall (fun m =>
            m_params m = [] /\ m_options m = false /\
            (forall this args args' w, m_run m this args w = m_run m this args' w) /\
            forall this args h n,
              exists x, m_run m this args (World h [] n)
                        = (Throw (ReferenceError x), World h [] n))
         Account.methods
  /\ (forall this timestamp options h n,
        exists w', Trade.forceOrders this timestamp options (World h [] n)
                   = (Throw (ReferenceError "symbol"), w'))
  /\ (forall this h n,
        Account.futuresAccountBalanceV3 this (World h [("timestamp", VNum 1)] n)
        = (Throw (ReferenceError "options"), World h [("timestamp", VNum 1)] n)).
Proof.
  split_and!.
  - unfold Account.methods.
    repeat (apply Forall_cons; split;
            [ split_and!; [reflexivity | reflexivity | reflexivity |];
              intros this args h n; eexists; reflexivity | ]).
    apply Forall_nil_2.
  - intros this timestamp options h n. unfold Trade.forceOrders.
    destruct options; eexists; reflexivity.
  - reflexivity.
Qed.

(** ** Validation of the batch elements *)

Lemma get_prop_object w r c k :
  heap w !! r = Some c ->
  get_prop (VRef r) k w = (Ok (default VUndef (get_named c k)), w).
Proof. intros Hr. simpl. rewrite bind_run. unfold read_cell. by rewrite Hr. Qed.

Lemma get_prop_peek w e k :
  is_object w e -> get_prop e k w = (Ok (peek w e k), w).
Proof.
  destruct e; try done. intros [c Hc]. simpl in *. rewrite bind_run.
  unfold read_cell. by rewrite Hc.
Qed.

Lemma get_index_array w r es ps i e :
  heap w !! r = Some (Cell (Some es) ps) ->
  es !! i = Some e ->
  get_index (VRef r) i w = (Ok e, w).
Proof.
  intros Hr Hi. simpl. rewrite bind_run. unfold read_cell. rewrite Hr. simpl.
  by rewrite Hi.
Qed.

Lemma keys_filter_subseteq (P : string * value -> Prop) `{!forall x, Decision (P x)}
    (params : props) :
  keys (filter P params) ⊆ keys params.
Proof.
  intros k. unfold keys. rewrite !list_elem_of_In, !in_map_iff.
  intros ([k' v] & <- & Hin). exists (k', v). split; [done|].
  apply list_elem_of_In in Hin. apply list_elem_of_filter in Hin as [_ Hin].
  by apply list_elem_of_In.
Qed.

Lemma filter_missing_nil (params : props) :
  existsb (fun kv => is_missing kv.2) params = false ->
  filter (fun kv => is_missing kv.2 = true) params = [].
Proof.
  induction params as [|[k v] params IH]; simpl; [done|].
  intros [Hv Hps]%orb_false_elim. rewrite filter_cons_False, IH; [done..|].
  simpl. congruence.
Qed.

(** The two outcomes of the validator. *)
Lemma validate_cases params w :
  if existsb (fun kv => is_missing kv.2) params
  then exists names,
         validateRequiredParameters params w = (Throw (MissingParameterError names), w)
         /\ names <> [] /\ names ⊆ keys params
  else validateRequiredParameters params w = (Ok tt, w).
Proof.
  destruct (existsb _ params) eqn:E.
  - apply existsb_exists in E as ([k v] & Hin & Hv). apply list_elem_of_In in Hin.
    destruct (validate_missing k v params w Hin Hv) as (names & Hrun & Hk).
    exists names. split_and!; [done | by intros -> ; apply elem_of_nil in Hk |].
    rewrite validate_run in Hrun.
    pose proof (keys_filter_subseteq (fun kv => is_missing kv.2 = true) params) as Hsub.
    destruct (keys _); [done|]. by simplify_eq.
  - by rewrite validate_run, filter_missing_nil.
Qed.

(** One element: the four fields are read and validated; an element that
    lacks one of them is rejected with a [MissingParameterError]. *)
Lemma validate_element w e :
  is_object w e ->
  let check :=
    symbol ← get_prop e "symbol";
    side ← get_prop e "side";
    type ← get_prop e "type";
    quantity ← get_prop e "quantity";
    validateRequiredParameters
      [("symbol", symbol); ("side", side); ("type", type); ("quantity", quantity)] in
  if lacks w e
  then exists names, check w = (Throw (MissingParameterError names), w)
                     /\ names <> [] /\ names ⊆ batch_fields
  else check w = (Ok tt, w).
Proof.
  intros He check. subst check.
  repeat (rewrite bind_run, (get_prop_peek w e _ He)).
  apply (validate_cases
    [("symbol", peek w e "symbol"); ("side", peek w e "side");
     ("type", peek w e "type"); ("quantity", peek w e "quantity")] w).
Qed.

Lemma lacks_extend w c e :
  is_object w e -> lacks (with_heap (heap w ++ [c])%list w) e = lacks w e.
Proof.
  destruct e; try done. intros [c' Hc]. unfold lacks, peek. simpl in *.
  by rewrite (lookup_app_l_Some _ _ _ _ Hc), Hc.
Qed.

Lemma is_object_extend w c e :
  is_object w e -> is_object (with_heap (heap w ++ [c])%list w) e.
Proof.
  destruct e; try done. intros [c' Hc]. exists c'. simpl. by apply lookup_app_l_Some.
Qed.

Lemma get_prop_destructured w e k :
  destructurable w e -> String.eqb k "length" = false ->
  get_prop e k w = (Ok (peek w e k), w).
Proof.
  destruct e as [| | | |s|r]; try done.
  - intros _ Hk. simpl. by rewrite Hk.
  - intros [c Hc] _. simpl in *. rewrite bind_run. unfold read_cell. by rewrite Hc.
Qed.

Lemma get_prop_nullish e k w :
  e = VUndef \/ e = VNull -> get_prop e k w = (Throw TypeError, w).
Proof. by intros [-> | ->]. Qed.

(** The loop passes over the iterations that return and leave the world as
    it is. *)
Lemma for_loop_skip (body : nat -> M unit) w k n i :
  (forall j, (i <= j < i + k)%nat -> body j w = (Ok tt, w)) ->
  for_loop (k + n) i body w = for_loop n (i + k) body w.
Proof.
  revert i. induction k as [|k IH]; intros i Hb; simpl.
  - by rewrite Nat.add_0_r.
  - rewrite bind_run, Hb by lia. rewrite IH.
    + f_equal. lia.
    + intros j Hj. apply Hb. lia.
Qed.

(** The loop stops at an iteration that throws. *)
Lemma for_loop_throws (body : nat -> M unit) w n i err :
  body i w = (Throw err, w) -> for_loop (S n) i body w = (Throw err, w).
Proof. intros Hb. simpl. by rewrite bind_run, Hb. Qed.

Lemma for_loop_first (body : nat -> M unit) w (es1 : list value) e (es2 : list value) err :
  (forall j, (j < length es1)%nat -> body j w = (Ok tt, w)) ->
  body (length es1) w = (Throw err, w) ->
  for_loop (length (es1 ++ e :: es2)%list) 0 body w = (Throw err, w).
Proof.
  intros Hb He. rewrite length_app. cbn [length].
  rewrite (for_loop_skip body w (length es1) (S (length es2)) 0).
  - by apply for_loop_throws.
  - intros j Hj. apply Hb. lia.
Qed.

(** One element of [placeMultipleOrder], whatever it is. *)
Lemma validate_destructured w e :
  destructurable w e ->
  let check :=
    symbol ← get_prop e "symbol";
    side ← get_prop e "side";
    type ← get_prop e "type";
    quantity ← get_prop e "quantity";
    validateRequiredParameters
      [("symbol", symbol); ("side", side); ("type", type); ("quantity", quantity)] in
  if lacks w e
  then exists names, check w = (Throw (MissingParameterError names), w)
                     /\ names <> [] /\ names ⊆ batch_fields
  else check w = (Ok tt, w).
Proof.
  intros He check. subst check.
  repeat (rewrite bind_run, (get_prop_destructured w e _ He) by done).
  apply (validate_cases
    [("symbol", peek w e "symbol"); ("side", peek w e "side");
     ("type", peek w e "type"); ("quantity", peek w e "quantity")] w).
Qed.

Lemma destructurable_extend w c e :
  destructurable w e -> destructurable (with_heap (heap w ++ [c])%list w) e.
Proof.
  destruct e; try done. intros [c' Hc]. exists c'. simpl. by apply lookup_app_l_Some.
Qed.

Lemma lacks_destructured_extend w c e :
  destructurable w e -> lacks (with_heap (heap w ++ [c])%list w) e = lacks w e.
Proof.
  destruct e; try done. intros [c' Hc]. unfold lacks, peek. simpl in *.
  by rewrite (lookup_app_l_Some _ _ _ _ Hc), Hc.
Qed.

(** The default of the options keeps the batch as the loop reads it. *)
Lemma default_param_batch options r es1 e es2 ps w :
  heap w !! r = Some (Cell (Some (es1 ++ e :: es2)%list) ps) ->
  Forall (complete w) es1 ->
  exists o w1,
    default_param options (new_object []) w = (Ok o, w1) /\
    net w1 = net w /\
    heap w1 !! r = Some (Cell (Some (es1 ++ e :: es2)%list) ps) /\
    Forall (complete w1) es1 /\
    (destructurable w e -> destructurable w1 e /\ lacks w1 e = lacks w e).
Proof.
  intros Hr Hes1.
  destruct options; try (eexists _, _; split_and!; [reflexivity | done..]).
  eexists _, _. split_and!; [reflexivity | done | | |].
  - simpl. by apply lookup_app_l_Some.
  - eapply Forall_impl; [exact Hes1|]. intros x [Hx Hl]. split.
    + by apply destructurable_extend.
    + by rewrite lacks_destructured_extend.
  - intros He. split; [by apply destructurable_extend | by apply lacks_destructured_extend].
Qed.

(** C10 (amended).  [placeMultipleOrder] on an array checks the elements in
    order.  When the elements before [e] are complete (each can be
    destructured and carries [symbol], [side], [type] and [quantity]), then:
    if [e], an object or a primitive, lacks one of the four fields, the call
    fails with a [MissingParameterError] that names fields of the element
    only, whatever the order type, the timestamp, the options and the later
    elements are; if [e] is [undefined] or [null], the call fails with a
    [TypeError].  In both cases nothing is dispatched. *)
Theorem placeMultipleOrder_validates_elements this r es1 e es2 ps timestamp options w :
  heap w !! r = Some (Cell (Some (es1 ++ e :: es2)%list) ps) ->
  Forall (complete w) es1 ->
  (destructurable w e -> lacks w e = true ->
   exists names w',
     Trade.placeMultipleOrder this (VRef r) timestamp options w
       = (Throw (MissingParameterError names), w')
     /\ names <> []
     /\ names ⊆ ["symbol"; "side"; "type"; "quantity"]
     /\ net w' = net w)
  /\ (e = VUndef \/ e = VNull ->
      exists w',
        Trade.placeMultipleOrder this (VRef r) timestamp options w
          = (Throw TypeError, w')
        /\ net w' = net w).
Proof.
  intros Hr Hes1.
  destruct (default_param_batch options r es1 e es2 ps w Hr Hes1)
    as (o & w1 & Ho & Hn & Hr1 & Hes1' & He1).
  assert (forall err,
    (order ← get_index (VRef r) (length es1);
     symbol ← get_prop order "symbol";
     side ← get_prop order "side";
     type ← get_prop order "type";
     quantity ← get_prop order "quantity";
     validateRequiredParameters
       [("symbol", symbol); ("side", side); ("type", type); ("quantity", quantity)]) w1
    = (Throw err, w1) ->
    Trade.placeMultipleOrder this (VRef r) timestamp options w = (Throw err, w1))
    as Hstop.
  { intros err Herr. unfold Trade.placeMultipleOrder. rewrite bind_run, Ho.
    rewrite bind_run, (get_prop_object _ _ _ _ Hr1). simpl get_named.
    rewrite bind_run. simpl loop_bound. rewrite ret_run, Nat2Z.id.
    erewrite bind_run, for_loop_first; [reflexivity | | exact Herr].
    intros j Hj. destruct (lookup_lt_is_Some_2 es1 j Hj) as [x Hx].
    rewrite bind_run, (get_index_array w1 r _ ps j x Hr1)
      by (by apply lookup_app_l_Some).
    destruct (proj1 (Forall_forall _ _) Hes1' x) as [Hd Hl];
      [by eapply list_elem_of_lookup_2|].
    pose proof (validate_destructured w1 x Hd) as Hv. cbv zeta in Hv.
    by rewrite Hl in Hv. }
  split.
  - intros Hd Hl. destruct (He1 Hd) as [Hd1 Hl1]. rewrite Hl in Hl1.
    pose proof (validate_destructured w1 e Hd1) as Hv. cbv zeta in Hv.
    rewrite Hl1 in Hv. destruct Hv as (names & Hv & Hne & Hsub).
    exists names, w1. split_and!; [| done | done | done].
    apply Hstop.
    by rewrite bind_run, (get_index_array w1 r _ ps (length es1) e Hr1)
      by (by rewrite list_lookup_middle).
  - intros Hnull. exists w1. split; [|done].
    apply Hstop.
    rewrite bind_run, (get_index_array w1 r _ ps (length es1) e Hr1)
      by (by rewrite list_lookup_middle).
    by rewrite bind_run, get_prop_nullish.
Qed.

Lemma placeMultipleOrder_validates_elements_witness :
  exists names w',
    Trade.placeMultipleOrder client (VRef 4%nat) VUndef VUndef stop_world
      = (Throw (MissingParameterError names), w')
    /\ names <> []
    /\ names ⊆ ["symbol"; "side"; "type"; "quantity"]
    /\ net w' = net stop_world.
Proof.
  apply (proj1 (placeMultipleOrder_validates_elements client 4%nat [] (VRef 3%nat) [] []
                  VUndef VUndef stop_world eq_refl (Forall_nil_2 _))).
  - eexists. reflexivity.
  - reflexivity.
Defined.

(** C10 (counterexample).  On the batch [[null, {symbol, side, type}]], whose
    second element lacks [quantity], the call fails with a [TypeError], not
    with a [MissingParameterError]: the first element cannot be
    destructured. *)
Lemma null_element_is_type_error :
  let w := World [Cell None [("symbol", VStr "BTCUSDT"); ("side", VStr "SELL");
                             ("type", VStr "STOP_MARKET")];
                  Cell (Some [VNull; VRef 0%nat]) []] [] [] in
  lacks w (VRef 0%nat) = true /\
  (Trade.placeMultipleOrder client (VRef 1%nat) (VNum 1) VUndef w).1 = Throw TypeError /\
  net (Trade.placeMultipleOrder client (VRef 1%nat) (VNum 1) VUndef w).2 = [].
Proof. split_and!; reflexivity. Qed.

(** ** The caller's options object *)

(** An operation whose signature ends in [options = {}], called with an
    object, sends that very object as the request parameters, and the object
    then holds every positional parameter of the call, as given or
    upper-cased. *)
Lemma options_assigned_in_place_all :
  Forall (fun m =>
    m_options m = true ->
    forall this args r w p w',
      arg (length (m_params m)) args = VRef r ->
      m_run m this args w = (Ok p, w') ->
      (exists q, net w' = (net w ++ [q])%list /\ r_params q = VRef r) /\
      forall i k, m_params m !! i = Some k ->
        exists c x,
          heap w' !! r = Some c /\ get_named c k = Some x /\
          (x = arg i args \/ exists s, arg i args = VStr s /\ x = VStr (upper s)))
    all_methods.
Proof.
  unfold all_methods, Account.methods, Trade.methods, Trade2.methods, Market.methods.
  repeat (apply Forall_cons; split;
    [ intros Hopt this args r w p w' Harg Hrun;
      cbn [m_options] in Hopt; try discriminate Hopt;
      cbn [m_params length] in Harg;
      unfold_method; exec;
      match goal with
      | Hd : forall r, arg _ _ = VRef r -> _ |- _ =>
          destruct (Hd _ Harg) as [-> ->]; clear Hd
      end;
      try match goal with
          | Ha : forall r0, VRef _ = VRef r0 -> _ = r0 |- _ =>
              specialize (Ha _ eq_refl); subst
          end;
      (split;
      [ eexists; split;
        [ etrans; [eassumption | apply (f_equal2 app); [congruence | reflexivity]]
        | reflexivity ]
      | intros i k Hi; cbn [m_params] in Hi;
        try (rewrite lookup_nil in Hi; discriminate Hi);
        enum_params Hi;
        (eexists _, _; split_and!;
         [ rewrite Hheap; eassumption
         | apply Hget; reflexivity
         | first [ left; reflexivity
                 | right; eexists; split; [eassumption | reflexivity] ] ]) ])
    | ]).
  apply Forall_nil_2.
Qed.

(** ** The constructor of the client *)

Lemma default_param_const v d w :
  default_param v (mret d) w = (Ok (or_default v d), w).
Proof. by destruct v. Qed.

Lemma set_prop_object w r c k x :
  heap w !! r = Some c ->
  set_prop (VRef r) k x w = (Ok tt, with_heap (<[r := set_named k x c]> (heap w)) w).
Proof. intros Hr. simpl. rewrite bind_run. unfold read_cell. by rewrite Hr. Qed.

Lemma spread_object w r c :
  heap w !! r = Some c -> spread (VRef r) w = (Ok (own_props c), w).
Proof. intros Hr. simpl. rewrite bind_run. unfold read_cell. by rewrite Hr. Qed.

Lemma assoc_Some_keys k v (l : props) : assoc k l = Some v -> k ∈ keys l.
Proof.
  induction l as [|[k' v'] l IH]; simpl; [done|].
  destruct (String.eqb_spec k k') as [->|]; [intros _; apply list_elem_of_here|].
  intros H. apply list_elem_of_further. by apply IH.
Qed.

(** With each name held once, the last occurrence is the first. *)
Lemma assoc_rev_NoDup k (l : props) : NoDup (keys l) -> assoc k (rev l) = assoc k l.
Proof.
  induction l as [|[k' v'] l IH]; simpl; [done|].
  intros [Hk' Hl]%NoDup_cons. rewrite assoc_app, IH by done. simpl.
  destruct (assoc k l) eqn:E; [|done].
  destruct (String.eqb_spec k k') as [->|]; [|done].
  by apply assoc_Some_keys in E.
Qed.

Lemma keys_set_assoc k v (l : props) :
  keys (set_assoc k v l) = if mem k (keys l) then keys l else (keys l ++ [k])%list.
Proof.
  induction l as [|[k' v'] l IH]; simpl; [done|].
  destruct (String.eqb k k') eqn:E; simpl; [done|].
  rewrite IH. by destruct (mem k (keys l)).
Qed.

Lemma mem_false_not_elem k K : mem k K = false -> k ∉ K.
Proof.
  intros Hm Hin. apply list_elem_of_In in Hin.
  assert (mem k K = true); [|congruence].
  apply existsb_exists. exists k. split; [done | apply String.eqb_refl].
Qed.

Lemma wf_set_named k v c : wf_cell c -> wf_cell (set_named k v c).
Proof.
  unfold wf_cell. simpl. rewrite keys_set_assoc.
  destruct (mem k (keys (c_props c))) eqn:E; [done|].
  intros Hnd. apply NoDup_app. split_and!; [done | | apply NoDup_singleton].
  intros x Hx ->%list_elem_of_singleton. by apply mem_false_not_elem in E.
Qed.

(** What the spread [{apiKey, apiSecret, ...options}] holds under a name of
    the options object. *)
Lemma assoc_spread k v c (fields : props) :
  wf_cell c -> assoc k (c_props c) = Some v ->
  assoc k (rev (fields ++ own_props c)%list) = Some v.
Proof.
  intros Hwf Hk. rewrite rev_app_distr, assoc_app.
  unfold own_props. destruct (c_elems c).
  - by rewrite rev_app_distr, assoc_app, assoc_rev_NoDup, Hk.
  - by rewrite assoc_rev_NoDup, Hk.
Qed.

(** The run of the constructor on an options object. *)
Lemma Futures_constructor_object apiKey apiSecret r c w :
  heap w !! r = Some c ->
  let c1 := set_named "baseURL" (base_url_of c) c in
  let cfg :=
    set_all ([("apiKey", or_default apiKey (VStr ""));
              ("apiSecret", or_default apiSecret (VStr ""))] ++ own_props c1)%list
            (Cell None []) in
  Futures_constructor apiKey apiSecret (VRef r) w =
  (Ok (S (length (heap w))),
   with_heap
     ((<[r := c1]> (heap w) ++ [cfg]) ++
      [Cell None [("apiKey", default VUndef (get_named cfg "apiKey"));
                  ("apiSecret", default VUndef (get_named cfg "apiSecret"));
                  ("baseURL", default VUndef (get_named cfg "baseURL"));
                  ("timeout", default VUndef (get_named cfg "timeout"))]])%list
     w).
Proof.
  intros Hr c1 cfg. unfold Futures_constructor.
  rewrite bind_run, default_param_const.
  rewrite bind_run, default_param_const.
  rewrite bind_run. cbn [default_param]. rewrite ret_run.
  rewrite bind_run, (get_prop_object _ _ _ _ Hr).
  rewrite bind_run, (set_prop_object _ _ _ _ _ Hr).
  fold (base_url_of c). fold c1.
  assert (heap (with_heap (<[r:=c1]> (heap w)) w) !! r = Some c1) as Hr1.
  { simpl. apply list_lookup_insert_eq. by eapply lookup_lt_Some. }
  rewrite bind_run, (spread_object _ _ _ Hr1).
  rewrite bind_run. unfold new_object at 1. rewrite bind_run. unfold alloc at 1.
  rewrite ret_run. fold cfg. unfold APIBase_constructor. cbn [heap with_heap].
  set (w2 := with_heap _ _).
  assert (heap w2 !! length (<[r:=c1]> (heap w)) = Some cfg) as Hcfg.
  { subst w2. simpl. apply lookup_alloc. }
  repeat rewrite bind_run, (get_prop_object _ _ _ _ Hcfg).
  unfold alloc. subst w2. simpl. rewrite length_app, length_insert. simpl.
  by rewrite Nat.add_1_r.
Qed.

Lemma Futures_constructor_omitted apiKey apiSecret w :
  Futures_constructor apiKey apiSecret VUndef w =
  Futures_constructor apiKey apiSecret (VRef (length (heap w)))
    (with_heap (heap w ++ [Cell None []])%list w).
Proof.
  unfold Futures_constructor.
  rewrite !bind_run, !default_param_const. cbn [default_param].
  by rewrite !bind_run, !default_param_const.
Qed.

Lemma base_url_of_config c (fields : props) :
  wf_cell c ->
  let c1 := set_named "baseURL" (base_url_of c) c in
  get_named (set_all (fields ++ own_props c1)%list (Cell None [])) "baseURL"
  = Some (base_url_of c).
Proof.
  intros Hwf c1. apply get_named_set_all; [done|].
  apply assoc_spread; [by apply wf_set_named | apply assoc_set_assoc_eq].
Qed.

(** C8.  The client built with an options object keeps the [baseURL] of the
    object when it is truthy and ["https://fapi.binance.com"] when the object
    has none or a falsy one; built without options it keeps
    ["https://fapi.binance.com"]. *)
Theorem constructor_base_url apiKey apiSecret w :
  (forall r c,
     heap w !! r = Some c -> wf_cell c ->
     exists this w' c',
       Futures_constructor apiKey apiSecret (VRef r) w = (Ok this, w') /\
       heap w' !! this = Some c' /\
       get_named c' "baseURL" =
         Some (let b := default VUndef (get_named c "baseURL") in
               if truthy b then b else VStr "https://fapi.binance.com"))
  /\ exists this w' c',
       Futures_constructor apiKey apiSecret VUndef w = (Ok this, w') /\
       heap w' !! this = Some c' /\
       get_named c' "baseURL" = Some (VStr "https://fapi.binance.com").
Proof.
  assert (forall w r c,
     heap w !! r = Some c -> wf_cell c ->
     exists this w' c',
       Futures_constructor apiKey apiSecret (VRef r) w = (Ok this, w') /\
       heap w' !! this = Some c' /\
       get_named c' "baseURL" = Some (base_url_of c)) as Hobj.
  { clear w. intros w r c Hr Hwf.
    rewrite (Futures_constructor_object _ _ _ _ _ Hr).
    eexists _, _, _. split_and!; [reflexivity | |].
    - cbn [heap with_heap].
      match goal with |- (?h ++ [_])%list !! _ = _ => set (h' := h) end.
      replace (S (length (heap w))) with (length h'); [apply lookup_alloc|].
      subst h'. rewrite length_app, length_insert. simpl. lia.
    - rewrite (base_url_of_config c _ Hwf). reflexivity. }
  split.
  - intros r c Hr Hwf. apply (Hobj w r c Hr Hwf).
  - rewrite Futures_constructor_omitted.
    destruct (Hobj (with_heap (heap w ++ [Cell None []])%list w) (length (heap w))
                (Cell None [])) as (this & w' & c' & Hrun & Hc' & Hb).
    + apply lookup_alloc.
    + apply NoDup_nil_2.
    + exists this, w', c'. split_and!; done.
Qed.

Lemma constructor_base_url_witness :
  exists this w' c',
    Futures_constructor (VStr "key") (VStr "secret") (VRef 0%nat)
      (World [Cell None [("baseURL", VStr "https://testnet.binancefuture.com");
                         ("timeout", VNum 1000)]] [] [])
      = (Ok this, w') /\
    heap w' !! this = Some c' /\
    get_named c' "baseURL" = Some (VStr "https://testnet.binancefuture.com").
Proof.
  apply (proj1 (constructor_base_url (VStr "key") (VStr "secret")
                  (World [Cell None [("baseURL", VStr "https://testnet.binancefuture.com");
                                     ("timeout", VNum 1000)]] [] []))
               0%nat
               (Cell None [("baseURL", VStr "https://testnet.binancefuture.com");
                           ("timeout", VNum 1000)])).
  - reflexivity.
  - unfold wf_cell. simpl. compute_done.
Defined.

Lemma constructor_writes_options apiKey apiSecret r c w :
  heap w !! r = Some c ->
  exists this w' c',
    Futures_constructor apiKey apiSecret (VRef r) w = (Ok this, w') /\
    heap w' !! r = Some c' /\
    get_named c' "baseURL" = Some (base_url_of c).
Proof.
  intros Hr. rewrite (Futures_constructor_object _ _ _ _ _ Hr).
  eexists _, _, _. split_and!; [reflexivity | |].
  - cbn [heap with_heap]. apply lookup_app_l_Some, lookup_app_l_Some.
    apply list_lookup_insert_eq. by eapply lookup_lt_Some.
  - rewrite get_named_assoc by done. apply assoc_set_assoc_eq.
Qed.

(** ** Symbol normalisation *)

Lemma hasOwnProperty_object w r c k :
  heap w !! r = Some c ->
  hasOwnProperty (VRef r) k w = (Ok (bool_decide (is_Some (get_named c k))), w).
Proof. intros Hr. simpl. rewrite bind_run. unfold read_cell. by rewrite Hr. Qed.

Lemma get_named_set_named_ne c k k' v :
  String.eqb k k' = false -> get_named (set_named k' v c) k = get_named c k.
Proof.
  intros Hne. unfold get_named, set_named. simpl.
  by rewrite assoc_set_assoc_ne.
Qed.

(** The run of [exchangeInfo] on options that hold a [symbol] string and no
    [symbols]. *)
Lemma exchangeInfo_symbol_run this r c s w :
  heap w !! r = Some c ->
  get_named c "symbol" = Some (VStr s) ->
  get_named c "symbols" = None ->
  Market.exchangeInfo this (VRef r) w =
  (Ok (length (net w)),
   World (<[r := set_named "symbol" (VStr (upper s)) c]> (heap w)) (globals w)
         (net w ++ [Request false "GET" "/fapi/v1/exchangeInfo" (VRef r)])%list).
Proof.
  intros Hr Hs Hss. unfold Market.exchangeInfo.
  rewrite bind_run. cbn [default_param]. rewrite ret_run.
  rewrite bind_run, (hasOwnProperty_object _ _ _ _ Hr), Hs.
  replace (bool_decide (is_Some (Some (VStr s)))) with true by done.
  rewrite bind_run. cbn [when].
  rewrite bind_run, (get_prop_object _ _ _ _ Hr), Hs. cbn [default].
  rewrite bind_run.
  change (toUpperCase (id (VStr s)) w) with (@Ok value (VStr (upper s)), w).
  cbv beta iota. rewrite (set_prop_object _ _ _ _ _ Hr).
  set (c1 := set_named "symbol" (VStr (upper s)) c).
  assert (heap (with_heap (<[r:=c1]> (heap w)) w) !! r = Some c1) as Hr1.
  { simpl. apply list_lookup_insert_eq. by eapply lookup_lt_Some. }
  rewrite bind_run, (hasOwnProperty_object _ _ _ _ Hr1).
  subst c1. rewrite get_named_set_named_ne, Hss by done.
  replace (bool_decide (is_Some None)) with false.
  - reflexivity.
  - symmetry. apply bool_decide_eq_false. by intros [? ?].
Qed.

Lemma upper_ascii_other b : is_ascii b = false -> upper_ascii b = b.
Proof.
  unfold is_ascii, upper_ascii. intros H%Nat.ltb_ge.
  destruct (Nat.leb_spec (nat_of_ascii b) 122) as [Hle|Hgt]; [lia|].
  by rewrite andb_false_r.
Qed.

(** The model's [upper] is one upper-casing of the string. *)
Lemma upper_cased_upper s : upper_cased s (upper s).
Proof.
  induction s as [|a s IH]; simpl; [constructor|].
  destruct (is_ascii a) eqn:E.
  - by constructor.
  - rewrite (upper_ascii_other a E).
    apply (upper_cased_other a (String a EmptyString) s (upper s) E IH).
Qed.

(** On a string of ASCII characters the upper-casing is [upper]. *)
Lemma upper_cased_ascii_only s s' :
  ascii_only s = true -> upper_cased s s' -> s' = upper s.
Proof.
  intros Ha Hu. induction Hu as [|a s s' Hascii Hu IH|b out s s' Hb Hu IH]; simpl in *.
  - done.
  - apply andb_prop in Ha as [_ Ha]. by rewrite IH.
  - apply andb_prop in Ha as [Ha _]. congruence.
Qed.

Lemma Forall2_upper_cased_upper ss : Forall2 upper_cased ss (map upper ss).
Proof. induction ss; constructor; [apply upper_cased_upper | done]. Qed.

Lemma mapM_toUpperCase_inv es w es' w' :
  mapM (fun symbol => toUpperCase symbol) es w = (Ok es', w') ->
  w' = w /\ exists ss, es = map VStr ss /\ es' = map (fun s => VStr (upper s)) ss.
Proof.
  revert es' w'. induction es as [|e es IH]; intros es' w'; simpl.
  - rewrite ret_run. intros [= <- <-]. split; [done|]. by exists [].
  - intros H. apply bind_Ok_inv in H as (y & w1 & Hy & H).
    apply toUpperCase_inv in Hy as [-> (s & -> & ->)].
    apply bind_Ok_inv in H as (ys & w2 & Hys & H).
    apply IH in Hys as [-> (ss & -> & ->)].
    rewrite ret_run in H. injection H as <- <-. split; [done|]. by exists (s :: ss).
Qed.

Lemma get_named_set_named_eq c k v :
  String.eqb k "length" = false -> get_named (set_named k v c) k = Some v.
Proof.
  intros Hk. rewrite get_named_assoc by done. apply assoc_set_assoc_eq.
Qed.

(** What a run of [exchangeInfo] on an options object that returned has done:
    the object itself was sent; an own [symbol] was a string and is now its
    [upper]; an own [symbols] was an array of strings and is now a new array
    of their [upper]. *)
Lemma exchangeInfo_Ok_inv this (r : loc) c w p w' :
  heap w !! r = Some c ->
  Market.exchangeInfo this (VRef r) w = (Ok p, w') ->
  exists c',
    net w' = (net w ++ [Request false "GET" "/fapi/v1/exchangeInfo" (VRef r)])%list /\
    heap w' !! r = Some c' /\
    (forall v, get_named c "symbol" = Some v ->
       exists s, v = VStr s /\ get_named c' "symbol" = Some (VStr (upper s))) /\
    (forall v, get_named c "symbols" = Some v ->
       exists (a : loc) ca ss (a' : loc),
         v = VRef a /\ heap w !! a = Some ca /\ c_elems ca = Some (map VStr ss) /\
         get_named c' "symbols" = Some (VRef a') /\
         heap w' !! a' = Some (Cell (Some (map (fun s => VStr (upper s)) ss)) [])) /\
    (get_named c "symbol" = None -> get_named c "symbols" = None -> heap w' = heap w).
Proof.
  intros Hr Hrun. unfold Market.exchangeInfo in Hrun.
  rewrite bind_run in Hrun. cbn [default_param] in Hrun. rewrite ret_run in Hrun.
  rewrite bind_run, (hasOwnProperty_object _ _ _ _ Hr) in Hrun.
  (* the symbol *)
  assert (exists c1 w1,
    heap w1 !! r = Some c1 /\ net w1 = net w /\
    length (heap w1) = length (heap w) /\
    c_elems c1 = c_elems c /\
    get_named c1 "symbols" = get_named c "symbols" /\
    (forall v, get_named c "symbol" = Some v ->
       exists s, v = VStr s /\ get_named c1 "symbol" = Some (VStr (upper s))) /\
    (forall (a : loc) ca1, heap w1 !! a = Some ca1 ->
       exists ca, heap w !! a = Some ca /\ c_elems ca = c_elems ca1) /\
    (get_named c "symbol" = None -> heap w1 = heap w) /\
    (has_symbols ← hasOwnProperty (VRef r) "symbols";
     when has_symbols (
       symbols ← get_prop (VRef r) "symbols";
       symbols ← array_map (fun symbol => toUpperCase symbol) symbols;
       set_prop (VRef r) "symbols" symbols);;
     publicRequest this "GET" "/fapi/v1/exchangeInfo" (VRef r)) w1 = (Ok p, w'))
    as (c1 & w1 & Hr1 & Hn1 & Hl1 & He1 & Hss1 & Hs1 & Hold1 & Hsame1 & Hrest).
  { destruct (get_named c "symbol") as [v|] eqn:Hs.
    - replace (bool_decide (is_Some (Some v))) with true in Hrun by done.
      rewrite bind_run in Hrun. cbn [when] in Hrun.
      rewrite bind_run, (get_prop_object _ _ _ _ Hr), Hs in Hrun. cbn [default id] in Hrun.
      rewrite bind_run in Hrun.
      destruct v; try (cbn [toUpperCase] in Hrun; discriminate Hrun).
      cbn [toUpperCase] in Hrun. rewrite ret_run in Hrun.
      rewrite (set_prop_object _ _ _ _ _ Hr) in Hrun.
      eexists _, _. split_and!; [| | | | | | | | exact Hrun].
      + simpl. apply list_lookup_insert_eq. by eapply lookup_lt_Some.
      + done.
      + simpl. apply length_insert.
      + done.
      + by apply get_named_set_named_ne.
      + intros v [= <-]. eexists. split; [done|]. by apply get_named_set_named_eq.
      + intros a ca1. simpl. destruct (decide (a = r)) as [->|Hne].
        * rewrite list_lookup_insert_eq by by eapply lookup_lt_Some.
          intros [= <-]. by exists c.
        * rewrite list_lookup_insert_ne by done. eauto.
      + discriminate.
    - replace (bool_decide (is_Some None)) with false in Hrun
        by (symmetry; apply bool_decide_eq_false; by intros [? ?]).
      rewrite bind_run in Hrun. cbn [when] in Hrun. rewrite ret_run in Hrun.
      exists c, w. split_and!; try done. eauto. }
  clear Hrun.
  (* the symbols *)
  rewrite bind_run, (hasOwnProperty_object _ _ _ _ Hr1), Hss1 in Hrest.
  destruct (get_named c "symbols") as [v|] eqn:Hss.
  - replace (bool_decide (is_Some (Some v))) with true in Hrest by done.
    rewrite bind_run in Hrest. cbn [when] in Hrest.
    rewrite bind_run, (get_prop_object _ _ _ _ Hr1), Hss1 in Hrest.
    cbn [default id] in Hrest.
    apply bind_Ok_inv in Hrest as (u & w3 & Hwhen & Hreq).
    apply bind_Ok_inv in Hwhen as (x & w2 & Hmap & Hset).
    destruct v as [| | | | |a]; try (cbn [array_map] in Hmap; discriminate Hmap).
    cbn [array_map] in Hmap.
    apply bind_Ok_inv in Hmap as (ca1 & w1' & Hread & Hmap).
    unfold read_cell in Hread. destruct (heap w1 !! a) as [ca1'|] eqn:Ha1; [|discriminate].
    injection Hread as -> <-.
    destruct (c_elems ca1) as [es|] eqn:Hes; [|discriminate Hmap].
    apply bind_Ok_inv in Hmap as (es' & w1b & Hm & Hnew).
    apply mapM_toUpperCase_inv in Hm as [-> (ss & -> & ->)].
    unfold new_array in Hnew. rewrite bind_run in Hnew. unfold alloc in Hnew.
    rewrite ret_run in Hnew. injection Hnew as <- <-.
    assert (heap (with_heap
              (heap w1 ++ [Cell (Some (map (fun s => VStr (upper s)) ss)) []])%list w1)
              !! r = Some c1) as Hr2.
    { simpl. by apply lookup_app_l_Some. }
    rewrite (set_prop_object _ _ _ _ _ Hr2) in Hset. injection Hset as <- <-.
    apply publicRequest_inv in Hreq as [Hh Hn]. simpl in Hh, Hn.
    destruct (Hold1 a ca1 Ha1) as (ca & Ha & Hca).
    assert (r < length (heap w1))%nat as Hlt by by eapply lookup_lt_Some.
    eexists. split_and!.
    + by rewrite Hn, Hn1.
    + rewrite Hh. apply list_lookup_insert_eq. rewrite length_app. lia.
    + intros v Hv. destruct (Hs1 v Hv) as (s & -> & Hc1). exists s. split; [done|].
      by rewrite get_named_set_named_ne.
    + intros v [= <-]. exists a, ca, ss, (length (heap w1)).
      split_and!; [done | done | congruence | by apply get_named_set_named_eq |].
      rewrite Hh, list_lookup_insert_ne by lia. apply lookup_alloc.
    + discriminate.
  - replace (bool_decide (is_Some None)) with false in Hrest
      by (symmetry; apply bool_decide_eq_false; by intros [? ?]).
    rewrite bind_run in Hrest. cbn [when] in Hrest. rewrite ret_run in Hrest.
    apply publicRequest_inv in Hrest as [Hh Hn].
    exists c1. split_and!.
    + by rewrite Hn, Hn1.
    + by rewrite Hh.
    + done.
    + discriminate.
    + intros Hnone _. rewrite Hh. by apply Hsame1.
Qed.




(** ** The caller's options object, written in place *)

Lemma operations_with_options_take_parameters :
  Forall (fun m =>
    m_options m = true -> String.eqb (m_name m) "exchangeInfo" = false ->
    m_params m <> [])
    all_methods.
Proof.
  unfold all_methods, Account.methods, Trade.methods, Trade2.methods, Market.methods.
  repeat (apply Forall_cons; split;
    [ cbn [m_options m_name m_params]; intros Hopt Hname;
      first [discriminate Hopt | discriminate Hname | discriminate] | ]).
  apply Forall_nil_2.
Qed.

(** C9 (amended).  An operation other than [exchangeInfo] whose signature
    ends in [options = {}] and that is called with an object writes into that
    object: it has at least one positional parameter, the request that goes
    out carries the caller's object itself, and the object then holds every
    positional parameter of the call, as given or upper-cased.
    [exchangeInfo] sends the caller's object too, but writes into it only
    what the object already has: with no own [symbol] and no own [symbols]
    it leaves the heap as it is.  The constructor writes [baseURL] into the
    caller's options object. *)
Theorem options_object_mutated_in_place :
  (forall m this args r w p w',
     m ∈ all_methods ->
     m_options m = true ->
     String.eqb (m_name m) "exchangeInfo" = false ->
     arg (length (m_params m)) args = VRef r ->
     m_run m this args w = (Ok p, w') ->
     m_params m <> [] /\
     (exists q, net w' = (net w ++ [q])%list /\ r_params q = VRef r) /\
     forall i k, m_params m !! i = Some k ->
       exists c x,
         heap w' !! r = Some c /\ get_named c k = Some x /\
         (x = arg i args \/
          exists s s', arg i args = VStr s /\ upper_cased s s' /\ x = VStr s'))
  /\ (forall this (r : loc) c w p w',
        heap w !! r = Some c ->
        Market.exchangeInfo this (VRef r) w = (Ok p, w') ->
        net w' = (net w ++ [Request false "GET" "/fapi/v1/exchangeInfo" (VRef r)])%list /\
        (get_named c "symbol" = None -> get_named c "symbols" = None ->
         heap w' = heap w))
  /\ (forall apiKey apiSecret r c w,
        heap w !! r = Some c ->
        exists this w' c',
          Futures_constructor apiKey apiSecret (VRef r) w = (Ok this, w') /\
          heap w' !! r = Some c' /\
          get_named c' "baseURL" = Some (base_url_of c)).
Proof.
  split_and!.
  - intros m this args r w p w' Hm Hopt Hname Harg Hrun.
    destruct (proj1 (Forall_forall _ _) options_assigned_in_place_all m Hm Hopt
                this args r w p w' Harg Hrun) as [Hq Hfields].
    split_and!; [| done |].
    + by apply (proj1 (Forall_forall _ _) operations_with_options_take_parameters m Hm).
    + intros i k Hi. destruct (Hfields i k Hi) as (c & x & Hc & Hx & [->|(s & Hs & ->)]).
      * exists c, (arg i args). auto.
      * exists c, (VStr (upper s)). split_and!; [done | done |].
        right. exists s, (upper s). split_and!; [done | apply upper_cased_upper | done].
  - intros this r c w p w' Hr Hrun.
    destruct (exchangeInfo_Ok_inv this r c w p w' Hr Hrun) as (c' & Hn & _ & _ & _ & Hsame).
    done.
  - apply constructor_writes_options.
Qed.

Lemma options_object_mutated_in_place_witness :
  let args := [VStr "bnbusdt"; VStr "buy"; VStr "limit"; VNum 1; VRef 3%nat] in
  let run := Trade.newOrder client (VStr "bnbusdt") (VStr "buy") (VStr "limit")
               (VNum 1) (VRef 3%nat) order_world in
  (["symbol"; "side"; "type"; "timestamp"] <> [] /\
   (exists q, net run.2 = (net order_world ++ [q])%list /\ r_params q = VRef 3%nat) /\
   forall i k, ["symbol"; "side"; "type"; "timestamp"] !! i = Some k ->
     exists c x,
       heap run.2 !! 3%nat = Some c /\ get_named c k = Some x /\
       (x = arg i args \/
        exists s s', arg i args = VStr s /\ upper_cased s s' /\ x = VStr s'))
  /\ exists this w' c',
       Futures_constructor (VStr "key") (VStr "secret") (VRef 3%nat) order_world
         = (Ok this, w') /\
       heap w' !! 3%nat = Some c' /\
       get_named c' "baseURL" = Some (VStr "https://fapi.binance.com").
Proof.
  intros args run. split.
  - apply (proj1 options_object_mutated_in_place
             (Method "newOrder" ["symbol"; "side"; "type"; "timestamp"] true (call5 Trade.newOrder))
             client args 3%nat order_world 0%nat run.2).
    + apply (list_elem_of_lookup_2 _ 14%nat). reflexivity.
    + reflexivity.
    + reflexivity.
    + reflexivity.
    + reflexivity.
  - apply (proj2 (proj2 options_object_mutated_in_place) (VStr "key") (VStr "secret") 3%nat
             (Cell None [("price", VStr "350"); ("quantity", VNum 1);
                         ("timeInForce", VStr "GTC")]) order_world).
    reflexivity.
Defined.

(** C9 (counterexample).  [exchangeInfo({limit: 5})] accepts the caller's
    options object and writes nothing into it: the object is sent as it
    is. *)
Lemma exchangeInfo_leaves_options :
  let w := World [Cell None [("limit", VNum 5)]] [] [] in
  Market.exchangeInfo client (VRef 0%nat) w
  = (Ok 0%nat,
     World [Cell None [("limit", VNum 5)]] []
           [Request false "GET" "/fapi/v1/exchangeInfo" (VRef 0%nat)]).
Proof. reflexivity. Qed.

(** ** The configuration of the client *)

Lemma own_method_elem body name m : own_method body name = Some m -> m ∈ body.
Proof.
  unfold own_method. intros [Hin _]%find_some.
  by apply list_elem_of_In, in_rev.
Qed.

Lemma resolve_elem c name m :
  resolve c name = Some m -> exists body, body ∈ c /\ m ∈ body.
Proof.
  induction c as [|body c IH]; simpl; [done|].
  destruct (own_method body name) as [m'|] eqn:E.
  - intros [= ->]. exists body. split; [apply list_elem_of_here | by eapply own_method_elem].
  - intros (b & Hb & Hm)%IH. exists b. split; [by apply list_elem_of_further | done].
Qed.

Lemma Futures_bodies restfulModules body :
  Forall (fun f => f ∈ mixins) restfulModules ->
  body ∈ Futures restfulModules -> body ∈ bodies.
Proof.
  unfold Futures, APIBase. induction 1 as [|f fs Hf Hfs IH]; simpl.
  - by intros ?%elem_of_nil.
  - apply list_elem_of_In in Hf. simpl in Hf.
    destruct Hf as [<- | [<- | [<- | [<- | []]]]];
      intros [->|Hb]%elem_of_cons; auto;
      unfold bodies; apply list_elem_of_In; simpl; tauto.
Qed.

Lemma bodies_all_methods body m : body ∈ bodies -> m ∈ body -> m ∈ all_methods.
Proof.
  intros Hb Hm. apply list_elem_of_In in Hb. simpl in Hb. unfold all_methods.
  rewrite !elem_of_app. destruct Hb as [<- | [<- | [<- | [<- | []]]]]; tauto.
Qed.

Lemma invoke_framed restfulModules name this args :
  Forall (fun f => f ∈ mixins) restfulModules ->
  framed written (invoke (Futures restfulModules) name this args).
Proof.
  intros Hrm. unfold invoke.
  destruct (resolve (Futures restfulModules) name) as [m|] eqn:E.
  - apply resolve_elem in E as (body & Hb & Hm).
    apply (proj1 (Forall_forall _ _) all_methods_framed).
    eapply bodies_all_methods; [|done]. by eapply Futures_bodies.
  - apply framed_stateless, stateless_throw.
Qed.

Lemma run_calls_frame restfulModules this calls w :
  Forall (fun f => f ∈ mixins) restfulModules ->
  frame written w (run_calls (Futures restfulModules) this calls w).
Proof.
  intros Hrm. revert w. induction calls as [|[name args] calls IH]; intros w; simpl.
  - apply frame_refl.
  - destruct (invoke (Futures restfulModules) name this args w) as [r w1] eqn:E.
    eapply frame_trans; [|apply IH]. by eapply invoke_framed.
Qed.

Lemma frame_config this w w' :
  frame written w w' -> is_Some (heap w !! this) -> config this w' = config this w.
Proof.
  intros [_ Hf] [c Hc]. destruct (Hf this c Hc) as (c' & Hc' & He & Hp).
  unfold config, loc in *. rewrite Hc, Hc'. unfold config_names. simpl.
  rewrite !get_named_assoc by done. by rewrite !Hp.
Qed.

(** C6.  Whatever operations are called on the client, with whatever
    arguments (the client object itself included), and whether they return
    or throw, the API key, the API secret, the base URL and the timeout of
    the client stay what construction made them. *)
Theorem config_immutable restfulModules this calls w :
  Forall (fun f => f ∈ mixins) restfulModules ->
  is_Some (heap w !! this) ->
  config this (run_calls (Futures restfulModules) this calls w) = config this w.
Proof.
  intros Hrm Hthis. apply frame_config; [|done]. by apply run_calls_frame.
Qed.

Lemma config_immutable_witness :
  config client
    (run_calls (Futures registry) client
       [("newOrder", [VStr "btcusdt"; VStr "buy"; VStr "limit"; VNum 1; VRef client]);
        ("exchangeInfo", [VRef client]);
        ("futuresAccountBalanceV3", []);
        ("ping", [])]
       client_world)
  = config client client_world.
Proof.
  apply (config_immutable registry client).
  - repeat (apply Forall_cons; split; [apply list_elem_of_In; simpl; tauto|]).
    apply Forall_nil_2.
  - eexists. reflexivity.
Defined.

(** ** The definitions of a name *)

Lemma resolve_app c1 c2 name :
  resolve (c1 ++ c2)%list name =
  match resolve c1 name with
  | Some m => Some m
  | None => resolve c2 name
  end.
Proof.
  induction c1 as [|b c1 IH]; simpl; [done|].
  by destruct (own_method b name).
Qed.

(** C4 (code defect).  The class body of the first trade file defines
    [newOrder] twice.  The name is bound to the later definition, the test
    order: a [newOrder] call on an instance of this class goes to
    [POST /fapi/v1/order/test], and the earlier definition, which sends
    [POST /fapi/v1/order], cannot be reached by its name.  No two of the
    Account, Trade and Market class bodies define the same name. *)
Theorem trade_newOrder_defined_twice :
  length (definitions [Trade.methods] "newOrder") = 2%nat
  /\ invoke [Trade.methods] "newOrder" client
       [VStr "btcusdt"; VStr "buy"; VStr "limit"; VNum 1] client_world
     = (Ok 0%nat,
        World (heap client_world ++
               [Cell None [("symbol", VStr "BTCUSDT"); ("side", VStr "BUY");
                           ("type", VStr "LIMIT"); ("timestamp", VNum 1)]])%list
              [] [Request true "POST" "/fapi/v1/order/test" (VRef 3%nat)])
  /\ Trade.newOrder client (VStr "btcusdt") (VStr "buy") (VStr "limit") (VNum 1) VUndef
       client_world
     = (Ok 0%nat,
        World (heap client_world ++
               [Cell None [("symbol", VStr "BTCUSDT"); ("side", VStr "BUY");
                           ("type", VStr "LIMIT"); ("timestamp", VNum 1)]])%list
              [] [Request true "POST" "/fapi/v1/order" (VRef 3%nat)])
  /\ Forall (fun n => (n ∉ names Trade.methods) /\ (n ∉ names Market.methods))
            (names Account.methods)
  /\ Forall (fun n => n ∉ names Market.methods) (names Trade.methods).
Proof.
  split_and!; [reflexivity | reflexivity | reflexivity | |].
  - unfold names. simpl.
    repeat (apply Forall_cons; split; [split; compute_done|]). apply Forall_nil_2.
  - unfold names. simpl.
    repeat (apply Forall_cons; split; [compute_done|]). apply Forall_nil_2.
Qed.

(** ** The request signer *)

#[local] Arguments String.append !_ _ / : simpl nomatch.

Lemma no_char_app x a b : no_char x (a ++ b) = no_char x a && no_char x b.
Proof.
  induction a as [|y a IH]; simpl; [done|]. rewrite IH. by rewrite andb_assoc.
Qed.

(** A string is cut at the first occurrence of a separator in one way. *)
Lemma split_unique x a b c d :
  no_char x a = true -> no_char x c = true ->
  a ++ String x b = c ++ String x d -> a = c /\ b = d.
Proof.
  revert c. induction a as [|y a IH]; intros [|z c]; simpl.
  - intros _ _ [= ->]. done.
  - intros _ [Hz _]%andb_prop [= <- _]. by rewrite Ascii.eqb_refl in Hz.
  - intros [Hy _]%andb_prop _ [= -> _]. by rewrite Ascii.eqb_refl in Hy.
  - intros [_ Ha]%andb_prop [_ Hc]%andb_prop [= -> H].
    destruct (IH c Ha Hc H) as [-> ->]. done.
Qed.

Lemma no_split x a c d : no_char x a = true -> a <> c ++ String x d.
Proof.
  intros Ha E. rewrite E, no_char_app in Ha. simpl in Ha.
  rewrite Ascii.eqb_refl in Ha. simpl in Ha. by rewrite andb_false_r in Ha.
Qed.




Lemma append_nil_r a : a ++ "" = a.
Proof. induction a as [|x a IH]; simpl; [done|]. by rewrite IH. Qed.


Lemma canonical_cons k v rest :
  canonical ((k, v) :: rest) = k ++ "=" ++ v ++ rest_of rest.
Proof.
  destruct rest as [|kv rest]; simpl; [|done].
  f_equal. f_equal. clear. induction v as [|x v IH]; simpl; [done|]. by rewrite <- IH.
Qed.



(** On parameters free of the separators, the canonical string determines
    the parameters and their order. *)
Lemma canonical_inj p q :
  Forall (fun kv => wire_safe kv = true) p ->
  Forall (fun kv => wire_safe kv = true) q ->
  canonical p = canonical q -> p = q.
Proof.
  intros Hp. revert q. induction Hp as [|[k v] p Hkv Hp IH]; intros q Hq.
  - destruct Hq as [|[k' v'] q _ _]; [done|].
    rewrite canonical_cons. simpl. by destruct k'.
  - destruct Hq as [|[k' v'] q Hkv' Hq].
    { rewrite canonical_cons. simpl. by destruct k. }
    rewrite !canonical_cons. simpl.
    unfold wire_safe in Hkv, Hkv'. simpl in Hkv, Hkv'.
    apply andb_prop in Hkv as [[Hk1 Hk2]%andb_prop Hv].
    apply andb_prop in Hkv' as [[Hk1' Hk2']%andb_prop Hv'].
    intros [-> E]%split_unique; [|done..].
    destruct p as [|kv p], q as [|kv' q]; simpl in E.
    + rewrite !append_nil_r in E. by subst.
    + exfalso. rewrite append_nil_r in E. simpl in E. by eapply (no_split "&" v).
    + exfalso. rewrite append_nil_r in E. simpl in E. symmetry in E.
      by eapply (no_split "&" v').
    + apply split_unique in E as [-> E]; [|done..].
      f_equal. apply IH; [done | done].
Qed.






(** ** One request for a call that returns, none for one that throws *)

Lemma quiet_alloc c : quiet (alloc c).
Proof. intros w r w'. by inversion 1. Qed.

Lemma quiet_new_object fields : quiet (new_object fields).
Proof.
  apply quiet_bind; [apply quiet_alloc|]. intros r. apply quiet_stateless, stateless_ret.
Qed.

Lemma quiet_write_cell r c : quiet (write_cell r c).
Proof. intros w x w'. by inversion 1. Qed.

Lemma quiet_Object_assign target fields : quiet (Object_assign target fields).
Proof.
  destruct target; simpl;
    repeat first
      [ apply quiet_alloc | apply quiet_write_cell
      | apply quiet_stateless;
        first [apply stateless_throw | apply stateless_ret | apply stateless_read_cell]
      | apply quiet_bind; [| intros ?] ].
Qed.

Lemma one_request_bind {A} (m : M A) (f : A -> M promise) :
  quiet m -> (forall a, one_request (f a)) -> one_request (m ≫= f).
Proof.
  intros Hm Hf w r w'. rewrite bind_run.
  destruct (m w) as [[a|e] w1] eqn:E; apply Hm in E.
  - intros H. apply Hf in H. by rewrite E in H.
  - intros H. by inversion H; subst.
Qed.

Lemma one_request_dispatch signed method path params :
  one_request (dispatch signed method path params).
Proof. intros w r w'. inversion 1; subst. simpl. eauto. Qed.

Lemma one_request_publicRequest this method path params :
  one_request (publicRequest this method path params).
Proof. apply one_request_dispatch. Qed.

Lemma one_request_signRequest this method path params :
  one_request (signRequest this method path params).
Proof.
  apply one_request_bind; [apply quiet_stateless, stateless_get_prop|].
  intros s. destruct (is_missing s); [|apply one_request_dispatch].
  intros w r w'. by inversion 1.
Qed.

(** One step of the syntactic proof that a method body dispatches in its last
    step only. *)
Ltac one_request_step :=
  first
    [ apply one_request_publicRequest
    | apply one_request_signRequest
    | apply one_request_bind;
      [ first
          [ apply default_param_quiet
          | apply quiet_Object_assign
          | apply quiet_new_object
          | apply quiet_when; quiet_body
          | apply quiet_stateless;
            first [ apply stateless_validate | apply stateless_toUpperCase
                  | apply stateless_global | apply stateless_get_prop
                  | apply stateless_hasOwnProperty | apply stateless_loop_bound
                  | apply stateless_for_loop; intros ?; stateless_body ] ]
      | intros ? ] ].

Lemma all_methods_one_request :
  Forall (fun m => forall this args, one_request (m_run m this args)) all_methods.
Proof.
  unfold all_methods, Account.methods, Trade.methods, Trade2.methods, Market.methods.
  repeat (apply Forall_cons; split;
    [ intros this args; cbn [m_run];
      unfold call0, call1, call2, call3, call4, call5, call6;
      match goal with |- one_request ?m => let h := head_of m in unfold h end;
      repeat one_request_step | ]).
  apply Forall_nil_2.
Qed.

(** X1.  Whatever the operation and the arguments, a call that returns has
    dispatched exactly one request, whose promise it returns, and a call that
    throws (whatever the error) has dispatched none. *)
Theorem call_dispatches_once_or_never m this args w r w' :
  m ∈ all_methods ->
  m_run m this args w = (r, w') ->
  match r with
  | Ok p => p = length (net w) /\ exists q, net w' = (net w ++ [q])%list
  | Throw _ => net w' = net w
  end.
Proof.
  intros Hm.
  exact (proj1 (Forall_forall _ _) all_methods_one_request m Hm this args w r w').
Qed.

Lemma call_dispatches_once_or_never_witness :
  let run := Trade.newOrder client (VStr "btcusdt") (VNum 1) (VStr "limit") (VNum 1)
               VUndef client_world in
  match run.1 with
  | Ok p => p = length (net client_world) /\
            exists q, net run.2 = (net client_world ++ [q])%list
  | Throw _ => net run.2 = net client_world
  end.
Proof.
  apply (call_dispatches_once_or_never
           (Method "newOrder" ["symbol"; "side"; "type"; "timestamp"] true
              (call5 Trade.newOrder))
           client [VStr "btcusdt"; VNum 1; VStr "limit"; VNum 1] client_world).
  - apply (list_elem_of_lookup_2 _ 14%nat). reflexivity.
  - reflexivity.
Defined.

(** ** The dispatch path of each file *)

(** X2.  In the Account mixin, the first trade file and the Market mixin the
    dispatch path follows the verb alone: the request of a call that returns
    is unsigned when its verb is [GET] and signed when it is [POST], [PUT] or
    [DELETE]. *)
Theorem path_follows_verb m this args w p w' :
  m ∈ (Account.methods ++ Trade.methods ++ Market.methods)%list ->
  m_run m this args w = (Ok p, w') ->
  exists q, net w' = (net w ++ [q])%list /\
            r_signed q = negb (String.eqb (r_method q) "GET").
Proof.
  intros Hm.
  exact (proj1 (Forall_forall _ _) registry_dispatch_by_verb m Hm this args w p w').
Qed.

Lemma path_follows_verb_witness :
  exists q,
    net (Trade.cancelOrder client (VStr "btcusdt") (VNum 1) VUndef client_world).2
      = (net client_world ++ [q])%list /\
    r_signed q = negb (String.eqb (r_method q) "GET").
Proof.
  apply (path_follows_verb
           (Method "cancelOrder" ["symbol"; "timestamp"] true (call3 Trade.cancelOrder))
           client [VStr "btcusdt"; VNum 1] client_world 0%nat).
  - apply (list_elem_of_lookup_2 _ 19%nat). reflexivity.
  - reflexivity.
Defined.

(** X3.  Every operation of the second trade file is dispatched on the signed
    path, its [GET] queries included. *)
Theorem second_trade_file_signs m this args w p w' :
  m ∈ Trade2.methods ->
  m_run m this args w = (Ok p, w') ->
  exists q, net w' = (net w ++ [q])%list /\ r_signed q = true.
Proof.
  intros Hm.
  exact (proj1 (Forall_forall _ _) trade2_signed m Hm this args w p w').
Qed.

Lemma second_trade_file_signs_witness :
  exists q,
    net (Trade2.queryAllOrders client (VStr "btcusdt") (VNum 1) VUndef client_world).2
      = (net client_world ++ [q])%list /\
    r_signed q = true.
Proof.
  apply (second_trade_file_signs
           (Method "queryAllOrders" ["symbol"; "timestamp"] true
              (call3 Trade2.queryAllOrders))
           client [VStr "btcusdt"; VNum 1] client_world 0%nat).
  - apply (list_elem_of_lookup_2 _ 10%nat). reflexivity.
  - reflexivity.
Defined.

(** ** Fail-fast validation of the declared parameters *)

(** X4.  For every operation outside [unvalidated] and every parameter of its
    signature: when the argument is undefined, null or the empty string, the
    call throws a [MissingParameterError] that names the parameter, and no
    request is dispatched. *)
Theorem missing_parameter_rejected m i k this args w :
  m ∈ all_methods ->
  mem (m_name m) unvalidated = false ->
  m_params m !! i = Some k ->
  is_missing (arg i args) = true ->
  exists names w',
    m_run m this args w = (Throw (MissingParameterError names), w')
    /\ k ∈ names /\ net w' = net w.
Proof.
  intros Hm Hname.
  exact (proj1 (Forall_forall _ _) validated_parameters_fail_fast m Hm Hname
           i k this args w).
Qed.

Lemma missing_parameter_rejected_witness :
  exists names w',
    Market.klines client (VStr "btcusdt") VNull VUndef client_world
      = (Throw (MissingParameterError names), w')
    /\ "interval" ∈ names /\ net w' = net client_world.
Proof.
  apply (missing_parameter_rejected
           (Method "klines" ["symbol"; "interval"] true (call3 Market.klines))
           1%nat "interval" client [VStr "btcusdt"; VNull] client_world).
  - apply (list_elem_of_lookup_2 _ 63%nat). reflexivity.
  - reflexivity.
  - reflexivity.
  - reflexivity.
Defined.

(** ** What a call leaves untouched *)

Lemma declared_parameters_framed :
  Forall (fun m =>
    String.eqb (m_name m) "exchangeInfo" = false ->
    forall this args, framed (m_params m) (m_run m this args))
    (Trade.methods ++ Trade2.methods ++ Market.methods)%list.
Proof.
  unfold Trade.methods, Trade2.methods, Market.methods. simpl app.
  repeat (apply Forall_cons; split;
    [ intros Hname this args; cbn [m_name] in Hname; try discriminate Hname;
      cbn [m_run m_params];
      unfold call0, call1, call2, call3, call4, call5, call6;
      match goal with |- framed _ ?m => let h := head_of m in unfold h end;
      repeat framed_step | ]).
  apply Forall_nil_2.
Qed.

(** X5.  A call of a Trade or Market operation other than [exchangeInfo],
    whether it returns or throws, changes in no object of the heap (the
    caller's options included) a property that is not named like a parameter
    of the operation's signature, changes the elements of no array, and
    leaves the global scope as it is: the optional parameters of the caller
    reach the request as they were given. *)
Theorem optional_parameters_untouched m this args w r w' :
  m ∈ (Trade.methods ++ Trade2.methods ++ Market.methods)%list ->
  String.eqb (m_name m) "exchangeInfo" = false ->
  m_run m this args w = (r, w') ->
  frame (m_params m) w w'.
Proof.
  intros Hm Hname.
  exact (proj1 (Forall_forall _ _) declared_parameters_framed m Hm Hname
           this args w r w').
Qed.

Lemma optional_parameters_untouched_witness :
  frame ["symbol"; "side"; "type"; "timestamp"] order_world
    (Trade.newOrder client (VStr "bnbusdt") (VStr "buy") (VStr "limit") (VNum 1)
       (VRef 3%nat) order_world).2.
Proof.
  apply (optional_parameters_untouched
           (Method "newOrder" ["symbol"; "side"; "type"; "timestamp"] true
              (call5 Trade.newOrder))
           client [VStr "bnbusdt"; VStr "buy"; VStr "limit"; VNum 1; VRef 3%nat]
           order_world (Ok 0%nat)).
  - apply (list_elem_of_lookup_2 _ 0%nat). reflexivity.
  - reflexivity.
  - reflexivity.
Defined.

(** ** [exchangeInfo]: the symbols of the options *)

(** X6.  [exchangeInfo] called with options that hold a [symbol] string (and
    no [symbols]) upper-cases the [symbol] of the caller's options in place
    and sends the options object itself on the unsigned path. *)
Theorem exchangeInfo_uppercases_symbol this r c s w :
  heap w !! r = Some c ->
  get_named c "symbol" = Some (VStr s) ->
  get_named c "symbols" = None ->
  exists s',
    upper_cased s s' /\
    Market.exchangeInfo this (VRef r) w =
    (Ok (length (net w)),
     World (<[r := set_named "symbol" (VStr s') c]> (heap w)) (globals w)
           (net w ++ [Request false "GET" "/fapi/v1/exchangeInfo" (VRef r)])%list).
Proof.
  intros Hr Hs Hss. exists (upper s). split; [apply upper_cased_upper|].
  by apply exchangeInfo_symbol_run.
Qed.

Lemma exchangeInfo_uppercases_symbol_witness :
  Market.exchangeInfo client (VRef 0%nat)
    (World [Cell None [("symbol", VStr "btcusdt")]] [] [])
  = (Ok 0%nat,
     World [Cell None [("symbol", VStr "BTCUSDT")]] []
           [Request false "GET" "/fapi/v1/exchangeInfo" (VRef 0%nat)]).
Proof.
  destruct (exchangeInfo_uppercases_symbol client 0%nat
              (Cell None [("symbol", VStr "btcusdt")]) "btcusdt"
              (World [Cell None [("symbol", VStr "btcusdt")]] [] [])
              eq_refl eq_refl eq_refl) as (s' & Hu & Hrun).
  apply upper_cased_ascii_only in Hu; [|reflexivity]. rewrite Hu in Hrun.
  exact Hrun.
Defined.

Lemma mapM_toUpperCase ss w :
  mapM (fun symbol => toUpperCase symbol) (map VStr ss) w
  = (Ok (map (fun s => VStr (upper s)) ss), w).
Proof.
  induction ss as [|s ss IH]; simpl; [done|].
  rewrite bind_run. cbn [toUpperCase]. rewrite ret_run, bind_run, IH. done.
Qed.

Lemma hasOwnProperty_absent w r c k :
  heap w !! r = Some c -> get_named c k = None ->
  hasOwnProperty (VRef r) k w = (Ok false, w).
Proof. intros Hr Hk. by rewrite (hasOwnProperty_object _ _ _ _ Hr), Hk. Qed.

Lemma hasOwnProperty_present w r c k v :
  heap w !! r = Some c -> get_named c k = Some v ->
  hasOwnProperty (VRef r) k w = (Ok true, w).
Proof. intros Hr Hk. by rewrite (hasOwnProperty_object _ _ _ _ Hr), Hk. Qed.

(** The run of [exchangeInfo] on options that hold a [symbols] array of
    strings and no [symbol]. *)
Lemma exchangeInfo_symbols_run this r c a ss ps w :
  heap w !! r = Some c ->
  get_named c "symbol" = None ->
  get_named c "symbols" = Some (VRef a) ->
  heap w !! a = Some (Cell (Some (map VStr ss)) ps) ->
  Market.exchangeInfo this (VRef r) w =
  (Ok (length (net w)),
   World (<[r := set_named "symbols" (VRef (length (heap w))) c]>
            (heap w ++ [Cell (Some (map (fun s => VStr (upper s)) ss)) []])%list)
         (globals w)
         (net w ++ [Request false "GET" "/fapi/v1/exchangeInfo" (VRef r)])%list).
Proof.
  intros Hr Hs Hss Ha. unfold Market.exchangeInfo.
  rewrite bind_run. cbn [default_param]. rewrite ret_run.
  rewrite bind_run, (hasOwnProperty_absent _ _ _ _ Hr Hs).
  rewrite bind_run. cbn [when]. rewrite ret_run.
  rewrite bind_run, (hasOwnProperty_present _ _ _ _ _ Hr Hss).
  rewrite bind_run. cbn [when].
  rewrite bind_run, (get_prop_object _ _ _ _ Hr), Hss. cbn [default id].
  rewrite bind_run. unfold array_map at 1.
  rewrite bind_run. unfold read_cell at 1. rewrite Ha. cbn [c_elems].
  rewrite bind_run, mapM_toUpperCase.
  unfold new_array. rewrite bind_run. unfold alloc at 1. rewrite ret_run.
  set (w1 := with_heap _ w).
  assert (heap w1 !! r = Some c) as Hr1.
  { subst w1. simpl. by apply lookup_app_l_Some. }
  rewrite (set_prop_object _ _ _ _ _ Hr1).
  reflexivity.
Qed.

(** X7.  [exchangeInfo] called with options that hold a [symbols] array of
    strings (and no [symbol]) builds a new array of the upper-cased strings,
    stores it as [symbols] in the caller's options object, and sends that
    object on the unsigned path; the caller's array is not written. *)
Theorem exchangeInfo_uppercases_symbols this r c a ss ps w :
  heap w !! r = Some c ->
  get_named c "symbol" = None ->
  get_named c "symbols" = Some (VRef a) ->
  heap w !! a = Some (Cell (Some (map VStr ss)) ps) ->
  exists ss',
    Forall2 upper_cased ss ss' /\
    Market.exchangeInfo this (VRef r) w =
    (Ok (length (net w)),
     World (<[r := set_named "symbols" (VRef (length (heap w))) c]>
              (heap w ++ [Cell (Some (map VStr ss')) []])%list)
           (globals w)
           (net w ++ [Request false "GET" "/fapi/v1/exchangeInfo" (VRef r)])%list).
Proof.
  intros Hr Hs Hss Ha. exists (map upper ss).
  split; [apply Forall2_upper_cased_upper|].
  rewrite map_map. by eapply exchangeInfo_symbols_run.
Qed.

Lemma exchangeInfo_uppercases_symbols_witness :
  exists ss',
    Forall2 upper_cased ["btcusdt"; "ethusdt"] ss' /\
    Market.exchangeInfo client (VRef 1%nat)
      (World [Cell (Some [VStr "btcusdt"; VStr "ethusdt"]) [];
              Cell None [("symbols", VRef 0%nat)]] [] [])
    = (Ok 0%nat,
       World [Cell (Some [VStr "btcusdt"; VStr "ethusdt"]) [];
              Cell None [("symbols", VRef 2%nat)];
              Cell (Some (map VStr ss')) []] []
             [Request false "GET" "/fapi/v1/exchangeInfo" (VRef 1%nat)]).
Proof.
  exact (exchangeInfo_uppercases_symbols client 1%nat
           (Cell None [("symbols", VRef 0%nat)]) 0%nat ["btcusdt"; "ethusdt"] []
           (World [Cell (Some [VStr "btcusdt"; VStr "ethusdt"]) [];
                   Cell None [("symbols", VRef 0%nat)]] [] [])
           eq_refl eq_refl eq_refl eq_refl).
Defined.

Lemma toUpperCase_not_string v w :
  (forall s, v <> VStr s) -> toUpperCase v w = (Throw TypeError, w).
Proof. intros Hv. destruct v; try reflexivity. by destruct (Hv s). Qed.

Lemma array_map_not_array f v w :
  not_array w v -> array_map f v w = (Throw TypeError, w).
Proof.
  destruct v; try reflexivity. intros (c & Hc & He). simpl.
  rewrite bind_run. unfold read_cell. by rewrite Hc, He.
Qed.

(** X8.  [exchangeInfo] throws a [TypeError], dispatches nothing and leaves
    the options as they were when the options hold an own [symbol] that is
    not a string (an explicit [undefined] included), or no [symbol] and a
    [symbols] that is not an array. *)
Theorem exchangeInfo_rejects this r c v w :
  heap w !! r = Some c ->
  (get_named c "symbol" = Some v /\ forall s, v <> VStr s) \/
  (get_named c "symbol" = None /\ get_named c "symbols" = Some v /\ not_array w v) ->
  Market.exchangeInfo this (VRef r) w = (Throw TypeError, w).
Proof.
  intros Hr H. unfold Market.exchangeInfo.
  rewrite bind_run. cbn [default_param]. rewrite ret_run.
  destruct H as [[Hs Hv] | (Hs & Hss & Hv)].
  - rewrite bind_run, (hasOwnProperty_present _ _ _ _ _ Hr Hs).
    rewrite bind_run. cbn [when].
    rewrite bind_run, (get_prop_object _ _ _ _ Hr), Hs. cbn [default id].
    rewrite bind_run, (toUpperCase_not_string _ _ Hv). done.
  - rewrite bind_run, (hasOwnProperty_absent _ _ _ _ Hr Hs).
    rewrite bind_run. cbn [when]. rewrite ret_run.
    rewrite bind_run, (hasOwnProperty_present _ _ _ _ _ Hr Hss).
    rewrite bind_run. cbn [when].
    rewrite bind_run, (get_prop_object _ _ _ _ Hr), Hss. cbn [default id].
    rewrite bind_run, (array_map_not_array _ _ _ Hv). done.
Qed.

Lemma exchangeInfo_rejects_witness :
  Market.exchangeInfo client (VRef 0%nat)
    (World [Cell None [("symbols", VStr "BTCUSDT,ETHUSDT")]] [] [])
  = (Throw TypeError, World [Cell None [("symbols", VStr "BTCUSDT,ETHUSDT")]] [] []).
Proof.
  apply (exchangeInfo_rejects client 0%nat
           (Cell None [("symbols", VStr "BTCUSDT,ETHUSDT")]) (VStr "BTCUSDT,ETHUSDT")).
  - reflexivity.
  - right. split_and!; [reflexivity | reflexivity | exact I].
Defined.

(** ** The constructor: options that are no object, and the spread *)

(** X9.  The constructor applies the default [{}] to an omitted options
    argument only: called with [null] or with a primitive (a string, a number,
    a boolean) as options it throws a [TypeError] and builds nothing. *)
Theorem constructor_rejects_options apiKey apiSecret options w :
  options <> VUndef ->
  (forall r, options <> VRef r) ->
  Futures_constructor apiKey apiSecret options w = (Throw TypeError, w).
Proof.
  intros Hu Hr. unfold Futures_constructor.
  rewrite bind_run, default_param_const.
  rewrite bind_run, default_param_const.
  destruct options; try done.
  by destruct (Hr l).
Qed.

Lemma constructor_rejects_options_witness :
  Futures_constructor (VStr "key") (VStr "secret") VNull empty_world
  = (Throw TypeError, empty_world).
Proof.
  apply (constructor_rejects_options (VStr "key") (VStr "secret") VNull empty_world).
  - discriminate.
  - discriminate.
Defined.

Lemma get_named_object c k : c_elems c = None -> get_named c k = assoc k (c_props c).
Proof. intros He. unfold get_named. by rewrite He. Qed.

(** What the object literal [{apiKey, apiSecret, ...options}] holds under a
    name, for a plain options object. *)
Lemma get_named_spread apiKey apiSecret c k :
  wf_cell c -> c_elems c = None ->
  get_named
    (set_all ([("apiKey", apiKey); ("apiSecret", apiSecret)] ++ own_props c)%list
       (Cell None [])) k
  = match get_named c k with
    | Some v => Some v
    | None => assoc k [("apiSecret", apiSecret); ("apiKey", apiKey)]
    end.
Proof.
  intros Hwf He.
  rewrite get_named_object by apply set_all_elems.
  rewrite assoc_set_all, rev_app_distr, assoc_app.
  unfold own_props. rewrite He, assoc_rev_NoDup by done.
  rewrite (get_named_object c) by done.
  destruct (assoc k (c_props c)); [done|]. simpl.
  by destruct (k =? "apiSecret")%string, (k =? "apiKey")%string.
Qed.

(** X10.  The configuration object that the constructor hands to the base
    class is [{apiKey, apiSecret, ...options}]: an own [apiKey] or
    [apiSecret] of the options replaces the credential given as argument
    (whose default is the empty string), and every other own property of the
    options except [baseURL] is copied as it is. *)
Theorem constructor_options_override_credentials apiKey apiSecret r c w :
  heap w !! r = Some c ->
  wf_cell c ->
  c_elems c = None ->
  exists this w' cfg,
    Futures_constructor apiKey apiSecret (VRef r) w = (Ok this, w') /\
    heap w' !! length (heap w) = Some cfg /\
    get_named cfg "apiKey"
      = Some (default (or_default apiKey (VStr "")) (get_named c "apiKey")) /\
    get_named cfg "apiSecret"
      = Some (default (or_default apiSecret (VStr "")) (get_named c "apiSecret")) /\
    forall k, k ∉ ["apiKey"; "apiSecret"; "baseURL"] ->
              get_named cfg k = get_named c k.
Proof.
  intros Hr Hwf He.
  rewrite (Futures_constructor_object _ _ _ _ _ Hr).
  set (c1 := set_named "baseURL" (base_url_of c) c).
  assert (wf_cell c1) as Hwf1 by by apply wf_set_named.
  assert (c_elems c1 = None) as He1 by done.
  assert (forall k, (k =? "baseURL")%string = false -> get_named c1 k = get_named c k)
    as Hc1.
  { intros k Hk. by apply get_named_set_named_ne. }
  eexists _, _, _. split_and!; [reflexivity | | | |].
  - cbn [heap with_heap]. apply lookup_app_l_Some.
    rewrite <- (length_insert (heap w) r c1). apply lookup_alloc.
  - rewrite get_named_spread, Hc1 by done. by destruct (get_named c "apiKey").
  - rewrite get_named_spread, Hc1 by done. by destruct (get_named c "apiSecret").
  - intros k Hk. rewrite get_named_spread by done.
    assert (k <> "apiKey" /\ k <> "apiSecret" /\ k <> "baseURL") as (H1 & H2 & H3).
    { rewrite !elem_of_cons in Hk. tauto. }
    rewrite Hc1 by by apply String.eqb_neq.
    destruct (get_named c k); [done|]. simpl.
    apply String.eqb_neq in H1, H2. by rewrite H1, H2.
Qed.

Lemma constructor_options_override_credentials_witness :
  exists this w' cfg,
    Futures_constructor (VStr "key") VUndef (VRef 0%nat)
      (World [Cell None [("apiKey", VStr "other"); ("timeout", VNum 1000)]] [] [])
      = (Ok this, w') /\
    heap w' !! 1%nat = Some cfg /\
    get_named cfg "apiKey" = Some (VStr "other") /\
    get_named cfg "apiSecret" = Some (VStr "") /\
    forall k, k ∉ ["apiKey"; "apiSecret"; "baseURL"] ->
              get_named cfg k
              = get_named (Cell None [("apiKey", VStr "other"); ("timeout", VNum 1000)]) k.
Proof.
  apply (constructor_options_override_credentials (VStr "key") VUndef 0%nat
           (Cell None [("apiKey", VStr "other"); ("timeout", VNum 1000)])
           (World [Cell None [("apiKey", VStr "other"); ("timeout", VNum 1000)]] [] [])).
  - reflexivity.
  - unfold wf_cell. simpl. compute_done.
  - reflexivity.
Defined.

(** ** The batch operations: what is accepted, and [modifyMultipleOrder] *)

Lemma same_batch_operations :
  Trade2.placeMultipleOrder = Trade.placeMultipleOrder /\
  Trade2.modifyMultipleOrder = Trade.modifyMultipleOrder.
Proof. split; reflexivity. Qed.

Lemma default_param_omitted fields w :
  default_param VUndef (new_object fields) w
  = (Ok (VRef (length (heap w))),
     with_heap (heap w ++ [set_all fields (Cell None [])])%list w).
Proof. reflexivity. Qed.

Lemma Object_assign_object w r c fields :
  heap w !! r = Some c ->
  Object_assign (VRef r) fields w
  = (Ok (VRef r), with_heap (<[r := set_all fields c]> (heap w)) w).
Proof.
  intros Hr. simpl. rewrite bind_run. unfold read_cell. rewrite Hr.
  by rewrite bind_run.
Qed.

Lemma signRequest_secret this c secret method path params w :
  heap w !! this = Some c ->
  get_named c "apiSecret" = Some (VStr secret) ->
  secret <> "" ->
  signRequest this method path params w = dispatch true method path params w.
Proof.
  intros Hc Hs Hne. unfold signRequest.
  rewrite bind_run, (get_prop_object _ _ _ _ Hc), Hs. simpl.
  apply String.eqb_neq in Hne. by rewrite Hne.
Qed.

Lemma insert_last (l : list cell) x y : <[length l := x]> (l ++ [y])%list = (l ++ [x])%list.
Proof.
  rewrite <- (Nat.add_0_r (length l)). by rewrite insert_app_r.
Qed.

(** The loop of [placeMultipleOrder] runs through a batch of complete
    elements. *)
Lemma batch_loop_accepts w r ps es1 es2 :
  heap w !! r = Some (Cell (Some (es1 ++ es2)%list) ps) ->
  Forall (is_object w) es2 ->
  Forall (fun e => lacks w e = false) es2 ->
  for_loop (length es2) (length es1) (fun i =>
    order ← get_index (VRef r) i;
    symbol ← get_prop order "symbol";
    side ← get_prop order "side";
    type ← get_prop order "type";
    quantity ← get_prop order "quantity";
    validateRequiredParameters
      [("symbol", symbol); ("side", side); ("type", type); ("quantity", quantity)]) w
  = (Ok tt, w).
Proof.
  intros Hr Hobj Hall. revert es1 Hr.
  induction es2 as [|e es2 IH]; intros es1 Hr; [done|].
  apply Forall_cons in Hobj as [He Hobj]. apply Forall_cons in Hall as [Hl Hall].
  cbn [for_loop length].
  rewrite bind_run, bind_run.
  rewrite (get_index_array w r _ ps (length es1) e Hr)
    by (by rewrite list_lookup_middle).
  pose proof (validate_element w e He) as Hv. simpl in Hv. rewrite Hl in Hv.
  rewrite Hv.
  specialize (IH Hobj Hall (es1 ++ [e])%list).
  rewrite length_app, Nat.add_1_r in IH. apply IH.
  by rewrite <- app_assoc.
Qed.

(** X11.  [placeMultipleOrder] called without options on a client that holds
    a secret accepts a batch (the empty one included) whose elements all carry
    [symbol], [side], [type] and [quantity], with a timestamp that is not
    missing: it sends one signed [POST /fapi/v1/batchOrders] whose parameters
    are a fresh object holding the caller's array itself under [batchOrders]
    and the timestamp, and it writes nothing else. *)
Theorem placeMultipleOrder_accepts this cthis secret r es ps timestamp w :
  heap w !! this = Some cthis ->
  get_named cthis "apiSecret" = Some (VStr secret) ->
  secret <> "" ->
  heap w !! r = Some (Cell (Some es) ps) ->
  Forall (is_object w) es ->
  Forall (fun e => lacks w e = false) es ->
  is_missing timestamp = false ->
  Trade.placeMultipleOrder this (VRef r) timestamp VUndef w =
  (Ok (length (net w)),
   World (heap w ++ [Cell None [("batchOrders", VRef r); ("timestamp", timestamp)]])%list
         (globals w)
         (net w ++ [Request true "POST" "/fapi/v1/batchOrders"
                      (VRef (length (heap w)))])%list).
Proof.
  intros Hthis Hsec Hne Hr Hobj Hall Hts. unfold Trade.placeMultipleOrder.
  rewrite bind_run, default_param_omitted. cbn [set_all fold_left].
  set (w1 := with_heap _ w).
  assert (heap w1 !! r = Some (Cell (Some es) ps)) as Hr1.
  { subst w1. simpl. by apply lookup_app_l_Some. }
  assert (Forall (is_object w1) es) as Hobj1.
  { eapply Forall_impl; [exact Hobj|]. intros e. apply is_object_extend. }
  assert (Forall (fun e => lacks w1 e = false) es) as Hall1.
  { apply Forall_forall. intros e He. subst w1. rewrite lacks_extend.
    - by eapply Forall_forall in Hall.
    - by eapply Forall_forall in Hobj. }
  rewrite bind_run, (get_prop_object _ _ _ _ Hr1). simpl get_named.
  rewrite bind_run. simpl loop_bound. rewrite ret_run, Nat2Z.id.
  pose proof (batch_loop_accepts w1 r ps [] es Hr1 Hobj1 Hall1) as Hloop.
  simpl length in Hloop. rewrite bind_run, Hloop.
  pose proof (validate_cases [("timestamp", timestamp)] w1) as Hv.
  simpl in Hv. rewrite Hts in Hv. simpl in Hv. rewrite bind_run, Hv.
  assert (heap w1 !! length (heap w) = Some (Cell None [])) as Ho.
  { subst w1. simpl. apply lookup_alloc. }
  rewrite bind_run, (Object_assign_object _ _ _ _ Ho).
  subst w1. cbn [heap with_heap globals net]. rewrite insert_last.
  erewrite signRequest_secret; [reflexivity | | exact Hsec | exact Hne].
  simpl. by apply lookup_app_l_Some.
Qed.

Lemma placeMultipleOrder_accepts_witness :
  Trade.placeMultipleOrder client (VRef 4%nat) (VNum 1) VUndef batch_world =
  (Ok 0%nat,
   World (heap batch_world ++
          [Cell None [("batchOrders", VRef 4%nat); ("timestamp", VNum 1)]])%list
         []
         [Request true "POST" "/fapi/v1/batchOrders" (VRef 5%nat)]).
Proof.
  apply (placeMultipleOrder_accepts client
           (Cell None [("apiKey", VStr "key"); ("apiSecret", VStr "secret");
                       ("baseURL", VStr "https://fapi.binance.com");
                       ("timeout", VUndef)])
           "secret" 4%nat [VRef 3%nat] [] (VNum 1) batch_world).
  - reflexivity.
  - reflexivity.
  - discriminate.
  - reflexivity.
  - apply Forall_cons. split; [eexists; reflexivity | apply Forall_nil_2].
  - apply Forall_cons. split; [reflexivity | apply Forall_nil_2].
  - reflexivity.
Defined.

(** One element of [modifyMultipleOrder], whatever it is. *)
Lemma validate_modify_destructured w e :
  destructurable w e ->
  let check :=
    symbol ← get_prop e "symbol";
    side ← get_prop e "side";
    quantity ← get_prop e "quantity";
    price ← get_prop e "price";
    timestamp ← get_prop e "timestamp";
    validateRequiredParameters
      [("symbol", symbol); ("side", side); ("quantity", quantity); ("price", price);
       ("timestamp", timestamp)] in
  if lacks_any modify_fields w e
  then exists names, check w = (Throw (MissingParameterError names), w)
                     /\ names <> [] /\ names ⊆ modify_fields
  else check w = (Ok tt, w).
Proof.
  intros He check. subst check.
  repeat (rewrite bind_run, (get_prop_destructured w e _ He) by done).
  apply (validate_cases
    [("symbol", peek w e "symbol"); ("side", peek w e "side");
     ("quantity", peek w e "quantity"); ("price", peek w e "price");
     ("timestamp", peek w e "timestamp")] w).
Qed.

Lemma lacks_any_destructured_extend fields w c e :
  destructurable w e ->
  lacks_any fields (with_heap (heap w ++ [c])%list w) e = lacks_any fields w e.
Proof.
  destruct e; try done. intros [c' Hc]. unfold lacks_any, peek. simpl in *.
  by rewrite (lookup_app_l_Some _ _ _ _ Hc), Hc.
Qed.

Lemma default_param_modify_batch options r es1 e es2 ps w :
  heap w !! r = Some (Cell (Some (es1 ++ e :: es2)%list) ps) ->
  Forall (fun x => destructurable w x /\ lacks_any modify_fields w x = false) es1 ->
  destructurable w e ->
  exists o w1,
    default_param options (new_object []) w = (Ok o, w1) /\
    net w1 = net w /\
    heap w1 !! r = Some (Cell (Some (es1 ++ e :: es2)%list) ps) /\
    Forall (fun x => destructurable w1 x /\ lacks_any modify_fields w1 x = false) es1 /\
    destructurable w1 e /\
    lacks_any modify_fields w1 e = lacks_any modify_fields w e.
Proof.
  intros Hr Hes1 He.
  destruct options; try (eexists _, _; split_and!; [reflexivity | done..]).
  eexists _, _. split_and!; [reflexivity | done | | | |].
  - simpl. by apply lookup_app_l_Some.
  - eapply Forall_impl; [exact Hes1|]. intros x [Hx Hl]. split.
    + by apply destructurable_extend.
    + by rewrite lacks_any_destructured_extend.
  - by apply destructurable_extend.
  - by apply lacks_any_destructured_extend.
Qed.

(** X12.  [modifyMultipleOrder] (of either trade file) on an array checks the
    elements in order.  When the elements before [e] can be destructured and
    carry [symbol], [side], [quantity], [price] and a [timestamp] of their
    own, and [e], an object or a primitive, lacks one of the five, the call
    fails with a [MissingParameterError] that names fields of the element
    only, and nothing is dispatched: the timestamp of the call does not stand
    in for the timestamp of an element. *)
Theorem modifyMultipleOrder_validates_elements this r es1 e es2 ps timestamp options w :
  heap w !! r = Some (Cell (Some (es1 ++ e :: es2)%list) ps) ->
  Forall (fun x => destructurable w x /\ lacks_any modify_fields w x = false) es1 ->
  destructurable w e ->
  lacks_any modify_fields w e = true ->
  exists names w',
    Trade.modifyMultipleOrder this (VRef r) timestamp options w
      = (Throw (MissingParameterError names), w')
    /\ Trade2.modifyMultipleOrder this (VRef r) timestamp options w
      = (Throw (MissingParameterError names), w')
    /\ names <> []
    /\ names ⊆ ["symbol"; "side"; "quantity"; "price"; "timestamp"]
    /\ net w' = net w.
Proof.
  intros Hr Hes1 He Hl. rewrite (proj2 same_batch_operations).
  destruct (default_param_modify_batch options r es1 e es2 ps w Hr Hes1 He)
    as (o & w1 & Ho & Hn & Hr1 & Hes1' & He1 & Hl1).
  rewrite Hl in Hl1.
  pose proof (validate_modify_destructured w1 e He1) as Hv. cbv zeta in Hv.
  rewrite Hl1 in Hv. destruct Hv as (names & Hv & Hne & Hsub).
  exists names, w1.
  assert (Trade.modifyMultipleOrder this (VRef r) timestamp options w
          = (Throw (MissingParameterError names), w1)) as Hrun.
  { unfold Trade.modifyMultipleOrder. rewrite bind_run, Ho.
    rewrite bind_run, (get_prop_object _ _ _ _ Hr1). simpl get_named.
    rewrite bind_run. simpl loop_bound. rewrite ret_run, Nat2Z.id.
    erewrite bind_run, for_loop_first; [reflexivity | |].
    - intros j Hj. destruct (lookup_lt_is_Some_2 es1 j Hj) as [x Hx].
      rewrite bind_run, (get_index_array w1 r _ ps j x Hr1)
        by (by apply lookup_app_l_Some).
      destruct (proj1 (Forall_forall _ _) Hes1' x) as [Hd Hlx];
        [by eapply list_elem_of_lookup_2|].
      pose proof (validate_modify_destructured w1 x Hd) as Hvx. cbv zeta in Hvx.
      by rewrite Hlx in Hvx.
    - by rewrite bind_run, (get_index_array w1 r _ ps (length es1) e Hr1)
        by (by rewrite list_lookup_middle). }
  split_and!; done.
Qed.

Lemma modifyMultipleOrder_validates_elements_witness :
  let w := World [Cell None [("symbol", VStr "BTCUSDT"); ("side", VStr "BUY");
                             ("quantity", VNum 1); ("price", VStr "30000")];
                  Cell (Some [VRef 0%nat; VNull]) []] [] [] in
  exists names w',
    Trade.modifyMultipleOrder client (VRef 1%nat) (VNum 1700000000000) VUndef w
      = (Throw (MissingParameterError names), w')
    /\ Trade2.modifyMultipleOrder client (VRef 1%nat) (VNum 1700000000000) VUndef w
      = (Throw (MissingParameterError names), w')
    /\ names <> []
    /\ names ⊆ ["symbol"; "side"; "quantity"; "price"; "timestamp"]
    /\ net w' = [].
Proof.
  apply (modifyMultipleOrder_validates_elements client 1%nat [] (VRef 0%nat) [VNull] []
           (VNum 1700000000000) VUndef
           (World [Cell None [("symbol", VStr "BTCUSDT"); ("side", VStr "BUY");
                              ("quantity", VNum 1); ("price", VStr "30000")];
                   Cell (Some [VRef 0%nat; VNull]) []] [] [])).
  - reflexivity.
  - apply Forall_nil_2.
  - eexists. reflexivity.
  - reflexivity.
Defined.

(** X13.  The batch operations do not validate [batchOrders] itself: called
    without it (or with [null]) they throw a [TypeError], not a
    [MissingParameterError], and dispatch nothing. *)
Theorem batchOrders_not_validated this batchOrders timestamp options w :
  batchOrders = VUndef \/ batchOrders = VNull ->
  exists w1 w2,
    Trade.placeMultipleOrder this batchOrders timestamp options w
      = (Throw TypeError, w1) /\ net w1 = net w /\
    Trade.modifyMultipleOrder this batchOrders timestamp options w
      = (Throw TypeError, w2) /\ net w2 = net w.
Proof.
  intros Hb. unfold Trade.placeMultipleOrder, Trade.modifyMultipleOrder.
  rewrite !bind_run.
  destruct (default_param_Ok options [] w) as (o & w1 & -> & Hn).
  exists w1, w1. rewrite !bind_run.
  by destruct Hb as [-> | ->].
Qed.

Lemma batchOrders_not_validated_witness :
  exists w1 w2,
    Trade.placeMultipleOrder client VUndef (VNum 1) VUndef client_world
      = (Throw TypeError, w1) /\ net w1 = net client_world /\
    Trade.modifyMultipleOrder client VUndef (VNum 1) VUndef client_world
      = (Throw TypeError, w2) /\ net w2 = net client_world.
Proof.
  apply (batchOrders_not_validated client VUndef (VNum 1) VUndef client_world).
  by left.
Defined.

(** ** The Account operations when the global scope binds their identifiers *)

Lemma global_inv x w v w' :
  global x w = (Ok v, w') -> w' = w /\ assoc x (globals w) = Some v.
Proof.
  unfold global. destruct (assoc x (globals w)); inversion 1; by subst.
Qed.

Lemma validate_Ok_inv params w u w' :
  validateRequiredParameters params w = (Ok u, w') ->
  w' = w /\ forall k v, (k, v) ∈ params -> is_missing v = false.
Proof.
  intros H. split; [by apply (stateless_validate params) in H|].
  intros k v Hin. destruct (is_missing v) eqn:E; [|done].
  destruct (validate_missing k v params w Hin E) as (names & Hrun & _). congruence.
Qed.

(** Runs an Account body that returned and keeps what the reads of the global
    scope and the validation tell. *)
Ltac exec_account :=
  repeat
    match goal with
    | H : (global _ ≫= _) _ = (Ok _, _) |- _ =>
        let a := fresh "g" in let w1 := fresh "w" in let H1 := fresh "Hglobal" in
        apply bind_Ok_inv in H as (a & w1 & H1 & H);
        apply global_inv in H1 as [-> H1]
    | H : (validateRequiredParameters _ ≫= _) _ = (Ok _, _) |- _ =>
        let a := fresh "u" in let w1 := fresh "w" in let H1 := fresh "Hvalid" in
        apply bind_Ok_inv in H as (a & w1 & H1 & H);
        apply validate_Ok_inv in H1 as [-> H1]
    | H : (_ ≫= _) _ = (Ok _, _) |- _ =>
        let a := fresh "a" in let w1 := fresh "w" in let H1 := fresh "Hstep" in
        apply bind_Ok_inv in H as (a & w1 & H1 & H); exec_head H1
    end;
  match goal with
  | H : publicRequest _ _ _ _ _ = _ |- _ => exec_head H
  end.

Lemma account_operations_use_globals_all :
  Forall (fun m =>
    forall this args w p w',
      m_run m this args w = (Ok p, w') ->
      exists options timestamp q r c,
        assoc "options" (globals w) = Some options /\
        assoc "timestamp" (globals w) = Some timestamp /\
        is_missing timestamp = false /\
        net w' = (net w ++ [q])%list /\
        r_params q = VRef r /\
        (forall o, options = VRef o -> r = o) /\
        heap w' !! r = Some c /\
        get_named c "timestamp" = Some timestamp)
    Account.methods.
Proof.
  unfold Account.methods.
  repeat (apply Forall_cons; split;
    [ intros this args w p w' Hrun; unfold_method; exec_account; simplify_eq;
      eexists _, _, _, _, _;
      (split_and!;
       [ eassumption
       | eassumption
       | match goal with
         | H : forall k v, (k, v) ∈ _ -> is_missing v = false |- _ =>
             eapply (H "timestamp"); apply list_elem_of_In; simpl; tauto
         end
       | etrans; [eassumption | apply (f_equal2 app); [congruence | reflexivity]]
       | reflexivity
       | assumption
       | rewrite Hheap; eassumption
       | apply Hget; reflexivity ]) | ]).
  apply Forall_nil_2.
Qed.

(** X14.  An Account operation returns only when the global scope binds
    [options] and a [timestamp] that is not missing: the arguments of the call
    play no part.  Its request then carries the global options object itself
    (when [options] is an object), with the global timestamp written into it,
    so that all Account calls write into and send one shared object. *)
Theorem account_operations_use_globals m this args w p w' :
  m ∈ Account.methods ->
  m_run m this args w = (Ok p, w') ->
  exists options timestamp q r c,
    assoc "options" (globals w) = Some options /\
    assoc "timestamp" (globals w) = Some timestamp /\
    is_missing timestamp = false /\
    net w' = (net w ++ [q])%list /\
    r_params q = VRef r /\
    (forall o, options = VRef o -> r = o) /\
    heap w' !! r = Some c /\
    get_named c "timestamp" = Some timestamp.
Proof.
  intros Hm.
  exact (proj1 (Forall_forall _ _) account_operations_use_globals_all m Hm
           this args w p w').
Qed.

Lemma account_operations_use_globals_witness :
  let w := World [Cell None [("recvWindow", VNum 5000)]]
                 [("timestamp", VNum 1700000000000); ("options", VRef 0%nat)] [] in
  exists options timestamp q r c,
    assoc "options" (globals w) = Some options /\
    assoc "timestamp" (globals w) = Some timestamp /\
    is_missing timestamp = false /\
    net (Account.futuresAccountBalanceV3 client w).2 = (net w ++ [q])%list /\
    r_params q = VRef r /\
    (forall o, options = VRef o -> r = o) /\
    heap (Account.futuresAccountBalanceV3 client w).2 !! r = Some c /\
    get_named c "timestamp" = Some timestamp.
Proof.
  apply (account_operations_use_globals
           (Method "futuresAccountBalanceV3" [] false
              (call0 Account.futuresAccountBalanceV3))
           client []
           (World [Cell None [("recvWindow", VNum 5000)]]
                  [("timestamp", VNum 1700000000000); ("options", VRef 0%nat)] [])
           0%nat).
  - apply (list_elem_of_lookup_2 _ 0%nat). reflexivity.
  - reflexivity.
Defined.

(** ** The two definitions of [newOrder] in the first trade file *)

(** X15.  The class body of the first trade file defines [newOrder] twice and
    the later definition, the test order, replaces the earlier one: in every
    class chain in which this body is the first to define the name, a
    [newOrder] call that returns has sent [POST /fapi/v1/order/test], signed,
    and never [POST /fapi/v1/order]. *)
Theorem trade_newOrder_is_test_order before after this args w p w' :
  resolve before "newOrder" = None ->
  invoke (before ++ Trade.methods :: after)%list "newOrder" this args w = (Ok p, w') ->
  exists r,
    net w' = (net w ++ [Request true "POST" "/fapi/v1/order/test" (VRef r)])%list.
Proof.
  intros Hbefore Hrun. unfold invoke in Hrun.
  rewrite resolve_app, Hbefore in Hrun. cbn [resolve] in Hrun.
  change (own_method Trade.methods "newOrder")
    with (Some (Method "newOrder" ["symbol"; "side"; "type"; "timestamp"] true
                  (call5 Trade.newOrder'))) in Hrun.
  unfold_method. exec.
  eexists. etrans; [eassumption|]. apply (f_equal2 app); [congruence | reflexivity].
Qed.

Lemma trade_newOrder_is_test_order_witness :
  exists r,
    net (invoke (Futures registry) "newOrder" client
           [VStr "bnbusdt"; VStr "buy"; VStr "limit"; VNum 1] client_world).2
    = (net client_world ++ [Request true "POST" "/fapi/v1/order/test" (VRef r)])%list.
Proof.
  apply (trade_newOrder_is_test_order [Account.methods] [Market.methods] client
           [VStr "bnbusdt"; VStr "buy"; VStr "limit"; VNum 1] client_world 0%nat).
  - reflexivity.
  - reflexivity.
Defined.

(** ** Calls without options share nothing *)

Lemma local_step_stateless {A} n (m : M A) : stateless m -> local_step n m.
Proof. intros Hm w r w' _ H. by apply Hm in H as ->. Qed.

Lemma local_step_bind {A B} n (m : M A) (f : A -> M B) :
  local_step n m -> (forall a, local_step n (f a)) -> local_step n (m ≫= f).
Proof.
  intros Hm Hf w r w' Hn. rewrite bind_run.
  destruct (m w) as [[a|e] w1] eqn:E; apply Hm in E as (Ht & Hl & Hq); try done.
  - intros H. apply Hf in H as (Ht' & Hl' & Hq'); [|lia].
    split_and!; [congruence | lia | congruence].
  - intros H. by inversion H; subst.
Qed.

Lemma local_step_alloc n c : local_step n (alloc c).
Proof.
  intros w r w' Hn. inversion 1; subst. simpl.
  rewrite take_app_le, length_app by done. split_and!; [done | lia | done].
Qed.

Lemma local_step_write n r c : (n <= r)%nat -> local_step n (write_cell r c).
Proof.
  intros Hr w x w' Hn. inversion 1; subst. simpl.
  rewrite take_insert_ge, length_insert by done. done.
Qed.

Lemma local_step_new_array n es : local_step n (new_array es).
Proof.
  apply local_step_bind; [apply local_step_alloc|].
  intros r. apply local_step_stateless, stateless_ret.
Qed.

Lemma local_step_set_prop n r k x : (n <= r)%nat -> local_step n (set_prop (VRef r) k x).
Proof.
  intros Hr. apply local_step_bind; [apply local_step_stateless, stateless_read_cell|].
  intros c. by apply local_step_write.
Qed.

Lemma local_step_array_map n f v :
  (forall x, stateless (f x)) -> local_step n (array_map f v).
Proof.
  intros Hf. destruct v; simpl; try apply local_step_stateless, stateless_throw.
  apply local_step_bind; [apply local_step_stateless, stateless_read_cell|].
  intros c. destruct (c_elems c); [|apply local_step_stateless, stateless_throw].
  apply local_step_bind; [by apply local_step_stateless, stateless_mapM|].
  intros es. apply local_step_new_array.
Qed.

Lemma local_step_when n b m : local_step n m -> local_step n (when b m).
Proof.
  intros Hm. destruct b; simpl; [done|]. apply local_step_stateless, stateless_ret.
Qed.

Lemma isolated_bind {A} n (m : M A) (f : A -> M promise) :
  local_step n m -> (forall a, isolated n (f a)) -> isolated n (m ≫= f).
Proof.
  intros Hm Hf w r w' Hn. rewrite bind_run.
  destruct (m w) as [[a|e] w1] eqn:E; apply Hm in E as (Ht & Hl & Hq); try done.
  - intros H. apply Hf in H as (Ht' & Hp); [|lia].
    split; [congruence|]. intros p Hr. destruct (Hp p Hr) as (q & Hnet & Hfresh).
    exists q. split; [congruence | done].
  - intros H. inversion H; subst. split; [done|]. intros p. discriminate.
Qed.

(** The default [{}] of an omitted argument is a fresh object. *)
Lemma isolated_omitted n fields (k : value -> M promise) :
  (forall l, (n <= l)%nat -> isolated n (k (VRef l))) ->
  isolated n (default_param VUndef (new_object fields) ≫= k).
Proof.
  intros Hk w r w' Hn. rewrite bind_run, default_param_omitted.
  intros H. apply Hk in H as (Ht & Hp); [| done | simpl; rewrite length_app; lia].
  simpl in *. rewrite take_app_le in Ht by done. done.
Qed.

(** An object literal is a fresh object. *)
Lemma isolated_new_object n fields (k : value -> M promise) :
  (forall l, (n <= l)%nat -> isolated n (k (VRef l))) ->
  isolated n (new_object fields ≫= k).
Proof. apply (isolated_omitted n fields k). Qed.

(** [Object.assign] into a fresh object returns that object. *)
Lemma isolated_Object_assign n (l : loc) fields (k : value -> M promise) :
  (n <= l)%nat ->
  isolated n (k (VRef l)) ->
  isolated n (Object_assign (VRef l) fields ≫= k).
Proof.
  intros Hl Hk w r w' Hn. rewrite bind_run.
  destruct (heap w !! l) as [c|] eqn:E.
  - rewrite (Object_assign_object _ _ _ _ E). intros H.
    apply Hk in H as (Ht & Hp); [|simpl; by rewrite length_insert].
    simpl in *. rewrite take_insert_ge in Ht by done. done.
  - cbn [Object_assign]. rewrite bind_run. unfold read_cell. rewrite E.
    intros H. inversion H; subst. split; [done|]. intros p. discriminate.
Qed.

Lemma isolated_dispatch n signed method path params :
  fresh_params n (Request signed method path params) ->
  isolated n (dispatch signed method path params).
Proof. intros Hf w r w' Hn. inversion 1; subst. simpl. eauto. Qed.

Lemma isolated_publicRequest n this method path params :
  fresh_params n (Request false method path params) ->
  isolated n (publicRequest this method path params).
Proof. apply isolated_dispatch. Qed.

Lemma isolated_signRequest n this method path params :
  fresh_params n (Request true method path params) ->
  isolated n (signRequest this method path params).
Proof.
  intros Hf. apply isolated_bind; [apply local_step_stateless, stateless_get_prop|].
  intros s. destruct (is_missing s); [|by apply isolated_dispatch].
  intros w r w' _. inversion 1; subst. split; [done|]. intros p. discriminate.
Qed.

Lemma fresh_params_undefined n signed method path :
  fresh_params n (Request signed method path VUndef).
Proof. by left. Qed.

Lemma fresh_params_ref n signed method path l :
  (n <= l)%nat -> fresh_params n (Request signed method path (VRef l)).
Proof. right. eauto. Qed.

(** The steps of a method body before its last. *)
Ltac local_steps :=
  repeat first
    [ apply local_step_set_prop; assumption
    | apply local_step_array_map; intros ?; apply stateless_toUpperCase
    | apply local_step_when
    | apply local_step_stateless;
      first [ apply stateless_validate | apply stateless_toUpperCase
            | apply stateless_global | apply stateless_get_prop
            | apply stateless_get_index | apply stateless_hasOwnProperty
            | apply stateless_loop_bound | apply stateless_ret
            | apply stateless_for_loop; intros ?; stateless_body ]
    | apply local_step_bind; [| intros ?] ].

(** One step of the syntactic proof that a method body called without
    options is isolated. *)
Ltac isolated_step :=
  first
    [ apply isolated_publicRequest;
      first [apply fresh_params_undefined | apply fresh_params_ref; assumption]
    | apply isolated_signRequest;
      first [apply fresh_params_undefined | apply fresh_params_ref; assumption]
    | apply isolated_omitted; intros ? ?
    | apply isolated_new_object; intros ? ?
    | apply isolated_Object_assign; [assumption|]
    | apply isolated_bind; [local_steps | intros ?] ].

Lemma calls_without_options_isolated :
  Forall (fun m =>
    forall this args n,
      (m_options m = true -> arg (length (m_params m)) args = VUndef) ->
      isolated n (m_run m this args))
    (Trade.methods ++ Trade2.methods ++ Market.methods)%list.
Proof.
  unfold Trade.methods, Trade2.methods, Market.methods. simpl app.
  repeat (apply Forall_cons; split;
    [ intros this args n Hopt; cbn [m_run m_options m_params length] in *;
      unfold call0, call1, call2, call3, call4, call5, call6;
      try rewrite (Hopt eq_refl);
      match goal with |- isolated _ ?m => let h := head_of m in unfold h end;
      repeat isolated_step | ]).
  apply Forall_nil_2.
Qed.

(** X16.  A call of a Trade or Market operation that passes no options,
    whether it returns or throws, writes no object that existed before the
    call: the heap only grows.  When the call returns, the parameters of its
    one request are none (for [ping] and [time]) or an object the call has
    allocated itself, so that two such calls share no parameter object. *)
Theorem call_without_options_is_isolated m this args w r w' :
  m ∈ (Trade.methods ++ Trade2.methods ++ Market.methods)%list ->
  (m_options m = true -> arg (length (m_params m)) args = VUndef) ->
  m_run m this args w = (r, w') ->
  (exists fresh, heap w' = (heap w ++ fresh)%list) /\
  forall p, r = Ok p ->
    exists q, net w' = (net w ++ [q])%list /\
      (r_params q = VUndef \/
       exists l, r_params q = VRef l /\ (length (heap w) <= l)%nat).
Proof.
  intros Hm Hopt Hrun.
  destruct (proj1 (Forall_forall _ _) calls_without_options_isolated m Hm
              this args (length (heap w)) Hopt w r w' (le_n _) Hrun) as [Ht Hp].
  split; [|exact Hp].
  exists (drop (length (heap w)) (heap w')).
  rewrite <- (take_drop (length (heap w)) (heap w')) at 1.
  by rewrite Ht, firstn_all.
Qed.

Lemma call_without_options_is_isolated_witness :
  let run := Trade.cancelOrder client (VStr "btcusdt") (VNum 1) VUndef client_world in
  (exists fresh, heap run.2 = (heap client_world ++ fresh)%list) /\
  forall p, run.1 = Ok p ->
    exists q, net run.2 = (net client_world ++ [q])%list /\
      (r_params q = VUndef \/
       exists l, r_params q = VRef l /\ (length (heap client_world) <= l)%nat).
Proof.
  apply (call_without_options_is_isolated
           (Method "cancelOrder" ["symbol"; "timestamp"] true (call3 Trade.cancelOrder))
           client [VStr "btcusdt"; VNum 1] client_world).
  - apply (list_elem_of_lookup_2 _ 5%nat). reflexivity.
  - reflexivity.
  - reflexivity.
Defined.

(** ** The declared parameters in the request *)

Lemma plain_parameter_sent_as_given_all :
  Forall (fun m =>
    forall k i this args w p w',
      mem k cased = false ->
      m_params m !! i = Some k ->
      m_run m this args w = (Ok p, w') ->
      exists q r c,
        net w' = (net w ++ [q])%list /\
        r_params q = VRef r /\
        heap w' !! r = Some c /\
        get_named c k = Some (arg i args))
    all_methods.
Proof.
  unfold all_methods, Account.methods, Trade.methods, Trade2.methods, Market.methods.
  repeat (apply Forall_cons; split;
    [ intros k i this args w p w' Hk Hi Hrun;
      cbn [m_params] in Hi;
      enum_params Hi;
      try discriminate Hk;
      unfold_method; exec;
      eexists _, _, _;
      (split_and!;
       [ etrans; [eassumption | apply (f_equal2 app); [congruence | reflexivity]]
       | reflexivity
       | rewrite Hheap; eassumption
       | apply Hget; reflexivity ]) | ]).
  apply Forall_nil_2.
Qed.

(** X17.  Every parameter of a signature whose name is none of [symbol],
    [pair], [side], [type] and [marginType] (the timestamp, prices,
    quantities, intervals, the batch, ...) reaches the request of a call that
    returns under its own name and exactly as the caller gave it, whether or
    not options were passed. *)
Theorem plain_parameter_sent_as_given m k i this args w p w' :
  m ∈ all_methods ->
  mem k cased = false ->
  m_params m !! i = Some k ->
  m_run m this args w = (Ok p, w') ->
  exists q r c,
    net w' = (net w ++ [q])%list /\
    r_params q = VRef r /\
    heap w' !! r = Some c /\
    get_named c k = Some (arg i args).
Proof.
  intros Hm.
  exact (proj1 (Forall_forall _ _) plain_parameter_sent_as_given_all m Hm
           k i this args w p w').
Qed.

Lemma plain_parameter_sent_as_given_witness :
  let args := [VStr "btcusdt"; VStr "buy"; VNum 7; VStr "30000.5"; VNum 1700000000000] in
  let run := Trade.modifyOrder client (VStr "btcusdt") (VStr "buy") (VNum 7)
               (VStr "30000.5") (VNum 1700000000000) VUndef client_world in
  exists q r c,
    net run.2 = (net client_world ++ [q])%list /\
    r_params q = VRef r /\
    heap run.2 !! r = Some c /\
    get_named c "price" = Some (arg 3 args).
Proof.
  apply (plain_parameter_sent_as_given
           (Method "modifyOrder" ["symbol"; "side"; "number"; "price"; "timestamp"] true
              (call6 Trade.modifyOrder))
           "price" 3%nat client
           [VStr "btcusdt"; VStr "buy"; VNum 7; VStr "30000.5"; VNum 1700000000000]
           client_world 0%nat).
  - apply (list_elem_of_lookup_2 _ 16%nat). reflexivity.
  - reflexivity.
  - reflexivity.
  - reflexivity.
Defined.

Lemma side_parameter_uppercased_all :
  Forall (fun m =>
    forall k i this args w p w',
      k ∈ ["side"; "marginType"] ->
      m_params m !! i = Some k ->
      m_run m this args w = (Ok p, w') ->
      exists s q r c,
        arg i args = VStr s /\
        net w' = (net w ++ [q])%list /\
        r_params q = VRef r /\
        heap w' !! r = Some c /\
        get_named c k = Some (VStr (upper s)))
    all_methods.
Proof.
  unfold all_methods, Account.methods, Trade.methods, Trade2.methods, Market.methods.
  repeat (apply Forall_cons; split;
    [ intros k i this args w p w' Hk Hi Hrun;
      cbn [m_params] in Hi;
      apply list_elem_of_In in Hk; simpl in Hk;
      destruct Hk as [<- | [<- | []]];
      enum_params Hi;
      unfold_method; exec;
      eexists _, _, _, _;
      (split_and!;
       [ eassumption
       | etrans; [eassumption | apply (f_equal2 app); [congruence | reflexivity]]
       | reflexivity
       | rewrite Hheap; eassumption
       | apply Hget; reflexivity ]) | ]).
  apply Forall_nil_2.
Qed.

(** X18.  Every operation that takes [side] or [marginType] in its signature
    upper-cases it like the symbol: a call that returns was given a string,
    and its request carries the upper-cased string under that name. *)
Theorem side_parameter_uppercased m k i this args w p w' :
  m ∈ all_methods ->
  k ∈ ["side"; "marginType"] ->
  m_params m !! i = Some k ->
  m_run m this args w = (Ok p, w') ->
  exists s s' q r c,
    arg i args = VStr s /\
    upper_cased s s' /\
    net w' = (net w ++ [q])%list /\
    r_params q = VRef r /\
    heap w' !! r = Some c /\
    get_named c k = Some (VStr s').
Proof.
  intros Hm Hk Hi Hrun.
  destruct (proj1 (Forall_forall _ _) side_parameter_uppercased_all m Hm
              k i this args w p w' Hk Hi Hrun) as (s & q & r & c & Hs & Hq & Hp & Hc & Hg).
  exists s, (upper s), q, r, c. split_and!; try done. apply upper_cased_upper.
Qed.

Lemma side_parameter_uppercased_witness :
  let run := Trade.changeMarginType client (VStr "btcusdt") (VStr "isolated") (VNum 1)
               VUndef client_world in
  exists s s' q r c,
    arg 1 [VStr "btcusdt"; VStr "isolated"; VNum 1] = VStr s /\
    upper_cased s s' /\
    net run.2 = (net client_world ++ [q])%list /\
    r_params q = VRef r /\
    heap run.2 !! r = Some c /\
    get_named c "marginType" = Some (VStr s').
Proof.
  apply (side_parameter_uppercased
           (Method "changeMarginType" ["symbol"; "marginType"; "timestamp"] true
              (call4 Trade.changeMarginType))
           "marginType" 1%nat client [VStr "btcusdt"; VStr "isolated"; VNum 1]
           client_world 0%nat).
  - apply (list_elem_of_lookup_2 _ 29%nat). reflexivity.
  - apply (list_elem_of_lookup_2 _ 1%nat). reflexivity.
  - reflexivity.
  - reflexivity.
Defined.

(** ** The route of an operation *)

Lemma all_methods_routed : Forall routed all_methods.
Proof.
  unfold all_methods, Account.methods, Trade.methods, Trade2.methods, Market.methods.
  repeat (apply Forall_cons; split;
    [ eexists _, _; split;
      [| intros this args w p w' Hrun; unfold_method; exec;
         eexists; split_and!;
         [ etrans; [eassumption | apply (f_equal2 app); [congruence | reflexivity]]
         | cbn [r_method]; reflexivity
         | cbn [r_path]; reflexivity ] ];
      unfold verbs; rewrite !elem_of_cons; tauto | ]).
  apply Forall_nil_2.
Qed.

(** X19.  Every operation has a fixed route: the verb, one of [GET], [POST],
    [PUT] and [DELETE], and the path of its request depend on the operation
    alone; no argument ever reaches the verb or the path. *)
Theorem route_is_static m :
  m ∈ all_methods ->
  exists verb path,
    verb ∈ verbs /\
    forall this args w p w',
      m_run m this args w = (Ok p, w') ->
      exists q, net w' = (net w ++ [q])%list /\
                r_method q = verb /\ r_path q = path.
Proof.
  intros Hm. exact (proj1 (Forall_forall _ _) all_methods_routed m Hm).
Qed.

Lemma route_is_static_witness :
  exists verb path,
    verb ∈ verbs /\
    forall this args w p w',
      call2 Market.depth this args w = (Ok p, w') ->
      exists q, net w' = (net w ++ [q])%list /\
                r_method q = verb /\ r_path q = path.
Proof.
  apply (route_is_static (Method "depth" ["symbol"] true (call2 Market.depth))).
  apply (list_elem_of_lookup_2 _ 59%nat). reflexivity.
Defined.

(** ** The request log over the lifetime of a client *)

Lemma invoke_one_request restfulModules name this args :
  Forall (fun f => f ∈ mixins) restfulModules ->
  one_request (invoke (Futures restfulModules) name this args).
Proof.
  intros Hrm. unfold invoke.
  destruct (resolve (Futures restfulModules) name) as [m|] eqn:E.
  - apply resolve_elem in E as (body & Hb & Hm).
    apply (proj1 (Forall_forall _ _) all_methods_one_request).
    eapply bodies_all_methods; [|done]. by eapply Futures_bodies.
  - intros w r w'. by inversion 1.
Qed.

(** X20.  Over any sequence of calls on a client composed of mixins of the
    repository, the log of dispatched requests only grows, by at most one
    request per call: no call removes or replaces a request sent earlier. *)
Theorem request_log_grows restfulModules this calls w :
  Forall (fun f => f ∈ mixins) restfulModules ->
  exists sent,
    net (run_calls (Futures restfulModules) this calls w) = (net w ++ sent)%list /\
    (length sent <= length calls)%nat.
Proof.
  intros Hrm. revert w. induction calls as [|[name args] calls IH]; intros w; simpl.
  - exists []. by rewrite app_nil_r.
  - destruct (invoke (Futures restfulModules) name this args w) as [r w1] eqn:E.
    apply (invoke_one_request _ _ _ _ Hrm) in E.
    destruct (IH w1) as (sent & Hnet & Hlen). simpl.
    destruct r as [p|e].
    + destruct E as (_ & q & Hq). exists (q :: sent).
      rewrite Hnet, Hq, <- app_assoc. simpl. split; [done | lia].
    + exists sent. rewrite Hnet, E. split; [done | lia].
Qed.

Lemma request_log_grows_witness :
  exists sent,
    net (run_calls (Futures registry) client
           [("newOrder", [VStr "btcusdt"; VStr "buy"; VStr "limit"; VNum 1]);
            ("depth", []);
            ("ping", [])]
           client_world)
    = (net client_world ++ sent)%list /\
    (length sent <= 3)%nat.
Proof.
  apply (request_log_grows registry client
           [("newOrder", [VStr "btcusdt"; VStr "buy"; VStr "limit"; VNum 1]);
            ("depth", []);
            ("ping", [])]
           client_world).
  repeat (apply Forall_cons; split; [apply list_elem_of_In; simpl; tauto|]).
  apply Forall_nil_2.
Defined.

(** ** A rejected call has written nothing *)

Lemma grows_stateless {A} (m : M A) : stateless m -> grows m.
Proof. intros Hm w r w' H. apply Hm in H as ->. exists []. by rewrite app_nil_r. Qed.

Lemma grows_default_param v fields : grows (default_param v (new_object fields)).
Proof.
  destruct v; try apply grows_stateless, stateless_ret.
  intros w r w'. rewrite default_param_omitted. inversion 1; subst. simpl. eauto.
Qed.

Lemma grows_new_object fields : grows (new_object fields).
Proof. apply (grows_default_param VUndef). Qed.

Lemma clean_reject_bind {A} (m : M A) (f : A -> M promise) :
  grows m -> (forall a, clean_reject (f a)) -> clean_reject (m ≫= f).
Proof.
  intros Hm Hf w e w'. rewrite bind_run.
  destruct (m w) as [[a|e1] w1] eqn:E; apply Hm in E as (fresh1 & E).
  - intros H He. destruct (Hf a _ _ _ H He) as (fresh & H').
    exists (fresh1 ++ fresh)%list. by rewrite H', E, app_assoc.
  - intros H _. inversion H; subst. eauto.
Qed.

Lemma clean_reject_publicRequest this method path params :
  clean_reject (publicRequest this method path params).
Proof. intros w e w'. inversion 1. Qed.

Lemma clean_reject_signRequest this method path params :
  clean_reject (signRequest this method path params).
Proof.
  intros w e w'. unfold signRequest. rewrite bind_run. simpl.
  rewrite bind_run. unfold read_cell. destruct (heap w !! this).
  - rewrite ret_run. destruct (is_missing _); inversion 1; subst. discriminate.
  - inversion 1; subst. discriminate.
Qed.

(** [Object.assign] throws before it writes, and after it only the
    dispatcher can throw. *)
Lemma clean_reject_Object_assign target fields (k : value -> M promise) :
  (forall params w e w', k params w = (Throw e, w') -> preflight_error e = false) ->
  clean_reject (Object_assign target fields ≫= k).
Proof.
  intros Hk w e w'. rewrite bind_run.
  destruct (Object_assign target fields w) as [[a|e1] w1] eqn:E.
  - intros H He. apply Hk in H. congruence.
  - intros H _. inversion H; subst.
    destruct target; simpl in E; try (inversion E; subst; exists []; by rewrite app_nil_r).
    rewrite bind_run in E. unfold read_cell in E. destruct (heap w !! l).
    + rewrite bind_run in E. inversion E.
    + inversion E; subst. exists []. by rewrite app_nil_r.
Qed.

Lemma publicRequest_no_preflight this method path params w e w' :
  publicRequest this method path params w = (Throw e, w') -> preflight_error e = false.
Proof. inversion 1. Qed.

Lemma signRequest_no_preflight this method path params w e w' :
  signRequest this method path params w = (Throw e, w') -> preflight_error e = false.
Proof.
  unfold signRequest. rewrite bind_run. simpl.
  rewrite bind_run. unfold read_cell. destruct (heap w !! this).
  - rewrite ret_run. destruct (is_missing _); by inversion 1.
  - by inversion 1.
Qed.

(** One step of the syntactic proof that a method body rejects cleanly. *)
Ltac clean_reject_step :=
  first
    [ apply clean_reject_publicRequest
    | apply clean_reject_signRequest
    | apply clean_reject_Object_assign; intros ? ? ? ?;
      first [apply publicRequest_no_preflight | apply signRequest_no_preflight]
    | apply clean_reject_bind;
      [ first
          [ apply grows_default_param
          | apply grows_new_object
          | apply grows_stateless;
            first [ apply stateless_validate | apply stateless_toUpperCase
                  | apply stateless_global | apply stateless_get_prop
                  | apply stateless_loop_bound
                  | apply stateless_for_loop; intros ?; stateless_body ] ]
      | intros ? ] ].

Lemma all_methods_clean_reject :
  Forall (fun m =>
    String.eqb (m_name m) "exchangeInfo" = false ->
    forall this args, clean_reject (m_run m this args))
    all_methods.
Proof.
  unfold all_methods, Account.methods, Trade.methods, Trade2.methods, Market.methods.
  repeat (apply Forall_cons; split;
    [ intros Hname this args; cbn [m_name] in Hname; try discriminate Hname;
      cbn [m_run];
      unfold call0, call1, call2, call3, call4, call5, call6;
      match goal with |- clean_reject ?m => let h := head_of m in unfold h end;
      repeat clean_reject_step | ]).
  apply Forall_nil_2.
Qed.

(** X21.  Every operation other than [exchangeInfo] checks before it writes:
    a call that throws a [MissingParameterError], a [TypeError] or a
    [ReferenceError] has written no object that existed before the call (the
    caller's options included); the heap has at most grown by the default
    [{}] of omitted options. *)
Theorem rejected_call_writes_nothing m this args w e w' :
  m ∈ all_methods ->
  String.eqb (m_name m) "exchangeInfo" = false ->
  m_run m this args w = (Throw e, w') ->
  preflight_error e = true ->
  exists fresh, heap w' = (heap w ++ fresh)%list.
Proof.
  intros Hm Hname.
  exact (proj1 (Forall_forall _ _) all_methods_clean_reject m Hm Hname
           this args w e w').
Qed.

Lemma rejected_call_writes_nothing_witness :
  exists fresh,
    heap (Trade.newOrder client (VStr "bnbusdt") (VStr "buy") (VNum 1) (VNum 1)
            (VRef 3%nat) order_world).2
    = (heap order_world ++ fresh)%list.
Proof.
  apply (rejected_call_writes_nothing
           (Method "newOrder" ["symbol"; "side"; "type"; "timestamp"] true
              (call5 Trade.newOrder))
           client [VStr "bnbusdt"; VStr "buy"; VNum 1; VNum 1; VRef 3%nat]
           order_world TypeError).
  - apply (list_elem_of_lookup_2 _ 14%nat). reflexivity.
  - reflexivity.
  - reflexivity.
  - reflexivity.
Defined.

(** X22.  [exchangeInfo] is the exception: called with options whose own
    [symbol] is a string and whose [symbols] is not an array, it throws a
    [TypeError] after it has upper-cased the [symbol] of the caller's options
    in place. *)
Theorem exchangeInfo_rejects_after_writing this r c s v w :
  heap w !! r = Some c ->
  get_named c "symbol" = Some (VStr s) ->
  get_named c "symbols" = Some v ->
  not_array w v ->
  exists s',
    upper_cased s s' /\
    Market.exchangeInfo this (VRef r) w =
    (Throw TypeError,
     with_heap (<[r := set_named "symbol" (VStr s') c]> (heap w)) w).
Proof.
  intros Hr Hs Hss Hv. exists (upper s). split; [apply upper_cased_upper|].
  unfold Market.exchangeInfo.
  rewrite bind_run. cbn [default_param]. rewrite ret_run.
  rewrite bind_run, (hasOwnProperty_present _ _ _ _ _ Hr Hs).
  rewrite bind_run. cbn [when].
  rewrite bind_run, (get_prop_object _ _ _ _ Hr), Hs. cbn [default id].
  rewrite bind_run. cbn [toUpperCase]. rewrite ret_run.
  rewrite (set_prop_object _ _ _ _ _ Hr).
  set (c1 := set_named "symbol" (VStr (upper s)) c).
  set (w1 := with_heap _ w).
  assert (r < length (heap w))%nat as Hlt by by eapply lookup_lt_Some.
  assert (heap w1 !! r = Some c1) as Hr1.
  { subst w1. simpl. by apply list_lookup_insert_eq. }
  assert (get_named c1 "symbols" = Some v) as Hss1.
  { subst c1. by rewrite get_named_set_named_ne. }
  assert (not_array w1 v) as Hv1.
  { destruct v as [| | | | |a]; try done. destruct Hv as (ca & Ha & He).
    subst w1. simpl. destruct (decide (a = r)) as [->|Hne].
    - exists c1. split; [by apply list_lookup_insert_eq|].
      unfold loc in *. rewrite Hr in Ha. by injection Ha as <-.
    - exists ca. split; [|done]. by rewrite list_lookup_insert_ne. }
  rewrite bind_run, (hasOwnProperty_present _ _ _ _ _ Hr1 Hss1).
  rewrite bind_run. cbn [when].
  rewrite bind_run, (get_prop_object _ _ _ _ Hr1), Hss1. cbn [default id].
  rewrite bind_run, (array_map_not_array _ _ _ Hv1). done.
Qed.

Lemma exchangeInfo_rejects_after_writing_witness :
  Market.exchangeInfo client (VRef 0%nat)
    (World [Cell None [("symbol", VStr "btcusdt"); ("symbols", VStr "ethusdt")]] [] [])
  = (Throw TypeError,
     World [Cell None [("symbol", VStr "BTCUSDT"); ("symbols", VStr "ethusdt")]] [] []).
Proof.
  destruct (exchangeInfo_rejects_after_writing client 0%nat
              (Cell None [("symbol", VStr "btcusdt"); ("symbols", VStr "ethusdt")])
              "btcusdt" (VStr "ethusdt")
              (World [Cell None [("symbol", VStr "btcusdt"); ("symbols", VStr "ethusdt")]]
                 [] [])
              eq_refl eq_refl eq_refl I) as (s' & Hu & Hrun).
  apply upper_cased_ascii_only in Hu; [|reflexivity]. rewrite Hu in Hrun.
  exact Hrun.
Defined.

(** ** The Market operations that do not validate their symbol *)

Lemma unvalidated_symbol_type_error_all :
  Forall (fun m =>
    mem (m_name m) unvalidated = true ->
    forall this args w,
      (forall s, arg 0 args <> VStr s) ->
      exists w', m_run m this args w = (Throw TypeError, w') /\ net w' = net w)
    Market.methods.
Proof.
  unfold Market.methods.
  repeat (apply Forall_cons; split;
    [ intros Hname this args w Hs; cbn [m_name] in Hname; try discriminate Hname;
      cbn [m_run]; unfold call0, call1, call2, call3, call4, call5, call6;
      match goal with
      | |- exists _, ?lhs = _ /\ _ => let h := head_of lhs in unfold h
      end;
      lazymatch goal with
      | |- exists _, (default_param ?v (new_object ?fs) ≫= _) ?w = _ /\ _ =>
          let o := fresh "o" in let w1 := fresh "w" in
          let Ho := fresh "Ho" in let Hn := fresh "Hn" in
          destruct (default_param_Ok v fs w) as (o & w1 & Ho & Hn);
          rewrite bind_run, Ho, <- Hn
      | _ => idtac
      end;
      rewrite bind_run, (toUpperCase_not_string _ _ Hs); eauto
    | ]).
  apply Forall_nil_2.
Qed.

(** X23.  The eight Market operations that take a symbol and do not validate
    it ([premiumindex], [fundingRateHistory], [priceChange24H],
    [symbolPriceTicker], [symbolPriceTickerV2], [bookTicker], [indexInfo],
    [assetIndex]) throw a [TypeError], not a [MissingParameterError], when the
    symbol is omitted or is no string, and dispatch nothing. *)
Theorem unvalidated_symbol_type_error m this args w :
  m ∈ Market.methods ->
  mem (m_name m) unvalidated = true ->
  (forall s, arg 0 args <> VStr s) ->
  exists w', m_run m this args w = (Throw TypeError, w') /\ net w' = net w.
Proof.
  intros Hm Hname.
  exact (proj1 (Forall_forall _ _) unvalidated_symbol_type_error_all m Hm Hname
           this args w).
Qed.

Lemma unvalidated_symbol_type_error_witness :
  exists w',
    Market.priceChange24H client VUndef client_world = (Throw TypeError, w') /\
    net w' = net client_world.
Proof.
  apply (unvalidated_symbol_type_error
           (Method "priceChange24H" ["symbol"] false (call1 Market.priceChange24H))
           client [] client_world).
  - apply (list_elem_of_lookup_2 _ 16%nat). reflexivity.
  - reflexivity.
  - discriminate.
Defined.
